(** * Nihongo Quest: the progression and persistence core

    A shallow embedding of [core/progression.py], [core/save_system.py] and
    [core/game_manager.py] (with the tables of [config.py] they read), and
    the properties of the leveling curve, the spaced-repetition state
    machine, monument gating and completion, and the save files.

    Conventions of the embedding.
    - Python [int] is [Z].  Python [float] is carried as a rational [Q];
      where a result depends on float rounding the rounding is an explicit
      operation of a [float_model], and theorems quantify over it.
    - A Python [dict] that holds save data is an association list in
      insertion order, updated in place by [dict_set]; the constant tables
      of [config.py] and the directory of save files are [gmap]s.
    - A raised exception is the [Raise] result; [None] is [option]'s. *)

From Stdlib Require Import ZArith QArith Qpower Qround Lia Lqa List Bool.
From Stdlib Require Import String Ascii.
From stdpp Require Import base option list gmap strings pretty.

Import ListNotations.
Set Warnings "-register-all".
Local Open Scope string_scope.
Local Open Scope Z_scope.

(** ** Exceptions *)

Inductive exn :=
  ValueError | KeyError | TypeError | AttributeError | OSError | RecursionError.

Inductive result (A : Type) : Type :=
| Ok (a : A)
| Raise (e : exn).
Arguments Ok {A} a.
Arguments Raise {A} e.

(** The error monad: [let* x := r in k] runs [k] unless [r] raised. *)
Definition bind {A B} (r : result A) (k : A -> result B) : result B :=
  match r with
  | Ok a => k a
  | Raise e => Raise e
  end.

Notation "'let*' x := r 'in' k" := (bind r (fun x => k))
  (at level 10, x name, r at level 100, k at level 200).

(** [range(lo, hi)] *)
Definition range (lo hi : Z) : list Z := seqZ lo (hi - lo).

(** ** Python values met in a save document *)

Module Json.

Inductive json :=
| JNull
| JBool (b : bool)
| JInt (z : Z)
| JFloat (q : Q)
| JStr (s : string)
| JList (l : list json)
| JDict (d : list (string * json)).

Definition dict := list (string * json).

(** [key in d] *)
Fixpoint dict_mem (key : string) (d : dict) : bool :=
  match d with
  | [] => false
  | (k, _) :: d' => if String.eqb k key then true else dict_mem key d'
  end.

(** [d.get(key)] *)
Fixpoint dict_get (key : string) (d : dict) : option json :=
  match d with
  | [] => None
  | (k, v) :: d' => if String.eqb k key then Some v else dict_get key d'
  end.

(** [d[key] = v]: an existing key keeps its place, a new key goes last. *)
Fixpoint dict_set (key : string) (v : json) (d : dict) : dict :=
  match d with
  | [] => [(key, v)]
  | (k, w) :: d' =>
      if String.eqb k key then (k, v) :: d' else (k, w) :: dict_set key v d'
  end.

(** [d.values()] *)
Definition dict_values (d : dict) : list json := map snd d.

Definition is_dict (v : json) : bool :=
  match v with JDict _ => true | _ => false end.

Definition is_list (v : json) : bool :=
  match v with JList _ => true | _ => false end.

(** [isinstance(v, int)]: [bool] is a subclass of [int]. *)
Definition is_int (v : json) : bool :=
  match v with JInt _ | JBool _ => true | _ => false end.

(** [isinstance(v, (int, float))] *)
Definition is_number (v : json) : bool :=
  match v with JInt _ | JBool _ | JFloat _ => true | _ => false end.

(** [v.get(key, default)] on an arbitrary value: only a dict has [get]. *)
Definition get_default (v : json) (key : string) (dflt : json) : result json :=
  match v with
  | JDict d => Ok (from_option id dflt (dict_get key d))
  | _ => Raise AttributeError
  end.

(** [for x in v]: the elements a [for] loop or generator draws from [v]. *)
Definition iter (v : json) : result (list json) :=
  match v with
  | JList l => Ok l
  | JDict d => Ok (map (fun kv => JStr (fst kv)) d)
  | JStr s => Ok (map (fun c => JStr (String c EmptyString)) (list_ascii_of_string s))
  | _ => Raise TypeError
  end.

(** [x.startswith(prefix)]: only a [str] has the method. *)
Definition startswith (x : json) (prefix : string) : result bool :=
  match x with
  | JStr s => Ok (String.prefix prefix s)
  | _ => Raise AttributeError
  end.

(** [sum(1 for x in xs if x.startswith(prefix))] *)
Fixpoint count_startswith (prefix : string) (xs : list json) : result Z :=
  match xs with
  | [] => Ok 0
  | x :: xs' =>
      let* b := startswith x prefix in
      let* n := count_startswith prefix xs' in
      Ok (if b then 1 + n else n)
  end.

(** [any(x.startswith(prefix) for x in xs)]: stops at the first hit. *)
Fixpoint any_startswith (prefix : string) (xs : list json) : result bool :=
  match xs with
  | [] => Ok false
  | x :: xs' =>
      let* b := startswith x prefix in
      if b then Ok true else any_startswith prefix xs'
  end.

(** [sum(1 for info in infos if isinstance(info, dict)
                               and info.get("stage") == "mastered")] *)
Definition is_mastered_info (info : json) : bool :=
  match info with
  | JDict d =>
      match dict_get "stage" d with
      | Some (JStr s) => String.eqb s "mastered"
      | _ => false
      end
  | _ => false
  end.

Definition count_mastered (infos : list json) : Z :=
  Z.of_nat (length (List.filter is_mastered_info infos)).

End Json.

(** ** [config.py]: the tables the core reads *)

Module Config.

Definition MAX_SAVE_SLOTS : Z := 6.
Definition DEFAULT_DIFFICULTY : string := "normal".

Definition BASE_XP_PER_LEVEL : Z := 100.
Definition XP_GROWTH_FACTOR : Q := 115 # 100.
Definition MAX_PLAYER_LEVEL : Z := 100.

(** A monument's [category] and [unlock_requires] ([None] for Python's
    [None]); the display fields play no part in the core. *)
Record monument := {
  name : string;
  category : string;
  unlock_requires : option string;
}.

Definition MONUMENTS : gmap Z monument :=
  list_to_map [
    (0,  {| name := "Hiragana Temple";    category := "hiragana";
            unlock_requires := None |});
    (1,  {| name := "Katakana Shrine";    category := "katakana";
            unlock_requires := Some "hiragana" |});
    (2,  {| name := "Grammar Garden";     category := "grammar_basic";
            unlock_requires := Some "katakana" |});
    (3,  {| name := "Vocabulary Village"; category := "vocabulary_basic";
            unlock_requires := Some "grammar_basic" |});
    (4,  {| name := "Verb Dojo";          category := "verbs";
            unlock_requires := Some "vocabulary_basic" |});
    (5,  {| name := "Kanji Castle N5";    category := "kanji_n5";
            unlock_requires := Some "verbs" |});
    (6,  {| name := "Listening Lake";     category := "listening";
            unlock_requires := Some "kanji_n5" |});
    (7,  {| name := "Grammar Grove";      category := "grammar_intermediate";
            unlock_requires := Some "listening" |});
    (8,  {| name := "Kanji Keep N4/N3";   category := "kanji_intermediate";
            unlock_requires := Some "grammar_intermediate" |});
    (9,  {| name := "Reading Realm";      category := "reading";
            unlock_requires := Some "kanji_intermediate" |});
    (10, {| name := "Conversation Court"; category := "conversation";
            unlock_requires := Some "reading" |});
    (11, {| name := "Advanced Academy";   category := "advanced";
            unlock_requires := Some "conversation" |});
    (12, {| name := "Immersion Island";   category := "immersion";
            unlock_requires := Some "advanced" |})
  ].

Definition TOTAL_MONUMENTS : Z := Z.of_nat (size MONUMENTS).

(** Review intervals in hours. *)
Definition SRS_STAGES : gmap string Z :=
  list_to_map [("new", 0); ("learning", 4); ("review", 24); ("mastered", 168)].

(** The entries of a difficulty's settings that the progression tracker
    reads; the multipliers are the decimals the source writes. *)
Record difficulty_settings := {
  srs_interval_mult : Q;
  xp_multiplier : Q;
  consecutive_correct_to_master : Z;
}.

Definition DIFFICULTY_SETTINGS : gmap string difficulty_settings :=
  list_to_map [
    ("easy",    {| srs_interval_mult := 8 # 10;  xp_multiplier := 8 # 10;
                   consecutive_correct_to_master := 6 |});
    ("normal",  {| srs_interval_mult := 1;       xp_multiplier := 1;
                   consecutive_correct_to_master := 5 |});
    ("hard",    {| srs_interval_mult := 13 # 10; xp_multiplier := 13 # 10;
                   consecutive_correct_to_master := 4 |});
    ("extreme", {| srs_interval_mult := 16 # 10; xp_multiplier := 18 # 10;
                   consecutive_correct_to_master := 3 |})
  ].

Definition XP_REWARDS : gmap string Z :=
  list_to_map [
    ("lesson_complete", 50); ("minigame_complete", 80); ("minigame_perfect", 150);
    ("character_mastered", 20); ("word_mastered", 25); ("grammar_mastered", 40);
    ("monument_complete", 500); ("daily_streak_bonus", 30);
    ("first_try_correct", 15); ("review_complete", 25)
  ].

End Config.

(** ** Float arithmetic

    The source computes the leveling curve, review times and completion
    percentages in binary floating point.  A [float_model] names the three
    places where a float result is rounded; every other operation is exact.
    [exact_arith] is the model without rounding error. *)

Record float_model := {
  (** the float nearest to an exact sum, product, quotient or literal *)
  rnd : Q -> Q;
  (** [x ** k] on a float base, as the C library computes it *)
  fpow : Q -> Z -> Q;
  (** [round(x, 1)] *)
  round1 : Q -> Q;
}.

(** [round(x, 1)] without representation error: the nearest multiple of
    one tenth, a tie going to the even multiple. *)
Definition round_half_even (x : Q) : Z :=
  let f := Qfloor x in
  let r := (x - inject_Z f)%Q in
  match Qcompare r (1 # 2) with
  | Lt => f
  | Gt => f + 1
  | Eq => if Z.even f then f else f + 1
  end.

Definition round_tenths (x : Q) : Q := (inject_Z (round_half_even (x * 10)) / 10)%Q.

Definition exact_arith : float_model :=
  {| rnd := fun x => x; fpow := Qpower; round1 := round_tenths |}.

(** [min(a, b)]: [b] only when it is strictly smaller. *)
Definition py_min (a b : Q) : Q := if Qlt_le_dec b a then b else a.

(** ** [core/progression.py] *)

Module Progression.
Import Json Config.

(** *** Mastery stages *)

Inductive MasteryStage := NEW | LEARNING | REVIEW | MASTERED.

(** The [IntEnum] value of a stage. *)
Definition stage_value (s : MasteryStage) : Z :=
  match s with NEW => 0 | LEARNING => 1 | REVIEW => 2 | MASTERED => 3 end.

(** [MasteryStage(v)]: the member with value [v], [ValueError] if none. *)
Definition MasteryStage_of (v : Z) : result MasteryStage :=
  if v =? 0 then Ok NEW
  else if v =? 1 then Ok LEARNING
  else if v =? 2 then Ok REVIEW
  else if v =? 3 then Ok MASTERED
  else Raise ValueError.

Definition STAGE_NAMES (s : MasteryStage) : string :=
  match s with
  | NEW => "new"
  | LEARNING => "learning"
  | REVIEW => "review"
  | MASTERED => "mastered"
  end.

(** *** XP and levels *)

Section Leveling.
Variable F : float_model.

(** One pass of the loop body [total += BASE * (GROWTH ** (lv - 2))]. *)
Definition xp_accumulate (total : Q) (lv : Z) : Q :=
  rnd F (total + rnd F (inject_Z BASE_XP_PER_LEVEL * fpow F XP_GROWTH_FACTOR (lv - 2))).

Definition xp_required_for_level (level : Z) : Z :=
  let level := Z.max 1 (Z.min level MAX_PLAYER_LEVEL) in
  if level <=? 1 then 0
  else
    let total := fold_left xp_accumulate (range 2 (level + 1)) 0%Q in
    Qceiling total.

Definition xp_for_next_level (current_level : Z) : Z :=
  let current_level := Z.max 1 (Z.min current_level (MAX_PLAYER_LEVEL - 1)) in
  xp_required_for_level (current_level + 1) - xp_required_for_level current_level.

(** The loop returns the first [lv] of [range(1, MAX + 1)] whose successor
    costs more than [total_xp], and [MAX_PLAYER_LEVEL] if it runs out. *)
Definition level_from_xp (total_xp : Z) : Z :=
  let total_xp := Z.max 0 total_xp in
  match List.find (fun lv => xp_required_for_level (lv + 1) >? total_xp)
                  (range 1 (MAX_PLAYER_LEVEL + 1)) with
  | Some lv => lv
  | None => MAX_PLAYER_LEVEL
  end.

End Leveling.

(** *** Spaced-repetition items *)

Record SRSItem := {
  item_id : string;
  stage : MasteryStage;
  consecutive_correct : Z;
  total_correct : Z;
  total_attempts : Z;
  last_reviewed : Q;
  next_review : Q;
}.

(** [SRSItem(item_id)] with the constructor's defaults. *)
Definition new_item (id : string) : SRSItem :=
  {| item_id := id; stage := NEW; consecutive_correct := 0;
     total_correct := 0; total_attempts := 0;
     last_reviewed := 0; next_review := 0 |}.

Definition set_stage (s : MasteryStage) (it : SRSItem) : SRSItem :=
  {| item_id := item_id it; stage := s;
     consecutive_correct := consecutive_correct it;
     total_correct := total_correct it; total_attempts := total_attempts it;
     last_reviewed := last_reviewed it; next_review := next_review it |}.

Definition set_consecutive_correct (n : Z) (it : SRSItem) : SRSItem :=
  {| item_id := item_id it; stage := stage it;
     consecutive_correct := n;
     total_correct := total_correct it; total_attempts := total_attempts it;
     last_reviewed := last_reviewed it; next_review := next_review it |}.

Definition set_total_correct (n : Z) (it : SRSItem) : SRSItem :=
  {| item_id := item_id it; stage := stage it;
     consecutive_correct := consecutive_correct it;
     total_correct := n; total_attempts := total_attempts it;
     last_reviewed := last_reviewed it; next_review := next_review it |}.

Definition set_total_attempts (n : Z) (it : SRSItem) : SRSItem :=
  {| item_id := item_id it; stage := stage it;
     consecutive_correct := consecutive_correct it;
     total_correct := total_correct it; total_attempts := n;
     last_reviewed := last_reviewed it; next_review := next_review it |}.

Definition set_last_reviewed (t : Q) (it : SRSItem) : SRSItem :=
  {| item_id := item_id it; stage := stage it;
     consecutive_correct := consecutive_correct it;
     total_correct := total_correct it; total_attempts := total_attempts it;
     last_reviewed := t; next_review := next_review it |}.

Definition set_next_review (t : Q) (it : SRSItem) : SRSItem :=
  {| item_id := item_id it; stage := stage it;
     consecutive_correct := consecutive_correct it;
     total_correct := total_correct it; total_attempts := total_attempts it;
     last_reviewed := last_reviewed it; next_review := t |}.

(** [SRSItem.record_answer].  [now] is the reading of [time.time()]; the
    result is the item after the call (the method returns its [stage]). *)
Definition record_answer (F : float_model) (now : Q) (self : SRSItem)
    (correct : bool) (consecutive_to_master : Z) (srs_interval_mult : Q)
  : result SRSItem :=
  let self := set_total_attempts (total_attempts self + 1) self in
  let self := set_last_reviewed now self in
  let* self :=
    if correct then
      let self := set_total_correct (total_correct self + 1) self in
      let self := set_consecutive_correct (consecutive_correct self + 1) self in
      if consecutive_correct self >=? consecutive_to_master then
        if stage_value (stage self) <? stage_value MASTERED then
          let* promoted := MasteryStage_of (stage_value (stage self) + 1) in
          Ok (set_consecutive_correct 0 (set_stage promoted self))
        else Ok self
      else Ok self
    else
      let self := set_consecutive_correct 0 self in
      if stage_value (stage self) >? stage_value NEW then
        let* demoted := MasteryStage_of (stage_value (stage self) - 1) in
        Ok (set_stage demoted self)
      else Ok self
  in
  let base_hours := from_option id 0 (SRS_STAGES !! STAGE_NAMES (stage self)) in
  let interval_seconds := rnd F (inject_Z (base_hours * 3600) * srs_interval_mult) in
  Ok (set_next_review (rnd F (now + interval_seconds)) self).

(** One review: what was answered, under which difficulty, and when. *)
Record answer := {
  ans_correct : bool;
  ans_threshold : Z;
  ans_interval_mult : Q;
  ans_now : Q;
}.

(** A run of [record_answer] calls on one item, in order. *)
Fixpoint record_answers (F : float_model) (self : SRSItem) (answers : list answer)
  : result SRSItem :=
  match answers with
  | [] => Ok self
  | a :: rest =>
      let* self := record_answer F (ans_now a) self (ans_correct a)
                     (ans_threshold a) (ans_interval_mult a) in
      record_answers F self rest
  end.

(** *** Monument completion ([ProgressionTracker], over the live save dict) *)

(** [d.values()]: only a dict has the method. *)
Definition values (v : json) : result (list json) :=
  match v with
  | JDict d => Ok (dict_values d)
  | _ => Raise AttributeError
  end.

(** [sum(1 for x in self._data.get(key, []) if x.startswith(prefix))] *)
Definition count_completed (self_data : dict) (key prefix : string) : result Z :=
  let* ids := iter (from_option id (JList []) (dict_get key self_data)) in
  count_startswith prefix ids.

(** The count of mastered entries of
    [self._data.get("mastered_characters", {}).get(script, {})]. *)
Definition count_script_mastered (self_data : dict) (script : string) : result Z :=
  let* script_dict :=
    get_default (from_option id (JDict []) (dict_get "mastered_characters" self_data))
                script (JDict []) in
  let* infos := values script_dict in
  Ok (count_mastered infos).

(** The [mastered_count] of [monument_completion_percentage]: characters
    are counted for the kana and kanji categories only. *)
Definition mastered_count_for (self_data : dict) (category : string) : result Z :=
  if String.eqb category "hiragana" || String.eqb category "katakana" then
    count_script_mastered self_data category
  else if String.prefix "kanji" category then
    count_script_mastered self_data "kanji"
  else Ok 0.

Definition expectations : gmap string Z :=
  list_to_map [
    ("hiragana", 46); ("katakana", 46); ("grammar_basic", 20);
    ("vocabulary_basic", 200); ("verbs", 50); ("kanji_n5", 100);
    ("listening", 30); ("grammar_intermediate", 40);
    ("kanji_intermediate", 350); ("reading", 25); ("conversation", 20);
    ("advanced", 60); ("immersion", 30)
  ].

Definition _expected_mastery_count (category : string) : Z :=
  from_option id 30 (expectations !! category).

Section Completion.
Variable F : float_model.

(** [min(1.0, count / expected) if expected else 0.0] *)
Definition fraction_done (count expected : Z) : Q :=
  if expected =? 0 then 0%Q
  else py_min 1 (rnd F (inject_Z count / inject_Z expected)).

(** [(lesson_pct * 0.30) + (minigame_pct * 0.30) + (mastery_pct * 0.40)] *)
Definition weighted_score (lesson_pct minigame_pct mastery_pct : Q) : Q :=
  rnd F (rnd F (rnd F (lesson_pct * rnd F (30 # 100))
                + rnd F (minigame_pct * rnd F (30 # 100)))
         + rnd F (mastery_pct * rnd F (40 # 100))).

(** The [mastery_pct] that [monument_completion_percentage] computes for
    a category. *)
Definition mastery_pct_for (self_data : dict) (category : string) : result Q :=
  let* mastered_count := mastered_count_for self_data category in
  Ok (fraction_done mastered_count (_expected_mastery_count category)).

Definition monument_completion_percentage (self_data : dict) (monument_id : Z)
  : result Q :=
  match MONUMENTS !! monument_id with
  | None => Ok 0%Q
  | Some m =>
      let category := category m in
      let prefix := category +:+ "_" in
      let* lesson_count := count_completed self_data "completed_lessons" prefix in
      let* minigame_count := count_completed self_data "completed_minigames" prefix in
      let* mastery_pct := mastery_pct_for self_data category in
      let expected_lessons := 5 in
      let expected_minigames := 3 in
      let lesson_pct := fraction_done lesson_count expected_lessons in
      let minigame_pct := fraction_done minigame_count expected_minigames in
      let weighted := weighted_score lesson_pct minigame_pct mastery_pct in
      Ok (round1 F (rnd F (weighted * 100)))
  end.

End Completion.

(** *** Progress inside a level *)

Section LevelProgress.
Variable F : float_model.

(** [(xp_into_current_level, xp_needed_for_next_level)] *)
Definition xp_progress_in_level (total_xp : Z) : Z * Z :=
  let lv := level_from_xp F total_xp in
  let base := xp_required_for_level F lv in
  let needed := xp_for_next_level F lv in
  (total_xp - base, needed).

End LevelProgress.

(** *** Items in the save document *)

(** [SRSItem.to_dict] *)
Definition to_dict (self : SRSItem) : dict :=
  [ ("stage", JStr (STAGE_NAMES (stage self)));
    ("consecutive", JInt (consecutive_correct self));
    ("total_correct", JInt (total_correct self));
    ("total_attempts", JInt (total_attempts self));
    ("last_reviewed", JFloat (last_reviewed self));
    ("next_review", JFloat (next_review self)) ].

(** [_NAME_TO_STAGE.get(name, MasteryStage.NEW)]: a name that is no stage
    name gives [NEW]; a list or dict cannot be hashed. *)
Definition _stage_from_name (name : json) : result MasteryStage :=
  match name with
  | JStr s =>
      Ok (if String.eqb s "new" then NEW
          else if String.eqb s "learning" then LEARNING
          else if String.eqb s "review" then REVIEW
          else if String.eqb s "mastered" then MASTERED
          else NEW)
  | JList _ | JDict _ => Raise TypeError
  | _ => Ok NEW
  end.

(** The counters and time stamps of an [SRSItem] are typed here, integers
    and floats, while [from_dict] stores whatever the document holds.
    [stored_int] and [stored_float] read a field that has the expected
    type, with the default of [data.get] when it is missing; [None] is a
    field of another type, an item this embedding does not follow. *)
Definition stored_int (data : dict) (key : string) (dflt : Z) : option Z :=
  match dict_get key data with
  | None => Some dflt
  | Some (JInt z) => Some z
  | Some _ => None
  end.

Definition stored_float (data : dict) (key : string) (dflt : Q) : option Q :=
  match dict_get key data with
  | None => Some dflt
  | Some (JFloat q) => Some q
  | Some _ => None
  end.

(** [SRSItem.from_dict(item_id, data)] *)
Definition from_dict (item_id : string) (data : dict) : result (option SRSItem) :=
  let* stage := _stage_from_name (from_option id (JStr "new") (dict_get "stage" data)) in
  Ok (match stored_int data "consecutive" 0, stored_int data "total_correct" 0,
            stored_int data "total_attempts" 0,
            stored_float data "last_reviewed" 0, stored_float data "next_review" 0 with
      | Some c, Some tc, Some ta, Some lr, Some nr =>
          Some {| item_id := item_id; stage := stage; consecutive_correct := c;
                  total_correct := tc; total_attempts := ta;
                  last_reviewed := lr; next_review := nr |}
      | _, _, _, _, _ => None
      end).

(** [dict.setdefault(key, {})] on an arbitrary value: the value found or
    stored, and the dict after the call. *)
Definition setdefault_dict (v : json) (key : string) : result (json * dict) :=
  match v with
  | JDict d =>
      match dict_get key d with
      | Some w => Ok (w, d)
      | None => Ok (JDict [], dict_set key (JDict []) d)
      end
  | _ => Raise AttributeError
  end.

(** [item_id in script_dict and isinstance(script_dict[item_id], dict)]:
    the entry when the test holds.  A list or a string that contains
    [item_id] cannot be indexed by it; a number has no [in]. *)
Definition stored_entry (script_dict : json) (item_id : string)
  : result (option dict) :=
  match script_dict with
  | JDict d =>
      match dict_get item_id d with
      | Some (JDict info) => Ok (Some info)
      | _ => Ok None
      end
  | JList l =>
      if existsb (fun x => match x with JStr s => String.eqb s item_id | _ => false end) l
      then Raise TypeError else Ok None
  | JStr s =>
      match String.index 0 item_id s with
      | Some _ => Raise TypeError
      | None => Ok None
      end
  | _ => Raise TypeError
  end.

(** [ProgressionTracker.get_srs_item]: the item (as [from_dict] gives it)
    and the save dict, in which the two [setdefault] calls may have
    created [mastered_characters] and the script's dict. *)
Definition get_srs_item (self_data : dict) (script item_id : string)
  : result (option SRSItem * dict) :=
  let* mc := setdefault_dict (JDict self_data) "mastered_characters" in
  let self_data := snd mc in
  let* sd := setdefault_dict (fst mc) script in
  let self_data := dict_set "mastered_characters" (JDict (snd sd)) self_data in
  let* entry := stored_entry (fst sd) item_id in
  match entry with
  | Some info =>
      let* item := from_dict item_id info in
      Ok (item, self_data)
  | None => Ok (Some (new_item item_id), self_data)
  end.

(** [ProgressionTracker.save_srs_item]: only a dict takes
    [script_dict[item.item_id] = ...]. *)
Definition save_srs_item (self_data : dict) (script : string) (item : SRSItem)
  : result dict :=
  let* mc := setdefault_dict (JDict self_data) "mastered_characters" in
  let self_data := snd mc in
  let* sd := setdefault_dict (fst mc) script in
  match fst sd with
  | JDict script_dict =>
      let script_dict := dict_set (item_id item) (JDict (to_dict item)) script_dict in
      Ok (dict_set "mastered_characters"
            (JDict (dict_set script (JDict script_dict) (snd sd))) self_data)
  | _ => Raise TypeError
  end.

(** *** The tracker *)

(** [ProgressionTracker]: the live save dict, and the settings that
    [__init__] picked for its difficulty. *)
Record ProgressionTracker := {
  _data : dict;
  _difficulty : json;
  _diff_settings : difficulty_settings;
}.

(** [DIFFICULTY_SETTINGS.get(difficulty, DIFFICULTY_SETTINGS[DEFAULT_DIFFICULTY])]:
    the default is looked up first; a list or dict cannot be hashed. *)
Definition settings_for (difficulty : json) : result difficulty_settings :=
  match DIFFICULTY_SETTINGS !! DEFAULT_DIFFICULTY with
  | None => Raise KeyError
  | Some dflt =>
      match difficulty with
      | JStr s => Ok (from_option id dflt (DIFFICULTY_SETTINGS !! s))
      | JList _ | JDict _ => Raise TypeError
      | _ => Ok dflt
      end
  end.

(** [ProgressionTracker.__init__] *)
Definition tracker_init (save_data : dict) : result ProgressionTracker :=
  let difficulty :=
    from_option id (JStr DEFAULT_DIFFICULTY) (dict_get "difficulty" save_data) in
  let* settings := settings_for difficulty in
  Ok {| _data := save_data; _difficulty := difficulty; _diff_settings := settings |}.

Definition set_data (data : dict) (self : ProgressionTracker) : ProgressionTracker :=
  {| _data := data; _difficulty := _difficulty self;
     _diff_settings := _diff_settings self |}.

(** The dict that [award_xp] returns. *)
Record xp_award := {
  award_xp_gained : Z;
  award_new_total_xp : Z;
  award_level : Z;
  award_leveled_up : bool;
  award_old_level : json;
}.

(** [stored + n] for an integer [n]: [None] is a float sum, which the
    integer totals here do not follow; text, lists, dicts and [None]
    cannot be added to an integer. *)
Definition plus_int (stored : json) (n : Z) : result (option Z) :=
  match stored with
  | JInt z => Ok (Some (z + n))
  | JBool b => Ok (Some ((if b then 1 else 0) + n))
  | JFloat _ => Ok None
  | _ => Raise TypeError
  end.

(** [n > stored] for an integer [n]. *)
Definition int_gt (n : Z) (stored : json) : result bool :=
  match stored with
  | JInt z => Ok (n >? z)
  | JBool b => Ok (n >? (if b then 1 else 0))
  | JFloat q => Ok (if Qlt_le_dec q (inject_Z n) then true else false)
  | _ => Raise TypeError
  end.

Section Tracker.
Variable F : float_model.

(** [calculate_xp_reward]: [int(math.ceil(base * mult))], the product
    taken in floats. *)
Definition calculate_xp_reward (reward_key : string) (difficulty : json) : result Z :=
  let base := from_option id 0 (XP_REWARDS !! reward_key) in
  let* settings := settings_for difficulty in
  let mult := rnd F (xp_multiplier settings) in
  Ok (Qceiling (rnd F (inject_Z base * mult))).

(** [ProgressionTracker.award_xp]: the dict returned and the tracker after
    the call; [None] when the stored [player_xp] is a float.  The
    comparison with the stored level comes after the two writes: when it
    raises, the writes have been made, which the raised result does not
    show. *)
Definition award_xp (self : ProgressionTracker) (reward_key : string)
  : result (option (xp_award * ProgressionTracker)) :=
  let* xp_gained := calculate_xp_reward reward_key (_difficulty self) in
  let* total_xp :=
    plus_int (from_option id (JInt 0) (dict_get "player_xp" (_data self))) xp_gained in
  match total_xp with
  | None => Ok None
  | Some total_xp =>
      let old_level := from_option id (JInt 1) (dict_get "player_level" (_data self)) in
      let new_level := level_from_xp F total_xp in
      let data := dict_set "player_xp" (JInt total_xp) (_data self) in
      let data := dict_set "player_level" (JInt new_level) data in
      let* leveled_up := int_gt new_level old_level in
      Ok (Some ({| award_xp_gained := xp_gained; award_new_total_xp := total_xp;
                   award_level := new_level; award_leveled_up := leveled_up;
                   award_old_level := old_level |},
                set_data data self))
  end.

(** [ProgressionTracker.record_character_answer]: the stage returned and
    the tracker after the call; [None] when the stored item holds a field
    that [from_dict] does not follow.  [now] is the reading of
    [time.time()]; the multiplier is the float nearest to the setting's
    decimal. *)
Definition record_character_answer (now : Q) (self : ProgressionTracker)
    (script item_id : string) (correct : bool)
  : result (option (MasteryStage * ProgressionTracker)) :=
  let* got := get_srs_item (_data self) script item_id in
  match fst got with
  | None => Ok None
  | Some item =>
      let* item := record_answer F now item correct
                     (consecutive_correct_to_master (_diff_settings self))
                     (rnd F (srs_interval_mult (_diff_settings self))) in
      let* data := save_srs_item (snd got) script item in
      Ok (Some (stage item, set_data data self))
  end.

End Tracker.

End Progression.

(** ** [core/game_manager.py] *)

Module GameManager.
Import Json Config.

(** [_UNLOCK_CHAIN.get(monument_id)]: [None] when the id has no entry or
    the entry's [unlock_requires] is [None]. *)
Definition _UNLOCK_CHAIN : gmap Z (option string) := unlock_requires <$> MONUMENTS.

Definition unlock_chain_get (monument_id : Z) : option string :=
  from_option id None (_UNLOCK_CHAIN !! monument_id).

Definition _category_minigames_complete (category : string) (completed : json)
  : result bool :=
  let prefix := category +:+ "_" in
  let* ids := iter completed in
  any_startswith prefix ids.

(** [self._save_data] is [None] until a save is loaded. *)
Definition is_monument_unlocked (_save_data : option dict) (monument_id : Z)
  : result bool :=
  if (monument_id <? 0) || (monument_id >=? TOTAL_MONUMENTS) then Ok false
  else if monument_id =? 0 then Ok true
  else
    match _save_data with
    | None => Ok false
    | Some save_data =>
        match unlock_chain_get monument_id with
        | None => Ok true
        | Some required_category =>
            let completed :=
              from_option id (JList []) (dict_get "completed_minigames" save_data) in
            _category_minigames_complete required_category completed
        end
    end.

(** [x in seq] for a string [x]: an element of a list, a key of a dict, a
    substring of a string; other values have no [in]. *)
Definition contains (seq : json) (x : string) : result bool :=
  match seq with
  | JList l =>
      Ok (existsb (fun y => match y with JStr s => String.eqb s x | _ => false end) l)
  | JDict d => Ok (dict_mem x d)
  | JStr s =>
      Ok (match String.index 0 x s with Some _ => true | None => false end)
  | _ => Raise TypeError
  end.

(** The body shared by [complete_lesson], [complete_minigame],
    [learn_vocabulary] and [learn_grammar]:
    [xs = self._save_data.setdefault(key, []); if x not in xs: xs.append(x)].
    The list is the one held by the save dict, so the append is seen
    through it; only a list has [append]. *)
Definition append_if_absent (_save_data : option dict) (key x : string)
  : result (option dict) :=
  match _save_data with
  | None => Ok None
  | Some save_data =>
      let save_data :=
        match dict_get key save_data with
        | Some _ => save_data
        | None => dict_set key (JList []) save_data
        end in
      let xs := from_option id (JList []) (dict_get key save_data) in
      let* present := contains xs x in
      if present then Ok (Some save_data)
      else
        match xs with
        | JList l => Ok (Some (dict_set key (JList (l ++ [JStr x])) save_data))
        | _ => Raise AttributeError
        end
  end.

Definition complete_lesson (_save_data : option dict) (lesson_id : string) :=
  append_if_absent _save_data "completed_lessons" lesson_id.

Definition complete_minigame (_save_data : option dict) (minigame_id : string) :=
  append_if_absent _save_data "completed_minigames" minigame_id.

Definition learn_vocabulary (_save_data : option dict) (word : string) :=
  append_if_absent _save_data "vocabulary_learned" word.

Definition learn_grammar (_save_data : option dict) (grammar_point : string) :=
  append_if_absent _save_data "grammar_learned" grammar_point.

(** [[mid for mid in range(TOTAL_MONUMENTS) if self.is_monument_unlocked(mid)]] *)
Fixpoint unlocked_among (_save_data : option dict) (mids : list Z) : result (list Z) :=
  match mids with
  | [] => Ok []
  | mid :: rest =>
      let* unlocked := is_monument_unlocked _save_data mid in
      let* others := unlocked_among _save_data rest in
      Ok (if unlocked then mid :: others else others)
  end.

Definition get_unlocked_monuments (_save_data : option dict) : result (list Z) :=
  unlocked_among _save_data (range 0 TOTAL_MONUMENTS).

(** [unlocked[-1] if unlocked else 0] *)
Definition get_highest_unlocked_monument (_save_data : option dict) : result Z :=
  let* unlocked := get_unlocked_monuments _save_data in
  Ok (List.last unlocked 0).

End GameManager.

(** ** [core/save_system.py] *)

Module SaveSystem.
Import Json Config.

(** What opening a file and [json.load] make of it: a document; a
    decoding error ([JSONDecodeError] and [UnicodeDecodeError], both
    [ValueError]s); or another exception, such as the [OSError] of an
    [open] that is refused or the [RecursionError] of a document nested
    too deeply for the decoder.  [json.dump] followed by [json.load] gives
    the document back. *)
Inductive file :=
| Unparseable
| Parsed (doc : json)
| Unreadable (ex : exn).

(** What the operating system and the interpreter answer during one
    [save_game] call. *)
Record env := {
  (** [datetime.now(timezone.utc).isoformat()] *)
  clock : string;
  (** [os.makedirs(SAVE_DIR, exist_ok=True)] succeeds where the directory
      is not there yet *)
  makedirs_ok : bool;
  (** [shutil.copy2(filepath, backup)] succeeds *)
  copy_ok : bool;
  (** [open(tmp_path, "w")] succeeds *)
  open_ok : bool;
  (** [json.dump] runs out of stack on the caller's record, nested too
      deeply for the encoder: [RecursionError] *)
  dump_overflows : bool;
  (** otherwise [json.dump] and the closing of the file succeed *)
  dump_ok : bool;
  (** [os.replace(tmp_path, filepath)] succeeds *)
  replace_ok : bool;
  (** [os.remove(tmp_path)] succeeds *)
  remove_ok : bool;
}.

Definition default_mastered_characters : json :=
  JDict [("hiragana", JDict []); ("katakana", JDict []); ("kanji", JDict [])].

Definition _default_save_data (slot : Z) : dict :=
  [ ("slot", JInt slot);
    ("player_name", JStr "");
    ("character_appearance",
       JDict [ ("body_type", JStr "average");
               ("hair_style", JStr "short");
               ("hair_color", JStr "black");
               ("eye_color", JStr "brown");
               ("skin_tone", JStr "medium");
               ("outfit_style", JStr "casual") ]);
    ("current_monument", JInt 0);
    ("completed_lessons", JList []);
    ("completed_minigames", JList []);
    ("mastered_characters", default_mastered_characters);
    ("vocabulary_learned", JList []);
    ("grammar_learned", JList []);
    ("total_play_time", JFloat 0);
    ("last_played", JNull);
    ("difficulty", JStr DEFAULT_DIFFICULTY) ].

Definition _validate_slot (slot : Z) : result unit :=
  if (slot <? 1) || (slot >? MAX_SAVE_SLOTS) then Raise ValueError else Ok tt.

(** [if key not in data: data[key] = default_value] *)
Definition fill_default (data : dict) (kv : string * json) : dict :=
  if dict_mem (fst kv) data then data else dict_set (fst kv) (snd kv) data.

(** [if sub_key not in mc or not isinstance(mc[sub_key], dict): mc[sub_key] = {}] *)
Definition fill_script (mc : dict) (sub_key : string) : dict :=
  match dict_get sub_key mc with
  | Some (JDict _) => mc
  | _ => dict_set sub_key (JDict []) mc
  end.

(** [if not isinstance(data.get(list_key), list): data[list_key] = []] *)
Definition coerce_list (data : dict) (list_key : string) : dict :=
  match dict_get list_key data with
  | Some (JList _) => data
  | _ => dict_set list_key (JList []) data
  end.

(** The block that makes [mastered_characters] a dict with its three
    script dicts.  [mc] is the dict held by [data], so filling it in place
    is seen through [data]. *)
Definition ensure_scripts (data : dict) : dict :=
  match dict_get "mastered_characters" data with
  | Some (JDict mc) =>
      let mc := fold_left fill_script ["hiragana"; "katakana"; "kanji"] mc in
      dict_set "mastered_characters" (JDict mc) data
  | _ => dict_set "mastered_characters" default_mastered_characters data
  end.

(** [if not isinstance(data.get("total_play_time"), (int, float)): ...] *)
Definition coerce_play_time (data : dict) : dict :=
  if from_option is_number false (dict_get "total_play_time" data) then data
  else dict_set "total_play_time" (JFloat 0) data.

(** [if not isinstance(data.get("current_monument"), int): ...] *)
Definition coerce_monument (data : dict) : dict :=
  if from_option is_int false (dict_get "current_monument" data) then data
  else dict_set "current_monument" (JInt 0) data.

Definition _validate_save_data (data : dict) (slot : Z) : dict :=
  let template := _default_save_data slot in
  let data := fold_left fill_default template data in
  let data := ensure_scripts data in
  let data :=
    fold_left coerce_list
      ["completed_lessons"; "completed_minigames";
       "vocabulary_learned"; "grammar_learned"] data in
  let data := coerce_play_time data in
  let data := coerce_monument data in
  dict_set "slot" (JInt slot) data.

Section Store.

(** [config.SAVE_DIR], which depends on the user's home directory. *)
Variable SAVE_DIR : string.

(** [os.path.join(SAVE_DIR, name)] for a relative [name]: the separator
    is added unless the directory is empty or already ends with it. *)
Definition ends_with_sep (dir : string) : bool :=
  match rev (list_ascii_of_string dir) with
  | c :: _ => Ascii.eqb c "/"
  | [] => true
  end.

Definition path_join (dir name : string) : string :=
  (if ends_with_sep dir then dir else dir +:+ "/") +:+ name.

Definition _slot_filename (slot : Z) : string :=
  "save_slot_" +:+ pretty slot +:+ ".json".

Definition _slot_filepath (slot : Z) : string :=
  path_join SAVE_DIR (_slot_filename slot).

Definition _backup_filepath (slot : Z) : string :=
  path_join SAVE_DIR ("save_slot_" +:+ pretty slot +:+ ".bak.json").

(** A path below the save directory. *)
Definition in_save_dir (path : string) : bool :=
  String.prefix (path_join SAVE_DIR "") path.

(** [_ensure_save_directory()]: [os.makedirs(SAVE_DIR, exist_ok=True)]
    has nothing to make, and so nothing to fail at, when the directory is
    there, as it is when it holds a file; otherwise the operating system
    answers, and a refusal is an [OSError]. *)
Definition _ensure_save_directory (e : env) (fs : gmap string file) : result unit :=
  if existsb in_save_dir (map fst (map_to_list fs)) || makedirs_ok e then Ok tt
  else Raise OSError.

(** The [try] block of [save_game]: the files after it and how it ended,
    [Ok true] at its end, [Ok false] through the [except] clause, which
    catches [OSError], [TypeError] and [ValueError], and [Raise] with an
    exception that clause does not catch.  A failed [open] leaves the
    files alone; a [json.dump] that fails or overflows leaves a partial
    temporary file; a failed [os.replace] leaves the complete temporary
    file. *)
Definition write_and_replace (e : env) (fs : gmap string file)
    (tmp_path filepath : string) (data : dict) : gmap string file * result bool :=
  if negb (open_ok e) then (fs, Ok false)
  else
    let fs := <[tmp_path := Unparseable]> fs in
    if dump_overflows e then (fs, Raise RecursionError)
    else if negb (dump_ok e) then (fs, Ok false)
    else
      let fs := <[tmp_path := Parsed (JDict data)]> fs in
      if negb (replace_ok e) then (fs, Ok false)
      else (<[filepath := Parsed (JDict data)]> (delete tmp_path fs), Ok true).

(** One call of [save_game(slot, data)] with all it leaves behind: how it
    ended, the caller's record after the call (it is mutated in place)
    and the files after it.  The slot check and
    [_ensure_save_directory()] come before the stamping; the clean-up of
    the temporary file belongs to the [except] clause, so an exception
    that clause does not catch passes it by. *)
Definition save_game_run (e : env) (fs : gmap string file) (slot : Z) (data : dict)
  : result bool * dict * gmap string file :=
  match _validate_slot slot with
  | Raise ex => (Raise ex, data, fs)
  | Ok _ =>
      match _ensure_save_directory e fs with
      | Raise ex => (Raise ex, data, fs)
      | Ok _ =>
          let filepath := _slot_filepath slot in
          let backup := _backup_filepath slot in
          let data := dict_set "slot" (JInt slot) data in
          let data := dict_set "last_played" (JStr (clock e)) data in
          let fs :=
            match fs !! filepath with
            | Some f => if copy_ok e then <[backup := f]> fs else fs
            | None => fs
            end in
          let tmp_path := filepath +:+ ".tmp" in
          match write_and_replace e fs tmp_path filepath data with
          | (fs, Ok true) => (Ok true, data, fs)
          | (fs, Ok false) =>
              let fs :=
                match fs !! tmp_path with
                | Some _ => if remove_ok e then delete tmp_path fs else fs
                | None => fs
                end in
              (Ok false, data, fs)
          | (fs, Raise ex) => (Raise ex, data, fs)
          end
      end
  end.

(** [save_game(slot, data)] as its caller sees it: the value returned with
    the record and the files, or the exception raised. *)
Definition save_game (e : env) (fs : gmap string file) (slot : Z) (data : dict)
  : result (bool * dict * gmap string file) :=
  match save_game_run e fs slot data with
  | (Ok ok, data, fs) => Ok (ok, data, fs)
  | (Raise ex, _, _) => Raise ex
  end.

(** The answers during the re-save inside [load_game].  The record there
    is a document [json.load] has just returned, at a nesting the decoder
    could follow, with defaults that add none: the encoder does not run
    out of stack on it. *)
Definition resaving (e : env) : env :=
  {| clock := clock e; makedirs_ok := makedirs_ok e; copy_ok := copy_ok e;
     open_ok := open_ok e; dump_overflows := false; dump_ok := dump_ok e;
     replace_ok := replace_ok e; remove_ok := remove_ok e |}.

(** The exceptions the [except] clause of [load_game] catches. *)
Definition caught_by_load (ex : exn) : bool :=
  match ex with
  | ValueError | KeyError | TypeError => true
  | _ => false
  end.

(** One pass of the loop of [load_game] over [(path, label)]: [Some] is
    the record it returns, [None] stands for [continue]; an exception of
    the read or of the re-save that the [except] clause does not catch
    leaves [load_game]. *)
Definition load_from (e : env) (fs : gmap string file) (slot : Z)
    (path label : string) : result (option dict * gmap string file) :=
  match fs !! path with
  | Some (Parsed (JDict data)) =>
      let data := _validate_save_data data slot in
      if String.eqb label "backup" then
        match save_game (resaving e) fs slot data with
        | Ok (_, data, fs) => Ok (Some data, fs)
        | Raise ex => if caught_by_load ex then Ok (None, fs) else Raise ex
        end
      else Ok (Some data, fs)
  | Some (Parsed _) => Ok (None, fs)
  | Some Unparseable => Ok (None, fs)
  | Some (Unreadable ex) => if caught_by_load ex then Ok (None, fs) else Raise ex
  | None => Ok (None, fs)
  end.

Fixpoint load_loop (e : env) (fs : gmap string file) (slot : Z)
    (candidates : list (string * string)) : result (option dict * gmap string file) :=
  match candidates with
  | [] => Ok (None, fs)
  | (path, label) :: rest =>
      let* r := load_from e fs slot path label in
      match r with
      | (Some data, fs) => Ok (Some data, fs)
      | (None, fs) => load_loop e fs slot rest
      end
  end.

Definition load_game (e : env) (fs : gmap string file) (slot : Z)
  : result (option dict * gmap string file) :=
  let* valid := _validate_slot slot in
  let filepath := _slot_filepath slot in
  let backup := _backup_filepath slot in
  load_loop e fs slot [(filepath, "primary"); (backup, "backup")].

Definition does_save_exist (fs : gmap string file) (slot : Z) : result bool :=
  let* valid := _validate_slot slot in
  Ok (bool_decide (is_Some (fs !! _slot_filepath slot))).

(** One pass of the loop of [delete_save]: [removable path] says whether
    [os.remove(path)] succeeds. *)
Definition remove_if_file (removable : string -> bool)
    (st : bool * gmap string file) (path : string) : bool * gmap string file :=
  match st.2 !! path with
  | Some _ => if removable path then (true, delete path st.2) else st
  | None => st
  end.

(** [delete_save(slot)]: [removed_any] and the files after the call. *)
Definition delete_save (removable : string -> bool) (fs : gmap string file)
    (slot : Z) : result (bool * gmap string file) :=
  let* valid := _validate_slot slot in
  Ok (fold_left (remove_if_file removable)
        [_slot_filepath slot; _backup_filepath slot] (false, fs)).

(** One pass of the loop of [get_all_saves]; [except Exception] turns any
    exception of [load_game] into [None] and keeps the files as they were
    found.  [es slot] is what the operating system answers while that
    slot is loaded. *)
Definition load_into (es : Z -> env)
    (st : gmap Z (option dict) * gmap string file) (slot : Z)
  : gmap Z (option dict) * gmap string file :=
  match load_game (es slot) st.2 slot with
  | Ok (r, fs) => (<[slot := r]> st.1, fs)
  | Raise _ => (<[slot := None]> st.1, st.2)
  end.

Definition get_all_saves (es : Z -> env) (fs : gmap string file)
  : gmap Z (option dict) * gmap string file :=
  fold_left (load_into es) (range 1 (MAX_SAVE_SLOTS + 1)) (∅, fs).

(** [create_new_save]: the record it returns, which [save_game] has
    stamped, and the files after the call; the result of [save_game] is
    dropped. *)
Definition create_new_save (e : env) (fs : gmap string file) (slot : Z)
    (player_name : string) (character_appearance : json) (difficulty : string)
  : result (dict * gmap string file) :=
  let* valid := _validate_slot slot in
  let data := _default_save_data slot in
  let data := dict_set "player_name" (JStr player_name) data in
  let data := dict_set "character_appearance" character_appearance data in
  let data := dict_set "difficulty" (JStr difficulty) data in
  let* saved := save_game e fs slot data in
  Ok (saved.1.2, saved.2).

(** [get_save_summary(slot)]; [data["slot"]] is a [KeyError] when the key
    is missing. *)
Definition get_save_summary (e : env) (fs : gmap string file) (slot : Z)
  : result (option dict * gmap string file) :=
  let* loaded := load_game e fs slot in
  match loaded.1 with
  | None => Ok (None, loaded.2)
  | Some data =>
      match dict_get "slot" data with
      | None => Raise KeyError
      | Some slot_value =>
          Ok (Some
                [ ("slot", slot_value);
                  ("player_name", from_option id (JStr "???") (dict_get "player_name" data));
                  ("current_monument", from_option id (JInt 0) (dict_get "current_monument" data));
                  ("total_play_time", from_option id (JFloat 0) (dict_get "total_play_time" data));
                  ("last_played", from_option id JNull (dict_get "last_played" data));
                  ("difficulty",
                     from_option id (JStr DEFAULT_DIFFICULTY) (dict_get "difficulty" data)) ],
              loaded.2)
      end
  end.

End Store.

End SaveSystem.

(** ** Vocabulary of the statements *)

Module Terms.
Import Progression.

(** Every answer of the run is correct and was given under threshold [k]. *)
Definition all_correct_under (k : Z) (answers : list answer) : Prop :=
  Forall (fun a => ans_correct a = true /\ ans_threshold a = k) answers.

(** The stage one below, [NEW] staying [NEW]. *)
Definition demoted (s : MasteryStage) : MasteryStage :=
  match s with
  | NEW => NEW
  | LEARNING => NEW
  | REVIEW => LEARNING
  | MASTERED => REVIEW
  end.

(** A correct answer under threshold [k], at time 0 and multiplier 1. *)
Definition correct_answer (k : Z) : answer :=
  {| ans_correct := true; ans_threshold := k;
     ans_interval_mult := 1; ans_now := 0 |}.

(** The relative error allowed to one float operation.  IEEE-754 binary64
    rounds to nearest with relative error at most 2^-53 in the range used
    here, and the C library's [pow] is accurate to within an ulp, so the
    source's arithmetic is well inside this tolerance. *)
Definition float_eps : Q := 1 # 1000000.

(** [rnd] is within [float_eps] of the exact value on the range of the
    leveling curve. *)
Definition rounds_closely (F : float_model) : Prop :=
  forall x : Q, (1 <= x <= 1000000000000)%Q ->
    (x * (1 - float_eps) <= rnd F x <= x * (1 + float_eps))%Q.

(** [GROWTH ** k] is within [float_eps] of the exact power for every
    exponent the curve uses (this also covers the representation error of
    the literal [1.15]). *)
Definition pow_closely (F : float_model) : Prop :=
  forall k : Z, 0 <= k <= Config.MAX_PLAYER_LEVEL - 2 ->
    (Config.XP_GROWTH_FACTOR ^ k * (1 - float_eps)
       <= fpow F Config.XP_GROWTH_FACTOR k
       <= Config.XP_GROWTH_FACTOR ^ k * (1 + float_eps))%Q.

(** The float [total] of [xp_required_for_level] after [m] passes of its
    loop, that is for [level = m + 1]. *)
Definition xp_total (F : float_model) (m : nat) : Q :=
  fold_left (xp_accumulate F) (seqZ 2 (Z.of_nat m)) 0%Q.

(** Float rounding is monotone and keeps zero. *)
Definition rounds_monotonically (F : float_model) : Prop :=
  (forall x y : Q, (x <= y)%Q -> (rnd F x <= rnd F y)%Q)
  /\ (rnd F 0 == 0)%Q.

(** [round(x, 1)] is monotone. *)
Definition round1_monotone (F : float_model) : Prop :=
  forall x y : Q, (x <= y)%Q -> (round1 F x <= round1 F y)%Q.

(** The percentage of a monument with every lesson and minigame done and
    nothing mastered.  In IEEE-754 doubles the weighted sum is
    [0.3 + 0.3 + 0.0], the double nearest 0.6, and its product with 100
    rounds to exactly [60.0]. *)
Definition full_marks_without_mastery (F : float_model) : Q :=
  round1 F (rnd F (weighted_score F 1 1 0 * 100)).

(** A save field that is absent or holds a list of strings. *)
Definition string_list_field (self_data : Json.dict) (key : string) : Prop :=
  Json.dict_get key self_data = None
  \/ exists ids : list string,
       Json.dict_get key self_data = Some (Json.JList (map Json.JStr ids)).

(** The fields the data model lists for a save record. *)
Definition documented_fields : list string :=
  ["slot"; "player_name"; "character_appearance"; "current_monument";
   "completed_lessons"; "completed_minigames"; "mastered_characters";
   "vocabulary_learned"; "grammar_learned"; "total_play_time";
   "last_played"; "difficulty"; "player_xp"; "player_level"].

(** The fields of the default template: the documented ones without
    [player_xp] and [player_level]. *)
Definition template_fields : list string :=
  ["slot"; "player_name"; "character_appearance"; "current_monument";
   "completed_lessons"; "completed_minigames"; "mastered_characters";
   "vocabulary_learned"; "grammar_learned"; "total_play_time";
   "last_played"; "difficulty"].

(** The record after [save_game] has stamped it. *)
Definition stamped (e : SaveSystem.env) (slot : Z) (data : Json.dict) : Json.dict :=
  Json.dict_set "last_played" (Json.JStr (SaveSystem.clock e))
    (Json.dict_set "slot" (Json.JInt slot) data).

(** Every step of the temporary-file write succeeds. *)
Definition writes_succeed (e : SaveSystem.env) : bool :=
  SaveSystem.open_ok e && SaveSystem.dump_ok e && SaveSystem.replace_ok e.

(** A primary file that [load_game] rejects: not JSON, or JSON whose top
    level is not a dict. *)
Definition rejected (f : SaveSystem.file) : Prop :=
  f = SaveSystem.Unparseable
  \/ exists doc, f = SaveSystem.Parsed doc /\ Json.is_dict doc = false.

(** An operating system on which everything works, and one on which the
    temporary file cannot be opened (a full disk). *)
Definition working_env : SaveSystem.env :=
  {| SaveSystem.clock := "2026-01-01T00:00:00+00:00";
     SaveSystem.makedirs_ok := true;
     SaveSystem.copy_ok := true; SaveSystem.open_ok := true;
     SaveSystem.dump_overflows := false;
     SaveSystem.dump_ok := true; SaveSystem.replace_ok := true;
     SaveSystem.remove_ok := true |}.

Definition failing_env : SaveSystem.env :=
  {| SaveSystem.clock := "2026-01-01T00:00:00+00:00";
     SaveSystem.makedirs_ok := true;
     SaveSystem.copy_ok := true; SaveSystem.open_ok := false;
     SaveSystem.dump_overflows := false;
     SaveSystem.dump_ok := true; SaveSystem.replace_ok := true;
     SaveSystem.remove_ok := true |}.

(** One on which the save directory cannot be created (a read-only home
    directory), and one on which everything works but the record is
    nested too deeply for [json.dump]. *)
Definition no_directory_env : SaveSystem.env :=
  {| SaveSystem.clock := "2026-01-01T00:00:00+00:00";
     SaveSystem.makedirs_ok := false;
     SaveSystem.copy_ok := true; SaveSystem.open_ok := true;
     SaveSystem.dump_overflows := false;
     SaveSystem.dump_ok := true; SaveSystem.replace_ok := true;
     SaveSystem.remove_ok := true |}.

Definition overflowing_env : SaveSystem.env :=
  {| SaveSystem.clock := "2026-01-01T00:00:00+00:00";
     SaveSystem.makedirs_ok := true;
     SaveSystem.copy_ok := true; SaveSystem.open_ok := true;
     SaveSystem.dump_overflows := true;
     SaveSystem.dump_ok := true; SaveSystem.replace_ok := true;
     SaveSystem.remove_ok := true |}.

(** One on which [json.dump] fails with an error that [save_game] catches
    (the disk fills up while the temporary file is written). *)
Definition dump_failing_env : SaveSystem.env :=
  {| SaveSystem.clock := "2026-01-01T00:00:00+00:00";
     SaveSystem.makedirs_ok := true;
     SaveSystem.copy_ok := true; SaveSystem.open_ok := true;
     SaveSystem.dump_overflows := false;
     SaveSystem.dump_ok := false; SaveSystem.replace_ok := true;
     SaveSystem.remove_ok := true |}.

(** Slot 1 with a primary that [open] refuses and an empty document as
    backup. *)
Definition unreadable_primary_files (SAVE_DIR : string) : gmap string SaveSystem.file :=
  <[SaveSystem._slot_filepath SAVE_DIR 1 := SaveSystem.Unreadable OSError]>
    (<[SaveSystem._backup_filepath SAVE_DIR 1 := SaveSystem.Parsed (Json.JDict [])]> ∅).

(** [json.dump] is reached and overflows: the one way out of the [try]
    block of [save_game] that its [except] clause does not cover. *)
Definition dump_escapes (e : SaveSystem.env) : bool :=
  SaveSystem.open_ok e && SaveSystem.dump_overflows e.

(** What [load_game] passes over: a file that is missing, one whose read
    ends in an exception its [except] clause catches, and a document that
    is no dict. *)
Definition passed_over (f : option SaveSystem.file) : Prop :=
  f = None
  \/ f = Some SaveSystem.Unparseable
  \/ (exists doc, f = Some (SaveSystem.Parsed doc) /\ Json.is_dict doc = false)
  \/ (exists ex, f = Some (SaveSystem.Unreadable ex)
                 /\ SaveSystem.caught_by_load ex = true).

(** A file whose read raises [ex], which [load_game] does not catch. *)
Definition read_escapes (f : option SaveSystem.file) (ex : exn) : Prop :=
  f = Some (SaveSystem.Unreadable ex) /\ SaveSystem.caught_by_load ex = false.

(** Slot 1 with an unparseable primary and an empty document as backup. *)
Definition corrupt_primary_files (SAVE_DIR : string) : gmap string SaveSystem.file :=
  <[SaveSystem._slot_filepath SAVE_DIR 1 := SaveSystem.Unparseable]>
    (<[SaveSystem._backup_filepath SAVE_DIR 1 := SaveSystem.Parsed (Json.JDict [])]> ∅).

(** Slot 1 with an empty JSON object as primary and no backup. *)
Definition empty_document_files (SAVE_DIR : string) : gmap string SaveSystem.file :=
  {[ SaveSystem._slot_filepath SAVE_DIR 1 := SaveSystem.Parsed (Json.JDict []) ]}.


(** A record with the structure [_validate_save_data] establishes: the
    template's fields are present, [mastered_characters] is a dict with a
    dict per script, the four progress fields are lists,
    [total_play_time] is a number, [current_monument] an integer and
    [slot] the slot's number. *)
Definition well_formed (slot : Z) (d : Json.dict) : Prop :=
  (forall key, In key template_fields -> Json.dict_mem key d = true)
  /\ (exists mc, Json.dict_get "mastered_characters" d = Some (Json.JDict mc)
        /\ forall script, In script ["hiragana"; "katakana"; "kanji"] ->
             exists sd, Json.dict_get script mc = Some (Json.JDict sd))
  /\ (forall key, In key ["completed_lessons"; "completed_minigames";
                          "vocabulary_learned"; "grammar_learned"] ->
        exists l, Json.dict_get key d = Some (Json.JList l))
  /\ (exists v, Json.dict_get "total_play_time" d = Some v /\ Json.is_number v = true)
  /\ (exists v, Json.dict_get "current_monument" d = Some v /\ Json.is_int v = true)
  /\ Json.dict_get "slot" d = Some (Json.JInt slot).

(** [os.remove] always succeeds. *)
Definition always_removable (path : string) : bool := true.

(** The item that [get_srs_item] returns, without the save dict. *)
Definition item_read (data : Json.dict) (script item_id : string)
  : result (option Progression.SRSItem) :=
  let* got := Progression.get_srs_item data script item_id in Ok (fst got).

(** The three scripts of [mastered_characters]. *)
Definition scripts : list string := ["hiragana"; "katakana"; "kanji"].

(** What an item adds to the count of mastered characters. *)
Definition counts_as_mastered (it : Progression.SRSItem) : Z :=
  match Progression.stage it with Progression.MASTERED => 1 | _ => 0 end.

(** The fields of the summary that [get_save_summary] returns. *)
Definition summary_fields : list string :=
  ["slot"; "player_name"; "current_monument"; "total_play_time";
   "last_played"; "difficulty"].

End Terms.

(** * Properties *)

(** ** The spaced-repetition state machine *)

Section SRS.
Import Progression Terms.
Variable F : float_model.

Lemma stage_value_bounds (s : MasteryStage) : 0 <= stage_value s <= 3.
Proof. destruct s; simpl; lia. Qed.

Lemma record_answers_app (it : SRSItem) (xs ys : list answer) :
  record_answers F it (xs ++ ys) =
  (let* it' := record_answers F it xs in record_answers F it' ys).
Proof.
  revert it. induction xs as [|a xs IH]; intros it; simpl; [reflexivity|].
  destruct (record_answer F (ans_now a) it (ans_correct a)
              (ans_threshold a) (ans_interval_mult a)); simpl; auto.
Qed.

(** A correct answer that does not reach the threshold only counts. *)
Lemma correct_below_threshold (it : SRSItem) (now m : Q) (k : Z) :
  consecutive_correct it + 1 < k ->
  exists it', record_answer F now it true k m = Ok it'
    /\ stage it' = stage it
    /\ consecutive_correct it' = consecutive_correct it + 1
    /\ total_correct it' = total_correct it + 1
    /\ total_attempts it' = total_attempts it + 1.
Proof.
  intros Hlt. unfold record_answer; simpl.
  destruct (Z.geb_spec (consecutive_correct it + 1) k) as [Hge|_]; [lia|].
  simpl. eexists; split; [reflexivity|]. simpl. auto.
Qed.

(** A correct answer that reaches the threshold below the ceiling promotes
    one stage and clears the streak. *)
Lemma correct_at_threshold (it : SRSItem) (now m : Q) (k : Z) :
  k <= consecutive_correct it + 1 ->
  stage it <> MASTERED ->
  exists it', record_answer F now it true k m = Ok it'
    /\ stage_value (stage it') = stage_value (stage it) + 1
    /\ consecutive_correct it' = 0
    /\ total_correct it' = total_correct it + 1
    /\ total_attempts it' = total_attempts it + 1.
Proof.
  intros Hge Hst. unfold record_answer; simpl.
  destruct (Z.geb_spec (consecutive_correct it + 1) k) as [_|Hlt]; [|lia].
  destruct (stage it) eqn:E; try congruence; simpl;
    (eexists; split; [reflexivity|]); simpl; auto.
Qed.

(** At the ceiling a correct answer never enters the promotion branch. *)
Lemma correct_at_ceiling (it : SRSItem) (now m : Q) (k : Z) :
  stage it = MASTERED ->
  exists it', record_answer F now it true k m = Ok it'
    /\ stage it' = MASTERED
    /\ consecutive_correct it' = consecutive_correct it + 1
    /\ total_correct it' = total_correct it + 1
    /\ total_attempts it' = total_attempts it + 1.
Proof.
  intros Hst. unfold record_answer; simpl. rewrite Hst; simpl.
  destruct (consecutive_correct it + 1 >=? k); simpl;
    (eexists; split; [reflexivity|]); simpl; auto.
Qed.

Lemma incorrect_answer (it : SRSItem) (now m : Q) (k : Z) :
  exists it', record_answer F now it false k m = Ok it'
    /\ stage it' = demoted (stage it)
    /\ consecutive_correct it' = 0
    /\ total_correct it' = total_correct it
    /\ total_attempts it' = total_attempts it + 1.
Proof.
  unfold record_answer; simpl.
  destruct (stage it) eqn:E; simpl;
    (eexists; split; [reflexivity|]); simpl; auto.
Qed.

(** No call raises, and none lets the correct answers outnumber the
    attempts. *)
Lemma record_answer_total (it : SRSItem) (now m : Q) (c : bool) (k : Z) :
  total_correct it <= total_attempts it ->
  exists it', record_answer F now it c k m = Ok it'
    /\ total_correct it' <= total_attempts it'.
Proof.
  intros Hle. destruct c.
  - destruct (Z.lt_ge_cases (consecutive_correct it + 1) k) as [Hlt|Hge].
    + destruct (correct_below_threshold it now m k Hlt) as (it' & -> & _ & _ & Hc & Ha).
      exists it'. split; [reflexivity|lia].
    + destruct (stage it) eqn:E.
      1-3: destruct (correct_at_threshold it now m k Hge) as (it' & -> & _ & _ & Hc & Ha);
        [congruence | exists it'; split; [reflexivity|lia]].
      destruct (correct_at_ceiling it now m k E) as (it' & -> & _ & _ & Hc & Ha).
      exists it'. split; [reflexivity|lia].
  - destruct (incorrect_answer it now m k) as (it' & -> & _ & _ & Hc & Ha).
    exists it'. split; [reflexivity|lia].
Qed.

Lemma record_answers_total (answers : list answer) (it : SRSItem) :
  total_correct it <= total_attempts it ->
  exists it', record_answers F it answers = Ok it'
    /\ total_correct it' <= total_attempts it'.
Proof.
  revert it. induction answers as [|a rest IH]; intros it Hle; simpl.
  - exists it. auto.
  - destruct (record_answer_total it (ans_now a) (ans_interval_mult a)
                (ans_correct a) (ans_threshold a) Hle) as (it1 & -> & Hle1).
    simpl. apply IH, Hle1.
Qed.

(** A streak that stays short of the threshold leaves the stage alone. *)
Lemma streak_below (k : Z) (answers : list answer) (it : SRSItem) :
  all_correct_under k answers ->
  consecutive_correct it + Z.of_nat (length answers) < k ->
  exists it', record_answers F it answers = Ok it'
    /\ stage it' = stage it
    /\ consecutive_correct it' = consecutive_correct it + Z.of_nat (length answers).
Proof.
  intros Hall. revert it. induction Hall as [|a rest [Hc Hk] _ IH]; intros it Hlt.
  - exists it. simpl. repeat split; auto; lia.
  - simpl in Hlt |- *. rewrite Hc, Hk.
    destruct (correct_below_threshold it (ans_now a) (ans_interval_mult a) k)
      as (it1 & -> & Hs1 & Hc1 & _); [lia|].
    simpl. destruct (IH it1) as (it' & Hrun & Hs & Hcc); [lia|].
    exists it'. rewrite Hrun, Hs, Hcc, Hs1, Hc1. repeat split; auto; lia.
Qed.

(** A streak that ends exactly on the threshold promotes once. *)
Lemma streak_promotes (k : Z) (answers : list answer) (it : SRSItem) :
  all_correct_under k answers ->
  answers <> [] ->
  consecutive_correct it + Z.of_nat (length answers) = k ->
  stage it <> MASTERED ->
  exists it', record_answers F it answers = Ok it'
    /\ stage_value (stage it') = stage_value (stage it) + 1
    /\ consecutive_correct it' = 0.
Proof.
  intros Hall. revert it.
  induction Hall as [|a rest [Hc Hk] Hrest IH]; intros it Hne Hlen Hst; [congruence|].
  simpl in Hlen |- *. rewrite Hc, Hk. destruct rest as [|b rest].
  - destruct (correct_at_threshold it (ans_now a) (ans_interval_mult a) k)
      as (it1 & -> & Hs1 & Hc1 & _); [simpl in Hlen; lia | assumption |].
    simpl. exists it1. auto.
  - destruct (correct_below_threshold it (ans_now a) (ans_interval_mult a) k)
      as (it1 & -> & Hs1 & Hc1 & _); [simpl length in Hlen; lia|].
    cbn [bind]. destruct (IH it1) as (it' & Hrun & Hs & Hcc);
      [discriminate | simpl length in *; lia | congruence |].
    exists it'. rewrite Hrun, Hs, Hs1. auto.
Qed.

(** C3 (as amended).  From a fresh item, under threshold [k >= 1] and
    correct answers only: fewer than [k] answers leave the item at [NEW]
    with the streak counted; exactly [k] answers leave it at [LEARNING]
    with the streak back at 0; the [(k+1)]-th answer then leaves a streak
    of 1 at [LEARNING] when [k >= 2], while for [k = 1] that single answer
    already meets the threshold again and completes the next promotion
    ([REVIEW], streak 0). *)
Theorem srs_promotion (k : Z) (id : string) (answers : list answer) :
  1 <= k ->
  all_correct_under k answers ->
  exists it, record_answers F (new_item id) answers = Ok it
    /\ (Z.of_nat (length answers) < k ->
          stage it = NEW /\ consecutive_correct it = Z.of_nat (length answers))
    /\ (Z.of_nat (length answers) = k ->
          stage it = LEARNING /\ consecutive_correct it = 0)
    /\ (Z.of_nat (length answers) = k + 1 -> 2 <= k ->
          stage it = LEARNING /\ consecutive_correct it = 1)
    /\ (Z.of_nat (length answers) = k + 1 -> k = 1 ->
          stage it = REVIEW /\ consecutive_correct it = 0).
Proof.
  intros Hk Hall.
  destruct (record_answers_total answers (new_item id)) as (it & Hrun & _);
    [simpl; lia|].
  exists it. split; [exact Hrun|].
  assert (Hfirst : forall xs, all_correct_under k xs -> Z.of_nat (length xs) = k ->
            exists it1, record_answers F (new_item id) xs = Ok it1
              /\ stage it1 = LEARNING /\ consecutive_correct it1 = 0).
  { intros xs Hxs Hlen.
    destruct (streak_promotes k xs (new_item id)) as (it1 & Hr & Hs & Hc);
      [exact Hxs | intros ->; simpl in Hlen; lia | simpl; lia | discriminate |].
    exists it1. repeat split; auto.
    simpl in Hs. destruct (stage it1); simpl in Hs; try lia; reflexivity. }
  assert (Hsplit : Z.of_nat (length answers) = k + 1 ->
            exists it1, record_answers F (new_item id) (take (Z.to_nat k) answers) = Ok it1
              /\ stage it1 = LEARNING /\ consecutive_correct it1 = 0
              /\ record_answers F it1 (drop (Z.to_nat k) answers) = Ok it
              /\ all_correct_under k (drop (Z.to_nat k) answers)
              /\ length (drop (Z.to_nat k) answers) = 1%nat).
  { intros Hlen.
    destruct (Hfirst (take (Z.to_nat k) answers)) as (it1 & Hr1 & Hs1 & Hc1).
    - apply Forall_take, Hall.
    - rewrite length_take. lia.
    - exists it1. repeat split; auto.
      + rewrite <- (take_drop (Z.to_nat k) answers), record_answers_app, Hr1 in Hrun.
        exact Hrun.
      + apply Forall_drop, Hall.
      + rewrite length_drop. lia. }
  repeat split.
  - destruct (streak_below k answers (new_item id) Hall) as (it' & Hr & Hs & _);
      [simpl; lia|]. simpl in Hs. congruence.
  - destruct (streak_below k answers (new_item id) Hall) as (it' & Hr & _ & Hc);
      [simpl; lia|]. replace it with it' by congruence. simpl in Hc. lia.
  - destruct (Hfirst answers Hall H) as (it1 & Hr & Hs & _). congruence.
  - destruct (Hfirst answers Hall H) as (it1 & Hr & _ & Hc). congruence.
  - destruct (Hsplit H) as (it1 & _ & Hs1 & Hc1 & Hr2 & Hall2 & Hlen2).
    destruct (streak_below k _ it1 Hall2) as (it' & Hr & Hs & _);
      [rewrite Hlen2; lia|]. congruence.
  - destruct (Hsplit H) as (it1 & _ & Hs1 & Hc1 & Hr2 & Hall2 & Hlen2).
    destruct (streak_below k _ it1 Hall2) as (it' & Hr & _ & Hc);
      [rewrite Hlen2; lia|]. rewrite Hlen2 in Hc. replace it with it' by congruence. lia.
  - destruct (Hsplit H) as (it1 & _ & Hs1 & Hc1 & Hr2 & Hall2 & Hlen2).
    destruct (streak_promotes k _ it1 Hall2) as (it' & Hr & Hs & _).
    + intros E. rewrite E in Hlen2. discriminate.
    + rewrite Hlen2. lia.
    + congruence.
    + replace it with it' by congruence. rewrite Hs1 in Hs.
      destruct (stage it'); simpl in Hs; try lia; reflexivity.
  - destruct (Hsplit H) as (it1 & _ & Hs1 & Hc1 & Hr2 & Hall2 & Hlen2).
    destruct (streak_promotes k _ it1 Hall2) as (it' & Hr & _ & Hc).
    + intros E. rewrite E in Hlen2. discriminate.
    + rewrite Hlen2. lia.
    + congruence.
    + congruence.
Qed.

(** C4.  Whatever the item's state and streak, one incorrect answer sets
    [consecutive_correct] to 0 and moves the stage down by exactly one,
    except that [NEW] stays [NEW]; only [total_attempts] is counted. *)
Theorem srs_demotion (it : SRSItem) (now m : Q) (k : Z) :
  exists it', record_answer F now it false k m = Ok it'
    /\ consecutive_correct it' = 0
    /\ stage it' = demoted (stage it)
    /\ stage_value (stage it') =
         (if stage_value (stage it) >? stage_value NEW
          then stage_value (stage it) - 1 else stage_value NEW)
    /\ total_correct it' = total_correct it
    /\ total_attempts it' = total_attempts it + 1.
Proof.
  destruct (incorrect_answer it now m k) as (it' & Hr & Hs & Hc & Htc & Hta).
  exists it'. repeat split; auto.
  rewrite Hs. destruct (stage it); reflexivity.
Qed.

(** C5.  After every call of any run of answers on a fresh item (the
    first [n] answers of [answers], for every [n]) no call has raised, the
    stage lies between [NEW] and [MASTERED], and
    [total_correct <= total_attempts]. *)
Theorem srs_bounds (id : string) (answers : list answer) (n : nat) :
  exists it, record_answers F (new_item id) (take n answers) = Ok it
    /\ stage_value NEW <= stage_value (stage it) <= stage_value MASTERED
    /\ 0 <= total_correct it <= total_attempts it.
Proof.
  assert (Hinv : forall xs it0, 0 <= total_correct it0 <= total_attempts it0 ->
            exists it, record_answers F it0 xs = Ok it
              /\ 0 <= total_correct it <= total_attempts it).
  { induction xs as [|a rest IH]; intros it0 H0; simpl.
    - exists it0. auto.
    - destruct (ans_correct a) eqn:Ec.
      + destruct (record_answer_total it0 (ans_now a) (ans_interval_mult a)
                    true (ans_threshold a)) as (it1 & Hr & Hle); [lia|].
        assert (total_correct it1 = total_correct it0 + 1).
        { destruct (Z.lt_ge_cases (consecutive_correct it0 + 1) (ans_threshold a)).
          - destruct (correct_below_threshold it0 (ans_now a) (ans_interval_mult a)
                        (ans_threshold a)) as (x & Hx & _ & _ & Hc & _); [lia|]. congruence.
          - destruct (stage it0) eqn:E.
            1-3: destruct (correct_at_threshold it0 (ans_now a) (ans_interval_mult a)
                        (ans_threshold a)) as (x & Hx & _ & _ & Hc & _);
              [lia | congruence | congruence].
            destruct (correct_at_ceiling it0 (ans_now a) (ans_interval_mult a)
                        (ans_threshold a) E) as (x & Hx & _ & _ & Hc & _). congruence. }
        rewrite Hr. simpl. apply IH. lia.
      + destruct (incorrect_answer it0 (ans_now a) (ans_interval_mult a)
                    (ans_threshold a)) as (it1 & -> & _ & _ & Hc & Ha).
        simpl. apply IH. lia. }
  destruct (Hinv (take n answers) (new_item id)) as (it & Hr & Hb); [simpl; lia|].
  exists it. repeat split; auto; try lia; apply stage_value_bounds.
Qed.

(** C10.  From a mastered item every run of correct answers, under any
    thresholds, keeps the stage at [MASTERED] and adds one to
    [consecutive_correct] per answer: the streak is never reset and has
    no bound. *)
Theorem mastered_streak_grows (it : SRSItem) (answers : list answer) :
  stage it = MASTERED ->
  Forall (fun a => ans_correct a = true) answers ->
  exists it', record_answers F it answers = Ok it'
    /\ stage it' = MASTERED
    /\ consecutive_correct it' = consecutive_correct it + Z.of_nat (length answers).
Proof.
  intros Hst Hall. revert it Hst.
  induction Hall as [|a rest Hc _ IH]; intros it Hst.
  - exists it. simpl. repeat split; auto; lia.
  - simpl. rewrite Hc.
    destruct (correct_at_ceiling it (ans_now a) (ans_interval_mult a)
                (ans_threshold a) Hst) as (it1 & -> & Hs1 & Hc1 & _).
    simpl. destruct (IH it1 Hs1) as (it' & Hr & Hs & Hcc).
    exists it'. rewrite Hr, Hcc, Hc1. repeat split; auto; lia.
Qed.

End SRS.

(** The hypotheses of [srs_promotion] at threshold 3 and three answers. *)
Lemma srs_promotion_witness :
  let answers := Terms.correct_answer 3 :: Terms.correct_answer 3
                   :: Terms.correct_answer 3 :: [] in
  exists it,
    Progression.record_answers exact_arith (Progression.new_item "a") answers = Ok it
    /\ (Z.of_nat (length answers) < 3 ->
          Progression.stage it = Progression.NEW
          /\ Progression.consecutive_correct it = Z.of_nat (length answers))
    /\ (Z.of_nat (length answers) = 3 ->
          Progression.stage it = Progression.LEARNING
          /\ Progression.consecutive_correct it = 0)
    /\ (Z.of_nat (length answers) = 3 + 1 -> 2 <= 3 ->
          Progression.stage it = Progression.LEARNING
          /\ Progression.consecutive_correct it = 1)
    /\ (Z.of_nat (length answers) = 3 + 1 -> 3 = 1 ->
          Progression.stage it = Progression.REVIEW
          /\ Progression.consecutive_correct it = 0).
Proof.
  apply (srs_promotion exact_arith 3 "a"); [lia | repeat constructor].
Defined.

(** C3 as stated fails at threshold 1: the second correct answer does not
    leave a streak of 1 at [LEARNING]; it meets the threshold again, so the
    item ends at [REVIEW] with the streak at 0. *)
Lemma srs_promotion_threshold_one :
  let answers := Terms.correct_answer 1 :: Terms.correct_answer 1 :: [] in
  1 <= 1
  /\ Terms.all_correct_under 1 answers
  /\ Z.of_nat (length answers) = 1 + 1
  /\ exists it,
       Progression.record_answers exact_arith (Progression.new_item "a") answers = Ok it
       /\ Progression.stage it = Progression.REVIEW
       /\ Progression.consecutive_correct it = 0
       /\ ~ (Progression.stage it = Progression.LEARNING
             /\ Progression.consecutive_correct it = 1).
Proof.
  simpl. split; [lia|]. split; [repeat constructor|]. split; [reflexivity|].
  eexists. split; [vm_compute; reflexivity|]. simpl.
  split; [reflexivity|]. split; [reflexivity|]. intros [H _]. discriminate H.
Defined.

(** The hypotheses of [mastered_streak_grows] at a mastered item with a
    streak of 7 and two further correct answers under thresholds 5 and 3. *)
Lemma mastered_streak_grows_witness :
  let it := Progression.set_consecutive_correct 7
              (Progression.set_stage Progression.MASTERED (Progression.new_item "a")) in
  let answers := Terms.correct_answer 5 :: Terms.correct_answer 3 :: [] in
  exists it', Progression.record_answers exact_arith it answers = Ok it'
    /\ Progression.stage it' = Progression.MASTERED
    /\ Progression.consecutive_correct it'
       = Progression.consecutive_correct it + Z.of_nat (length answers).
Proof.
  apply (mastered_streak_grows exact_arith); [reflexivity | repeat constructor].
Defined.

(** ** The leveling curve *)

(** [List.find] over a range: the first index that passes the test. *)
Lemma find_seqZ_first (p : Z -> bool) (k : nat) : forall lo len n : Z,
  Z.to_nat (n - lo) = k ->
  lo <= n < lo + len ->
  (forall i, lo <= i < n -> p i = false) ->
  p n = true ->
  List.find p (seqZ lo len) = Some n.
Proof.
  induction k as [|k IH]; intros lo len n Hk Hn Hbelow Hp.
  - assert (n = lo) by lia. subst n.
    rewrite seqZ_cons by lia. simpl. rewrite Hp. reflexivity.
  - rewrite seqZ_cons by lia. simpl.
    rewrite (Hbelow lo) by lia.
    apply IH; [lia | lia | intros i Hi; apply Hbelow; lia | exact Hp].
Qed.

Lemma find_seqZ_none (p : Z -> bool) (lo len : Z) :
  (forall i, lo <= i < lo + len -> p i = false) ->
  List.find p (seqZ lo len) = None.
Proof.
  intros Hall. destruct (List.find p (seqZ lo len)) as [x|] eqn:E; [|reflexivity].
  apply find_some in E as [Hin Hp].
  apply list_elem_of_In, elem_of_seqZ in Hin.
  rewrite Hall in Hp by lia. discriminate.
Qed.

Section LevelCurve.
Import Progression Terms Config.
Variable F : float_model.
Hypothesis Hrnd : rounds_closely F.
Hypothesis Hpow : pow_closely F.

Local Abbreviation G := XP_GROWTH_FACTOR.
Local Abbreviation T := (xp_total F).
Local Abbreviation X := (xp_required_for_level F).

Lemma growth_power_bounds (m : nat) :
  (m <= 98)%nat -> (1 <= G ^ Z.of_nat m <= 1000000)%Q.
Proof.
  intros Hm. assert (HG : (1 <= G)%Q) by (unfold G, Qle; simpl; lia).
  split.
  - apply Qpower_1_le; [exact HG | lia].
  - apply Qle_trans with (G ^ 98)%Q.
    + apply Qpower_le_compat_l; [lia | exact HG].
    + apply Qle_bool_iff. vm_compute. reflexivity.
Qed.

Lemma growth_power_S (m : nat) :
  (G ^ Z.of_nat (S m) == G * G ^ Z.of_nat m)%Q.
Proof.
  rewrite Nat2Z.inj_succ, <- Z.add_1_l.
  rewrite Qpower_plus by (unfold G, Qeq; simpl; lia).
  reflexivity.
Qed.

Lemma xp_total_S (m : nat) :
  T (S m) = xp_accumulate F (T m) (2 + Z.of_nat m).
Proof.
  unfold xp_total. rewrite seqZ_S, fold_left_app. reflexivity.
Qed.

(** One pass of the loop adds at least 1 and keeps the total under
    [800 * GROWTH ^ m]. *)
Lemma xp_total_step (m : nat) :
  (m <= 98)%nat ->
  (0 <= T m <= 800 * G ^ Z.of_nat m)%Q ->
  (T m + 1 <= T (S m) <= 800 * G ^ Z.of_nat (S m))%Q.
Proof using Hrnd Hpow.
  intros Hm [Hlo Hhi].
  rewrite xp_total_S, growth_power_S. unfold xp_accumulate.
  replace (2 + Z.of_nat m - 2) with (Z.of_nat m) by lia.
  change (inject_Z BASE_XP_PER_LEVEL) with 100%Q.
  destruct (growth_power_bounds m Hm) as [HP1 HP2].
  destruct (Hpow (Z.of_nat m)) as [Hf1 Hf2]; [unfold MAX_PLAYER_LEVEL; lia|].
  revert Hlo Hhi HP1 HP2 Hf1 Hf2.
  generalize (G ^ Z.of_nat m)%Q (fpow F G (Z.of_nat m)) (T m).
  intros P f t Hlo Hhi HP1 HP2 Hf1 Hf2.
  unfold float_eps, G in *.
  destruct (Hrnd (100 * f)%Q) as [Ha1 Ha2]; [unfold float_eps; split; lra|].
  revert Ha1 Ha2. generalize (rnd F (100 * f)). intros a Ha1 Ha2.
  unfold float_eps in *.
  destruct (Hrnd (t + a)%Q) as [Hs1 Hs2]; [unfold float_eps; split; lra|].
  unfold float_eps in *. split; lra.
Qed.

Lemma xp_total_bounds (m : nat) :
  (m <= 99)%nat -> (0 <= T m <= 800 * G ^ Z.of_nat m)%Q.
Proof using Hrnd Hpow.
  induction m as [|m IH]; intros Hm.
  - unfold xp_total. simpl. split; lra.
  - destruct IH as [Hlo Hhi]; [lia|].
    destruct (xp_total_step m) as [H1 H2]; [lia | split; assumption |].
    split; [lra | exact H2].
Qed.

Lemma xp_total_increases (m : nat) :
  (m <= 98)%nat -> (T m + 1 <= T (S m))%Q.
Proof using Hrnd Hpow.
  intros Hm. apply xp_total_step; [exact Hm | apply xp_total_bounds; lia].
Qed.

(** Inside the valid range, [xp_required_for_level] is the ceiling of the
    loop's total. *)
Lemma xp_required_total (n : Z) :
  1 <= n <= MAX_PLAYER_LEVEL ->
  X n = Qceiling (T (Z.to_nat (n - 1))).
Proof.
  unfold MAX_PLAYER_LEVEL. intros Hn. unfold xp_required_for_level, MAX_PLAYER_LEVEL.
  replace (Z.max 1 (Z.min n 100)) with n by lia.
  destruct (Z.leb_spec n 1) as [Hle|Hgt].
  - replace n with 1 by lia. reflexivity.
  - unfold xp_total, range. f_equal. f_equal. f_equal. lia.
Qed.

(** Levels above the maximum are clamped to it. *)
Lemma xp_required_clamped (n : Z) :
  MAX_PLAYER_LEVEL <= n -> X n = X MAX_PLAYER_LEVEL.
Proof.
  unfold MAX_PLAYER_LEVEL. intros Hn. unfold xp_required_for_level, MAX_PLAYER_LEVEL.
  replace (Z.max 1 (Z.min n 100)) with 100 by lia. reflexivity.
Qed.

Lemma xp_required_next (n : Z) :
  1 <= n < MAX_PLAYER_LEVEL -> X n < X (n + 1).
Proof using Hrnd Hpow.
  unfold MAX_PLAYER_LEVEL. intros Hn.
  rewrite !xp_required_total by (unfold MAX_PLAYER_LEVEL; lia).
  replace (Z.to_nat (n + 1 - 1)) with (S (Z.to_nat (n - 1))) by lia.
  pose proof (xp_total_increases (Z.to_nat (n - 1)) ltac:(lia)) as Hinc.
  pose proof (Qceiling_lt (T (Z.to_nat (n - 1)))) as Hc.
  pose proof (Qle_ceiling (T (S (Z.to_nat (n - 1))))) as Hc'.
  revert Hinc Hc Hc'.
  generalize (T (Z.to_nat (n - 1))) (T (S (Z.to_nat (n - 1)))). intros t t'.
  generalize (Qceiling t) (Qceiling t'). intros c c' Hinc Hc Hc'.
  assert (Hlt : (inject_Z (c - 1) < inject_Z (c' - 1))%Q).
  { assert (E : (inject_Z (c' - 1) == inject_Z c' - 1)%Q).
    { unfold Z.sub. rewrite inject_Z_plus. reflexivity. }
    rewrite E. lra. }
  rewrite <- Zlt_Qlt in Hlt. lia.
Qed.

Lemma xp_required_strict (k : nat) : forall a : Z,
  1 <= a -> a + Z.of_nat (S k) <= MAX_PLAYER_LEVEL ->
  X a < X (a + Z.of_nat (S k)).
Proof using Hrnd Hpow.
  induction k as [|k IH]; intros a Ha Hb.
  - apply xp_required_next. lia.
  - apply Z.lt_trans with (X (a + Z.of_nat (S k))).
    + apply IH; lia.
    + replace (a + Z.of_nat (S (S k))) with (a + Z.of_nat (S k) + 1) by lia.
      apply xp_required_next. lia.
Qed.

Lemma xp_required_lt (a b : Z) :
  1 <= a -> a < b -> b <= MAX_PLAYER_LEVEL -> X a < X b.
Proof using Hrnd Hpow.
  intros Ha Hab Hb.
  replace b with (a + Z.of_nat (S (Z.to_nat (b - a - 1)))) by lia.
  apply xp_required_strict; lia.
Qed.

Lemma xp_required_le (a b : Z) :
  1 <= a -> a <= b -> b <= MAX_PLAYER_LEVEL -> X a <= X b.
Proof using Hrnd Hpow.
  intros Ha Hab Hb. destruct (Z.eq_dec a b) as [->|Hne]; [lia|].
  apply Z.lt_le_incl, xp_required_lt; lia.
Qed.

Lemma xp_required_one : X 1 = 0.
Proof. reflexivity. Qed.

(** C1.  Under any float arithmetic whose operations are within
    [float_eps] of the exact results (IEEE-754 doubles are), every level
    [n] of 1..100 is recovered from its own threshold, and for [n >= 2] one
    XP less gives level [n - 1] (constants 100, 1.15 and 100 as in
    [Config]). *)
Theorem level_inverse (n : Z) :
  1 <= n <= MAX_PLAYER_LEVEL ->
  level_from_xp F (xp_required_for_level F n) = n
  /\ (2 <= n -> level_from_xp F (xp_required_for_level F n - 1) = n - 1).
Proof using Hrnd Hpow.
  intros Hn. assert (H0 : 0 <= X n).
  { rewrite <- xp_required_one. apply xp_required_le; lia. }
  split.
  - unfold level_from_xp. rewrite Z.max_r by exact H0.
    unfold range. destruct (Z.eq_dec n MAX_PLAYER_LEVEL) as [E|E].
    + rewrite find_seqZ_none; [symmetry; exact E|].
      intros i Hi. rewrite Z.gtb_ltb. apply Z.ltb_ge.
      subst n. destruct (Z.eq_dec i MAX_PLAYER_LEVEL) as [->|Hne].
      * rewrite xp_required_clamped by lia. lia.
      * apply xp_required_le; unfold MAX_PLAYER_LEVEL in *; lia.
    + rewrite (find_seqZ_first _ (Z.to_nat (n - 1)) 1 _ n); auto.
      * unfold MAX_PLAYER_LEVEL in *. lia.
      * intros i Hi. rewrite Z.gtb_ltb. apply Z.ltb_ge.
        apply xp_required_le; lia.
      * rewrite Z.gtb_ltb. apply Z.ltb_lt. apply xp_required_next. lia.
  - intros H2. assert (H1 : 0 < X n).
    { rewrite <- xp_required_one. apply xp_required_lt; lia. }
    unfold level_from_xp. rewrite Z.max_r by lia. unfold range.
    rewrite (find_seqZ_first _ (Z.to_nat (n - 1 - 1)) 1 _ (n - 1)); auto.
    + unfold MAX_PLAYER_LEVEL in *. lia.
    + intros i Hi. rewrite Z.gtb_ltb. apply Z.ltb_ge.
      assert (X (i + 1) < X n) by (apply xp_required_lt; lia). lia.
    + rewrite Z.gtb_ltb. apply Z.ltb_lt.
      replace (n - 1 + 1) with n by lia. lia.
Qed.

End LevelCurve.

(** Exact arithmetic is within every tolerance. *)
Lemma exact_rounds_closely : Terms.rounds_closely exact_arith.
Proof. intros x Hx. unfold Terms.float_eps. simpl. split; lra. Qed.

Lemma exact_pow_closely : Terms.pow_closely exact_arith.
Proof.
  intros k Hk. simpl.
  assert (0 <= Config.XP_GROWTH_FACTOR ^ k)%Q
    by (apply Qpower_0_le; unfold Config.XP_GROWTH_FACTOR, Qle; simpl; lia).
  unfold Terms.float_eps. split; lra.
Qed.

(** The hypotheses of [level_inverse] in exact arithmetic, at level 7. *)
Lemma level_inverse_witness :
  Progression.level_from_xp exact_arith
    (Progression.xp_required_for_level exact_arith 7) = 7
  /\ (2 <= 7 ->
      Progression.level_from_xp exact_arith
        (Progression.xp_required_for_level exact_arith 7 - 1) = 7 - 1).
Proof.
  apply (level_inverse exact_arith exact_rounds_closely exact_pow_closely 7).
  unfold Config.MAX_PLAYER_LEVEL. lia.
Defined.

(** The first thresholds of the curve in exact arithmetic. *)
Example xp_required_first_levels :
  map (Progression.xp_required_for_level exact_arith) [0; 1; 2; 3; 4; 5]
  = [0; 0; 100; 215; 348; 500].
Proof. vm_compute. reflexivity. Qed.

(** ** Monument gating *)

Section Gating.
Import Json Config GameManager.

Lemma TOTAL_MONUMENTS_value : TOTAL_MONUMENTS = 13.
Proof. vm_compute. reflexivity. Qed.

Lemma unlock_chain_get_table (i : Z) :
  unlock_chain_get i = from_option unlock_requires None (MONUMENTS !! i).
Proof.
  unfold unlock_chain_get, _UNLOCK_CHAIN. rewrite lookup_fmap.
  destruct (MONUMENTS !! i); reflexivity.
Qed.

(** Every monument after the first names a prerequisite category. *)
Lemma prerequisite_defined (i : Z) :
  0 < i < TOTAL_MONUMENTS ->
  exists m required,
    MONUMENTS !! i = Some m /\ unlock_requires m = Some required.
Proof.
  rewrite TOTAL_MONUMENTS_value. intros Hi.
  assert (Hcases : i = 1 \/ i = 2 \/ i = 3 \/ i = 4 \/ i = 5 \/ i = 6 \/ i = 7
                   \/ i = 8 \/ i = 9 \/ i = 10 \/ i = 11 \/ i = 12) by lia.
  repeat (destruct Hcases as [-> | Hcases]); try subst i;
    (eexists; eexists; split; [vm_compute; reflexivity | reflexivity]).
Qed.

Lemma any_startswith_strings (prefix : string) (ids : list string) :
  any_startswith prefix (map JStr ids) = Ok (existsb (String.prefix prefix) ids).
Proof.
  induction ids as [|id ids IH]; simpl; [reflexivity|].
  destruct (String.prefix prefix id); simpl; [reflexivity | exact IH].
Qed.

Lemma is_monument_unlocked_loaded (i : Z) (save_data : dict) (ids : list string)
    (m : monument) (required : string) :
  0 < i < TOTAL_MONUMENTS ->
  MONUMENTS !! i = Some m ->
  unlock_requires m = Some required ->
  dict_get "completed_minigames" save_data = Some (JList (map JStr ids)) ->
  is_monument_unlocked (Some save_data) i
  = Ok (existsb (String.prefix (required +:+ "_")) ids).
Proof.
  intros Hi Hm Hreq Hget. unfold is_monument_unlocked.
  destruct (Z.ltb_spec i 0) as [?|_]; [lia|].
  destruct (Z.geb_spec i TOTAL_MONUMENTS) as [?|_]; [lia|].
  destruct (Z.eqb_spec i 0) as [?|_]; [lia|]. simpl.
  rewrite unlock_chain_get_table, Hm. simpl. rewrite Hreq, Hget. simpl.
  unfold _category_minigames_complete. simpl. apply any_startswith_strings.
Qed.

(** C6.  Monument 0 is unlocked whatever is loaded.  For [0 < i < 13] and a
    loaded record whose [completed_minigames] is a list of identifiers,
    monument [i] has a prerequisite category, and [is_monument_unlocked]
    returns [True] exactly when some identifier starts with
    ["<category>_"]: one such identifier suffices, none is counted.  With
    [completed_minigames = ["hiragana_minigame_1"]] monument 1 is unlocked
    and monument 2 is locked. *)
Theorem monument_unlock_gating :
  (forall _save_data, is_monument_unlocked _save_data 0 = Ok true)
  /\ (forall (i : Z) (save_data : dict) (ids : list string),
        0 < i < TOTAL_MONUMENTS ->
        dict_get "completed_minigames" save_data = Some (JList (map JStr ids)) ->
        exists m required,
          MONUMENTS !! i = Some m
          /\ unlock_requires m = Some required
          /\ exists b, is_monument_unlocked (Some save_data) i = Ok b
             /\ (b = true <->
                 exists id, In id ids /\ String.prefix (required +:+ "_") id = true))
  /\ (forall save_data : dict,
        dict_get "completed_minigames" save_data
          = Some (JList [JStr "hiragana_minigame_1"]) ->
        is_monument_unlocked (Some save_data) 1 = Ok true
        /\ is_monument_unlocked (Some save_data) 2 = Ok false).
Proof.
  split; [|split].
  - intros sd. reflexivity.
  - intros i sd ids Hi Hget.
    destruct (prerequisite_defined i Hi) as (m & required & Hm & Hreq).
    exists m, required. split; [exact Hm|]. split; [exact Hreq|].
    eexists. split; [apply (is_monument_unlocked_loaded i sd ids m required); auto|].
    rewrite existsb_exists. reflexivity.
  - intros sd Hget. split.
    + erewrite (is_monument_unlocked_loaded 1 sd ["hiragana_minigame_1"] _ "hiragana");
        [reflexivity | rewrite TOTAL_MONUMENTS_value; lia
        | vm_compute; reflexivity | reflexivity | exact Hget].
    + erewrite (is_monument_unlocked_loaded 2 sd ["hiragana_minigame_1"] _ "katakana");
        [reflexivity | rewrite TOTAL_MONUMENTS_value; lia
        | vm_compute; reflexivity | reflexivity | exact Hget].
Qed.

End Gating.

(** The hypotheses of the second part of [monument_unlock_gating] at
    monument 5 and a record that completed one [verbs] minigame. *)
Lemma monument_unlock_gating_witness :
  let save_data := [("completed_minigames", Json.JList (map Json.JStr ["verbs_minigame_2"]))] in
  exists m required,
    Config.MONUMENTS !! 5 = Some m
    /\ Config.unlock_requires m = Some required
    /\ exists b, GameManager.is_monument_unlocked (Some save_data) 5 = Ok b
       /\ (b = true <->
           exists id, In id ["verbs_minigame_2"]
                      /\ String.prefix (required +:+ "_") id = true).
Proof.
  apply (proj1 (proj2 monument_unlock_gating) 5);
    [rewrite TOTAL_MONUMENTS_value; lia | reflexivity].
Defined.

(** ** Monument completion *)

(** Rounding half to even is monotone. *)
Lemma round_half_even_mono (x y : Q) :
  (x <= y)%Q -> round_half_even x <= round_half_even y.
Proof.
  intros Hxy. unfold round_half_even.
  pose proof (Qfloor_resp_le x y Hxy) as Hf.
  pose proof (Qfloor_le x) as Hx1. pose proof (Qlt_floor x) as Hx2.
  pose proof (Qfloor_le y) as Hy1. pose proof (Qlt_floor y) as Hy2.
  destruct (Z.eq_dec (Qfloor x) (Qfloor y)) as [E|E].
  - rewrite <- E in *.
    destruct (Qcompare_spec (x - inject_Z (Qfloor x)) (1 # 2)) as [Hx|Hx|Hx];
    destruct (Qcompare_spec (y - inject_Z (Qfloor x)) (1 # 2)) as [Hy|Hy|Hy];
      try lia; try (destruct (Z.even (Qfloor x)); lia); exfalso; lra.
  - assert (Qfloor x + 1 <= Qfloor y) by lia.
    destruct (Qcompare (x - inject_Z (Qfloor x)) (1 # 2));
    destruct (Qcompare (y - inject_Z (Qfloor y)) (1 # 2));
      try destruct (Z.even (Qfloor x)); try destruct (Z.even (Qfloor y)); lia.
Qed.

Lemma round_tenths_mono (x y : Q) :
  (x <= y)%Q -> (round_tenths x <= round_tenths y)%Q.
Proof.
  intros Hxy. unfold round_tenths.
  assert (H : (inject_Z (round_half_even (x * 10))
               <= inject_Z (round_half_even (y * 10)))%Q).
  { rewrite <- Zle_Qle. apply round_half_even_mono. lra. }
  apply Qmult_le_compat_r; [exact H|]. unfold Qle; simpl; lia.
Qed.

Section CompletionCap.
Import Json Config Progression Terms.
Variable F : float_model.
Hypothesis Hrnd : rounds_monotonically F.
Hypothesis Hround : round1_monotone F.
Hypothesis Htop : (full_marks_without_mastery F <= 60)%Q.

Lemma rnd_mono (x y : Q) : (x <= y)%Q -> (rnd F x <= rnd F y)%Q.
Proof using Hrnd. apply Hrnd. Qed.

Lemma rnd_of_zero (x : Q) : (x == 0)%Q -> (rnd F x == 0)%Q.
Proof using Hrnd.
  intros Hx. destruct Hrnd as [Hmono H0]. apply Qle_antisym.
  - rewrite <- H0. apply Hmono. lra.
  - rewrite <- H0 at 1. apply Hmono. lra.
Qed.

Lemma rnd_nonneg (x : Q) : (0 <= x)%Q -> (0 <= rnd F x)%Q.
Proof using Hrnd.
  intros Hx. destruct Hrnd as [Hmono H0]. rewrite <- H0. apply Hmono, Hx.
Qed.

Lemma fraction_done_le_1 (count expected : Z) :
  (fraction_done F count expected <= 1)%Q.
Proof.
  unfold fraction_done, py_min. destruct (expected =? 0); [lra|].
  destruct (Qlt_le_dec _ 1); lra.
Qed.

Lemma fraction_done_zero (expected : Z) :
  (fraction_done F 0 expected == 0)%Q.
Proof using Hrnd.
  unfold fraction_done, py_min. destruct (expected =? 0); [reflexivity|].
  assert (Hz : (rnd F (inject_Z 0 / inject_Z expected) == 0)%Q).
  { apply rnd_of_zero. unfold Qdiv. simpl. apply Qmult_0_l. }
  destruct (Qlt_le_dec _ 1); [exact Hz | lra].
Qed.

(** The weighted score is largest at full lessons and minigames. *)
Lemma weighted_score_le (l m s : Q) :
  (l <= 1)%Q -> (m <= 1)%Q -> (s == 0)%Q ->
  (weighted_score F l m s <= weighted_score F 1 1 0)%Q.
Proof using Hrnd.
  intros Hl Hm Hs. unfold weighted_score.
  assert (H30 : (0 <= rnd F (30 # 100))%Q) by (apply rnd_nonneg; lra).
  assert (Hl' : (rnd F (l * rnd F (30 # 100)) <= rnd F (1 * rnd F (30 # 100)))%Q).
  { apply rnd_mono. apply Qmult_le_compat_r; assumption. }
  assert (Hm' : (rnd F (m * rnd F (30 # 100)) <= rnd F (1 * rnd F (30 # 100)))%Q).
  { apply rnd_mono. apply Qmult_le_compat_r; assumption. }
  assert (Hs' : (rnd F (s * rnd F (40 # 100)) <= rnd F (0 * rnd F (40 # 100)))%Q).
  { apply rnd_mono. rewrite Hs. lra. }
  apply rnd_mono. apply Qplus_le_compat; [|exact Hs'].
  apply rnd_mono. apply Qplus_le_compat; assumption.
Qed.

(** Outside the kana and kanji categories no character is counted. *)
Lemma mastered_count_elsewhere (self_data : dict) (category : string) :
  category <> "hiragana" -> category <> "katakana" ->
  String.prefix "kanji" category = false ->
  mastered_count_for self_data category = Ok 0.
Proof.
  intros Hh Hk Hp. unfold mastered_count_for.
  apply String.eqb_neq in Hh, Hk. rewrite Hh, Hk, Hp. reflexivity.
Qed.

Lemma count_startswith_strings (prefix : string) (ids : list string) :
  exists n, count_startswith prefix (map JStr ids) = Ok n.
Proof.
  induction ids as [|id ids [n IH]]; simpl; [eauto|].
  rewrite IH. simpl. eauto.
Qed.

Lemma count_completed_strings (self_data : dict) (key prefix : string) :
  string_list_field self_data key ->
  exists n, count_completed self_data key prefix = Ok n.
Proof.
  unfold count_completed. intros [-> | [ids ->]]; simpl.
  - eauto.
  - apply count_startswith_strings.
Qed.

(** C8.  For a monument whose category is neither [hiragana] nor
    [katakana] and does not start with [kanji], and any save record: the
    mastery fraction is 0 and so is its weighted term; whenever
    [monument_completion_percentage] returns, the percentage is at most
    60; and it does return when the two completion fields are absent or
    lists of strings.  The float arithmetic may be any monotone rounding
    that keeps zero and evaluates the full-marks score to at most 60.0. *)
Theorem non_character_completion_cap (self_data : dict) (monument_id : Z)
    (m : monument) :
  MONUMENTS !! monument_id = Some m ->
  category m <> "hiragana" ->
  category m <> "katakana" ->
  String.prefix "kanji" (category m) = false ->
  (exists mastery_pct,
      mastery_pct_for F self_data (category m) = Ok mastery_pct
      /\ (mastery_pct == 0)%Q
      /\ (rnd F (mastery_pct * rnd F (40 # 100)) == 0)%Q)
  /\ (forall v, monument_completion_percentage F self_data monument_id = Ok v ->
        (v <= 60)%Q)
  /\ (string_list_field self_data "completed_lessons" ->
      string_list_field self_data "completed_minigames" ->
      exists v, monument_completion_percentage F self_data monument_id = Ok v).
Proof using Hrnd Hround Htop.
  intros Hm Hh Hk Hp.
  assert (Hpct : mastery_pct_for F self_data (category m)
                 = Ok (fraction_done F 0 (_expected_mastery_count (category m)))).
  { unfold mastery_pct_for. rewrite mastered_count_elsewhere by assumption.
    reflexivity. }
  pose proof (fraction_done_zero (_expected_mastery_count (category m))) as Hz.
  split; [|split].
  - eexists. split; [exact Hpct|]. split; [exact Hz|].
    apply rnd_of_zero. rewrite Hz. lra.
  - intros v. unfold monument_completion_percentage. rewrite Hm.
    destruct (count_completed self_data "completed_lessons" _) as [lc|e];
      [|discriminate].
    destruct (count_completed self_data "completed_minigames" _) as [mc|e];
      [|discriminate].
    cbn [bind]. rewrite Hpct. cbn [bind]. intros Hv. injection Hv as <-.
    eapply Qle_trans; [|exact Htop]. unfold full_marks_without_mastery.
    apply Hround, rnd_mono. apply Qmult_le_compat_r; [|lra].
    apply weighted_score_le; [apply fraction_done_le_1 .. | exact Hz].
  - intros Hl Hg. unfold monument_completion_percentage. rewrite Hm.
    destruct (count_completed_strings self_data "completed_lessons"
                (category m +:+ "_") Hl) as [lc ->].
    destruct (count_completed_strings self_data "completed_minigames"
                (category m +:+ "_") Hg) as [mc ->].
    cbn [bind]. rewrite Hpct. cbn [bind]. eauto.
Qed.

End CompletionCap.

Lemma exact_rounds_monotonically : Terms.rounds_monotonically exact_arith.
Proof. split; simpl; [auto | reflexivity]. Qed.

Lemma exact_round1_monotone : Terms.round1_monotone exact_arith.
Proof. intros x y. simpl. apply round_tenths_mono. Qed.

Lemma exact_full_marks : (Terms.full_marks_without_mastery exact_arith <= 60)%Q.
Proof. apply Qle_bool_iff. vm_compute. reflexivity. Qed.

(** The hypotheses of [non_character_completion_cap] in exact arithmetic,
    at the Grammar Garden (monument 2) and an empty record. *)
Lemma non_character_completion_cap_witness :
  let m := {| Config.name := "Grammar Garden"; Config.category := "grammar_basic";
              Config.unlock_requires := Some "katakana" |} in
  (exists mastery_pct,
      Progression.mastery_pct_for exact_arith [] (Config.category m) = Ok mastery_pct
      /\ (mastery_pct == 0)%Q
      /\ (rnd exact_arith (mastery_pct * rnd exact_arith (40 # 100)) == 0)%Q)
  /\ (forall v, Progression.monument_completion_percentage exact_arith [] 2 = Ok v ->
        (v <= 60)%Q)
  /\ (Terms.string_list_field [] "completed_lessons" ->
      Terms.string_list_field [] "completed_minigames" ->
      exists v, Progression.monument_completion_percentage exact_arith [] 2 = Ok v).
Proof.
  apply (non_character_completion_cap exact_arith exact_rounds_monotonically
           exact_round1_monotone exact_full_marks [] 2);
    [vm_compute; reflexivity | discriminate | discriminate | reflexivity].
Defined.

(** A record with five lessons and three minigames of the Verb Dojo done
    reaches the cap. *)
Example verbs_all_done :
  let ids k := Json.JList (map Json.JStr k) in
  Progression.monument_completion_percentage exact_arith
    [("completed_lessons",
        ids ["verbs_lesson_1"; "verbs_lesson_2"; "verbs_lesson_3";
             "verbs_lesson_4"; "verbs_lesson_5"]);
     ("completed_minigames",
        ids ["verbs_minigame_1"; "verbs_minigame_2"; "verbs_minigame_3"])] 4
  = Ok (600 # 10).
Proof. vm_compute. reflexivity. Qed.

(** ** Save files *)

Section DictLemmas.
Import Json.

Lemma dict_get_set_eq (key : string) (v : json) (d : dict) :
  dict_get key (dict_set key v d) = Some v.
Proof.
  induction d as [|[k w] d IH]; simpl.
  - rewrite String.eqb_refl. reflexivity.
  - destruct (String.eqb k key) eqn:E; simpl; rewrite E; auto.
Qed.

Lemma dict_get_set_ne (key key' : string) (v : json) (d : dict) :
  key <> key' -> dict_get key' (dict_set key v d) = dict_get key' d.
Proof.
  intros Hne. induction d as [|[k w] d IH]; simpl.
  - apply String.eqb_neq in Hne. rewrite Hne. reflexivity.
  - destruct (String.eqb k key) eqn:E; simpl.
    + apply String.eqb_eq in E. subst k.
      apply String.eqb_neq in Hne. rewrite Hne. reflexivity.
    + rewrite IH. reflexivity.
Qed.

Lemma dict_mem_get (key : string) (d : dict) :
  dict_mem key d = true <-> dict_get key d <> None.
Proof.
  induction d as [|[k w] d IH]; simpl; [split; congruence|].
  destruct (String.eqb k key); [split; congruence | exact IH].
Qed.

Lemma dict_mem_set (key : string) (v : json) (d : dict) :
  dict_mem key (dict_set key v d) = true.
Proof. apply dict_mem_get. rewrite dict_get_set_eq. discriminate. Qed.

Lemma dict_mem_set_keep (key key' : string) (v : json) (d : dict) :
  dict_mem key' d = true -> dict_mem key' (dict_set key v d) = true.
Proof.
  intros H. destruct (String.eq_dec key key') as [->|Hne].
  - apply dict_mem_set.
  - apply dict_mem_get. rewrite dict_get_set_ne by exact Hne.
    apply dict_mem_get, H.
Qed.

End DictLemmas.

Section Validation.
Import Json Config SaveSystem Terms.

Lemma fill_default_keep (key : string) (kv : string * json) (d : dict) :
  dict_mem key d = true -> dict_mem key (fill_default d kv) = true.
Proof.
  intros H. unfold fill_default. destruct (dict_mem (fst kv) d); [exact H|].
  apply dict_mem_set_keep, H.
Qed.

Lemma fill_defaults_keep (key : string) (template d : dict) :
  dict_mem key d = true -> dict_mem key (fold_left fill_default template d) = true.
Proof.
  revert d. induction template as [|kv t IH]; intros d H; simpl; [exact H|].
  apply IH, fill_default_keep, H.
Qed.

Lemma fill_defaults_fills (key : string) (template d : dict) :
  In key (map fst template) ->
  dict_mem key (fold_left fill_default template d) = true.
Proof.
  revert d. induction template as [|kv t IH]; intros d Hin; simpl in *; [tauto|].
  destruct Hin as [<-|Hin]; [|apply IH, Hin].
  apply fill_defaults_keep. unfold fill_default.
  destruct (dict_mem (fst kv) d) eqn:E; [exact E | apply dict_mem_set].
Qed.

Lemma fill_defaults_hold (key : string) (v : json) (template d : dict) :
  dict_get key d = Some v ->
  dict_get key (fold_left fill_default template d) = Some v.
Proof.
  revert d. induction template as [|[k w] t IH]; intros d H; simpl; [exact H|].
  apply IH. unfold fill_default. simpl.
  destruct (dict_mem k d) eqn:E; [exact H|].
  rewrite dict_get_set_ne; [exact H|].
  intros ->. apply Bool.not_true_iff_false in E. apply E, dict_mem_get. congruence.
Qed.

(** A field the document lacks gets the template's value. *)
Lemma fill_defaults_get (key : string) (template d : dict) :
  In key (map fst template) ->
  dict_mem key d = false ->
  dict_get key (fold_left fill_default template d) = dict_get key template.
Proof.
  revert d. induction template as [|[k w] t IH]; intros d Hin Hd; simpl in *; [tauto|].
  unfold fill_default at 2. simpl. destruct (String.eqb k key) eqn:E.
  - apply String.eqb_eq in E. subst k. rewrite Hd.
    apply fill_defaults_hold, dict_get_set_eq.
  - apply String.eqb_neq in E. destruct Hin as [Hk|Hin]; [congruence|].
    apply IH; [exact Hin|]. destruct (dict_mem k d); [exact Hd|].
    apply Bool.not_true_iff_false. intros Hm. apply dict_mem_get in Hm.
    rewrite dict_get_set_ne in Hm by exact E.
    apply dict_mem_get in Hm. congruence.
Qed.

(** Each later block keeps a field that is there, and keeps its value when
    the value has the type the block asks for. *)
Lemma ensure_scripts_keep (key : string) (d : dict) :
  dict_mem key d = true -> dict_mem key (ensure_scripts d) = true.
Proof.
  intros H. unfold ensure_scripts.
  destruct (dict_get "mastered_characters" d) as [[]|]; auto using dict_mem_set_keep.
Qed.

Lemma ensure_scripts_get (key : string) (v : json) (d : dict) :
  dict_get key d = Some v ->
  (key = "mastered_characters" -> v = default_mastered_characters) ->
  dict_get key (ensure_scripts d) = Some v.
Proof.
  intros H Hv. unfold ensure_scripts.
  destruct (String.eq_dec key "mastered_characters") as [->|Hne].
  - rewrite H, (Hv eq_refl). simpl. apply dict_get_set_eq.
  - destruct (dict_get "mastered_characters" d) as [[]|];
      rewrite dict_get_set_ne by congruence; exact H.
Qed.

Lemma coerce_lists_keep (key : string) (keys : list string) (d : dict) :
  dict_mem key d = true -> dict_mem key (fold_left coerce_list keys d) = true.
Proof.
  revert d. induction keys as [|k ks IH]; intros d H; simpl; [exact H|].
  apply IH. unfold coerce_list.
  destruct (dict_get k d) as [[]|]; auto using dict_mem_set_keep.
Qed.

Lemma coerce_lists_get (key : string) (v : json) (keys : list string) (d : dict) :
  dict_get key d = Some v ->
  (In key keys -> is_list v = true) ->
  dict_get key (fold_left coerce_list keys d) = Some v.
Proof.
  revert d. induction keys as [|k ks IH]; intros d H Hv; simpl; [exact H|].
  apply IH; [|intros Hin; apply Hv; right; exact Hin].
  unfold coerce_list. destruct (String.eq_dec k key) as [->|Hne].
  - rewrite H. destruct v; try exact H;
      (assert (Hl : is_list _ = true) by (apply Hv; left; reflexivity);
       discriminate Hl).
  - destruct (dict_get k d) as [[]|]; rewrite ?dict_get_set_ne by exact Hne; exact H.
Qed.

Lemma coerce_play_time_keep (key : string) (d : dict) :
  dict_mem key d = true -> dict_mem key (coerce_play_time d) = true.
Proof.
  intros H. unfold coerce_play_time.
  destruct (from_option _ _ _); auto using dict_mem_set_keep.
Qed.

Lemma coerce_play_time_get (key : string) (v : json) (d : dict) :
  dict_get key d = Some v ->
  (key = "total_play_time" -> is_number v = true) ->
  dict_get key (coerce_play_time d) = Some v.
Proof.
  intros H Hv. unfold coerce_play_time.
  destruct (String.eq_dec key "total_play_time") as [->|Hne].
  - rewrite H. simpl. rewrite (Hv eq_refl). exact H.
  - destruct (from_option _ _ _); rewrite ?dict_get_set_ne by congruence; exact H.
Qed.

Lemma coerce_monument_keep (key : string) (d : dict) :
  dict_mem key d = true -> dict_mem key (coerce_monument d) = true.
Proof.
  intros H. unfold coerce_monument.
  destruct (from_option _ _ _); auto using dict_mem_set_keep.
Qed.

Lemma coerce_monument_get (key : string) (v : json) (d : dict) :
  dict_get key d = Some v ->
  (key = "current_monument" -> is_int v = true) ->
  dict_get key (coerce_monument d) = Some v.
Proof.
  intros H Hv. unfold coerce_monument.
  destruct (String.eq_dec key "current_monument") as [->|Hne].
  - rewrite H. simpl. rewrite (Hv eq_refl). exact H.
  - destruct (from_option _ _ _); rewrite ?dict_get_set_ne by congruence; exact H.
Qed.

(** After validation every field of the template is there. *)
Lemma validated_has_template_fields (data : dict) (slot : Z) (key : string) :
  In key template_fields -> dict_mem key (_validate_save_data data slot) = true.
Proof.
  intros Hin. unfold _validate_save_data.
  apply dict_mem_set_keep, coerce_monument_keep, coerce_play_time_keep,
    coerce_lists_keep, ensure_scripts_keep, fill_defaults_fills.
  exact Hin.
Qed.

(** A field that the document lacks holds the template's default after
    validation. *)
Lemma validated_default (data : dict) (slot : Z) (key : string) :
  In key template_fields ->
  dict_mem key data = false ->
  dict_get key (_validate_save_data data slot)
  = dict_get key (_default_save_data slot).
Proof.
  intros Hin Hno. unfold _validate_save_data.
  pose proof (fill_defaults_get key (_default_save_data slot) data Hin Hno) as Hfill.
  revert Hfill. generalize (fold_left fill_default (_default_save_data slot) data).
  intros filled Hfill.
  destruct (String.eq_dec key "slot") as [->|Hslot]; [apply dict_get_set_eq|].
  rewrite dict_get_set_ne by congruence.
  assert (Hgoal : forall v, dict_get key filled = Some v ->
            (key = "mastered_characters" -> v = default_mastered_characters) ->
            (In key ["completed_lessons"; "completed_minigames";
                     "vocabulary_learned"; "grammar_learned"] -> is_list v = true) ->
            (key = "total_play_time" -> is_number v = true) ->
            (key = "current_monument" -> is_int v = true) ->
            dict_get key
              (coerce_monument (coerce_play_time
                 (fold_left coerce_list
                    ["completed_lessons"; "completed_minigames";
                     "vocabulary_learned"; "grammar_learned"]
                    (ensure_scripts filled)))) = Some v).
  { intros v Hv H1 H2 H3 H4.
    apply coerce_monument_get; [|exact H4].
    apply coerce_play_time_get; [|exact H3].
    apply coerce_lists_get; [|exact H2].
    apply ensure_scripts_get; [exact Hv | exact H1]. }
  simpl in Hin.
  repeat (destruct Hin as [<-|Hin];
    [first [congruence
           | simpl in Hfill |- *; apply Hgoal;
             [exact Hfill | simpl; intros; try reflexivity; intuition discriminate ..]]
    |]).
  destruct Hin.
Qed.

Lemma stamped_keeps (e : env) (slot : Z) (data : dict) (key : string) :
  dict_mem key data = true -> dict_mem key (stamped e slot data) = true.
Proof. intros H. unfold stamped. auto using dict_mem_set_keep. Qed.

End Validation.

Lemma string_length_app (s1 s2 : string) :
  String.length (s1 +:+ s2) = (String.length s1 + String.length s2)%nat.
Proof. induction s1 as [|c s1 IH]; simpl; [reflexivity | rewrite IH; reflexivity]. Qed.

Section Store.
Import Json Config SaveSystem Terms.
Variable SAVE_DIR : string.

Local Abbreviation filepath := (_slot_filepath SAVE_DIR).
Local Abbreviation backup := (_backup_filepath SAVE_DIR).

Lemma tmp_path_fresh (p : string) : p +:+ ".tmp" <> p.
Proof.
  intros E. apply (f_equal String.length) in E.
  rewrite string_length_app in E. simpl in E. lia.
Qed.

Lemma backup_not_primary (slot : Z) : backup slot <> filepath slot.
Proof.
  unfold _backup_filepath, _slot_filepath, path_join, _slot_filename.
  intros E. repeat apply String.app_inj in E. discriminate E.
Qed.

Lemma valid_slot (slot : Z) :
  1 <= slot <= MAX_SAVE_SLOTS -> _validate_slot slot = Ok tt.
Proof.
  intros H. unfold _validate_slot.
  destruct (Z.ltb_spec slot 1); [lia|].
  destruct (Z.gtb_spec slot MAX_SAVE_SLOTS); [lia|]. reflexivity.
Qed.

Lemma prefix_of_app (p s : string) : String.prefix p (p +:+ s) = true.
Proof.
  induction p as [|c p IH]; [destruct s; reflexivity|].
  change (String c p +:+ s) with (String c (p +:+ s)). cbn [String.prefix].
  destruct (Ascii.ascii_dec c c); [exact IH | congruence].
Qed.

Lemma string_app_empty (p : string) : p +:+ "" = p.
Proof.
  induction p as [|c p IH]; [reflexivity|].
  change (String c p +:+ "") with (String c (p +:+ "")). rewrite IH. reflexivity.
Qed.

Lemma joined_in_save_dir (name : string) :
  in_save_dir SAVE_DIR (path_join SAVE_DIR name) = true.
Proof.
  unfold in_save_dir, path_join. rewrite string_app_empty. apply prefix_of_app.
Qed.

(** Where the directory holds a file there is nothing to create. *)
Lemma directory_of_file (e : env) (fs : gmap string file) (path : string) (f : file) :
  fs !! path = Some f -> in_save_dir SAVE_DIR path = true ->
  _ensure_save_directory SAVE_DIR e fs = Ok tt.
Proof.
  intros Hf Hin. unfold _ensure_save_directory.
  assert (Hex : existsb (in_save_dir SAVE_DIR) (map fst (map_to_list fs)) = true).
  { apply existsb_exists. exists path. split; [|exact Hin].
    apply in_map_iff. exists (path, f). split; [reflexivity|].
    apply list_elem_of_In, elem_of_map_to_list, Hf. }
  rewrite Hex. reflexivity.
Qed.

Lemma directory_of_primary (e : env) (fs : gmap string file) (slot : Z) (f : file) :
  fs !! filepath slot = Some f -> _ensure_save_directory SAVE_DIR e fs = Ok tt.
Proof. intros H. apply (directory_of_file e fs _ f H), joined_in_save_dir. Qed.

Lemma directory_of_backup (e : env) (fs : gmap string file) (slot : Z) (f : file) :
  fs !! backup slot = Some f -> _ensure_save_directory SAVE_DIR e fs = Ok tt.
Proof. intros H. apply (directory_of_file e fs _ f H), joined_in_save_dir. Qed.

(** The directory step ends in one of two ways. *)
Lemma ensure_cases (e : env) (fs : gmap string file) :
  _ensure_save_directory SAVE_DIR e fs = Ok tt
  \/ _ensure_save_directory SAVE_DIR e fs = Raise OSError.
Proof. unfold _ensure_save_directory. destruct (_ || _); auto. Qed.

(** The [try] block ends with [RecursionError] when [json.dump] is reached
    and overflows, and otherwise succeeds exactly when its three steps do;
    it replaces the primary on success and leaves it alone otherwise. *)
Lemma write_and_replace_primary (e : env) (fs : gmap string file)
    (path : string) (data : dict) :
  let r := write_and_replace e fs (path +:+ ".tmp") path data in
  r.2 = (if dump_escapes e then Raise RecursionError else Ok (writes_succeed e))
  /\ r.1 !! path
     = (if negb (dump_escapes e) && writes_succeed e
        then Some (Parsed (JDict data)) else fs !! path).
Proof.
  pose proof (tmp_path_fresh path) as Hne.
  unfold write_and_replace, writes_succeed, dump_escapes.
  destruct (open_ok e), (dump_overflows e), (dump_ok e), (replace_ok e); simpl;
    split; try reflexivity;
    rewrite ?lookup_insert_eq, ?lookup_insert_ne by exact Hne; reflexivity.
Qed.

(** One call in one formula: after the slot check and the directory step,
    the record is stamped, the primary is copied to the backup, the [try]
    block runs, and the clean-up follows a caught failure only. *)
Lemma save_game_run_files (e : env) (fs : gmap string file) (slot : Z) (data : dict) :
  1 <= slot <= MAX_SAVE_SLOTS ->
  _ensure_save_directory SAVE_DIR e fs = Ok tt ->
  let copied :=
    match fs !! filepath slot with
    | Some f => if copy_ok e then <[backup slot := f]> fs else fs
    | None => fs
    end in
  let w := write_and_replace e copied (filepath slot +:+ ".tmp") (filepath slot)
             (stamped e slot data) in
  let fs' :=
    match w.2 with
    | Ok false =>
        match w.1 !! (filepath slot +:+ ".tmp") with
        | Some _ => if remove_ok e then delete (filepath slot +:+ ".tmp") w.1 else w.1
        | None => w.1
        end
    | _ => w.1
    end in
  save_game_run SAVE_DIR e fs slot data = (w.2, stamped e slot data, fs').
Proof.
  intros Hslot Hdir. cbn zeta. unfold save_game_run.
  rewrite (valid_slot slot Hslot), Hdir. fold (stamped e slot data).
  destruct (write_and_replace e _ (filepath slot +:+ ".tmp") (filepath slot)
              (stamped e slot data)) as [fs2 [[|]|ex]]; reflexivity.
Qed.

(** A call that returns has passed the directory step and has not
    overflowed. *)
Lemma save_game_returned (e : env) (fs fs' : gmap string file) (slot : Z)
    (data data' : dict) (ok : bool) :
  1 <= slot <= MAX_SAVE_SLOTS ->
  save_game SAVE_DIR e fs slot data = Ok (ok, data', fs') ->
  _ensure_save_directory SAVE_DIR e fs = Ok tt /\ dump_escapes e = false.
Proof.
  intros Hslot. unfold save_game.
  destruct (ensure_cases e fs) as [Hdir|Hdir].
  - rewrite (save_game_run_files e fs slot data Hslot Hdir). cbn zeta.
    destruct (write_and_replace_primary e
                (match fs !! filepath slot with
                 | Some f => if copy_ok e then <[backup slot := f]> fs else fs
                 | None => fs
                 end) (filepath slot) (stamped e slot data)) as [Hok _].
    cbn zeta in Hok. rewrite Hok.
    destruct (dump_escapes e); [discriminate | auto].
  - unfold save_game_run. rewrite (valid_slot slot Hslot), Hdir. discriminate.
Qed.

(** [save_game] on a valid slot, once the directory is there and unless
    [json.dump] overflows: it returns whether the write went through, the
    record is stamped either way, and the primary holds the stamped
    record after a successful write and is untouched after a failed
    one. *)
Lemma save_game_outcome (e : env) (fs : gmap string file) (slot : Z) (data : dict) :
  1 <= slot <= MAX_SAVE_SLOTS ->
  _ensure_save_directory SAVE_DIR e fs = Ok tt ->
  dump_escapes e = false ->
  exists fs', save_game SAVE_DIR e fs slot data
              = Ok (writes_succeed e, stamped e slot data, fs')
    /\ fs' !! filepath slot
       = (if writes_succeed e then Some (Parsed (JDict (stamped e slot data)))
          else fs !! filepath slot).
Proof.
  intros Hslot Hdir Hesc. unfold save_game.
  rewrite (save_game_run_files e fs slot data Hslot Hdir). cbn zeta.
  set (fs1 := match fs !! filepath slot with
              | Some f => if copy_ok e then <[backup slot := f]> fs else fs
              | None => fs
              end).
  assert (Hfs1 : fs1 !! filepath slot = fs !! filepath slot).
  { subst fs1. destruct (fs !! filepath slot) eqn:E; [|exact E].
    destruct (copy_ok e); [|exact E].
    rewrite lookup_insert_ne by apply backup_not_primary. exact E. }
  destruct (write_and_replace_primary e fs1 (filepath slot) (stamped e slot data))
    as [Hok Hlook].
  destruct (write_and_replace e fs1 (filepath slot +:+ ".tmp") (filepath slot)
              (stamped e slot data)) as [fs2 outcome].
  simpl in Hok, Hlook. rewrite Hesc in Hok, Hlook. simpl in Hlook. subst outcome.
  cbn [fst snd]. destruct (writes_succeed e).
  - exists fs2. split; [reflexivity | exact Hlook].
  - eexists. split; [reflexivity|].
    destruct (fs2 !! (filepath slot +:+ ".tmp")); [|congruence].
    destruct (remove_ok e); [|congruence].
    rewrite lookup_delete_ne by apply tmp_path_fresh. congruence.
Qed.

(** The re-save inside [load_game] differs from a save in one answer. *)
Lemma resaving_escapes (e : env) : dump_escapes (resaving e) = false.
Proof. unfold dump_escapes. cbn [resaving open_ok dump_overflows]. apply Bool.andb_false_r. Qed.

Lemma resaving_outcome (e : env) (fs : gmap string file) (slot : Z) (data : dict) :
  1 <= slot <= MAX_SAVE_SLOTS ->
  _ensure_save_directory SAVE_DIR e fs = Ok tt ->
  exists fs', save_game SAVE_DIR (resaving e) fs slot data
              = Ok (writes_succeed e, stamped e slot data, fs')
    /\ fs' !! filepath slot
       = (if writes_succeed e then Some (Parsed (JDict (stamped e slot data)))
          else fs !! filepath slot).
Proof.
  intros Hslot Hdir.
  exact (save_game_outcome (resaving e) fs slot data Hslot Hdir (resaving_escapes e)).
Qed.

Lemma load_from_rejected (e : env) (fs : gmap string file) (slot : Z)
    (path label : string) (f : file) :
  fs !! path = Some f -> rejected f ->
  load_from SAVE_DIR e fs slot path label = Ok (None, fs).
Proof.
  intros Hf [->|(doc & -> & Hd)]; unfold load_from; rewrite Hf; [reflexivity|].
  destruct doc; try reflexivity. discriminate Hd.
Qed.

(** Whatever happens to the files, the record [save_game] hands back is
    the stamped one. *)
Lemma save_game_record (e : env) (fs fs' : gmap string file) (slot : Z)
    (data data' : dict) (ok : bool) :
  save_game SAVE_DIR e fs slot data = Ok (ok, data', fs') ->
  data' = stamped e slot data.
Proof.
  unfold save_game, save_game_run, stamped.
  destruct (_validate_slot slot); [|discriminate].
  destruct (_ensure_save_directory SAVE_DIR e fs); [|discriminate].
  match goal with
  | |- context [write_and_replace ?a ?b ?c ?p ?x] =>
      destruct (write_and_replace a b c p x) as [fs2 [[|]|ex]]
  end; congruence.
Qed.

(** The re-save of a pass over the backup: what the pass returns is the
    stamped record, and a pass that continues has left the files alone. *)
Lemma resave_returns (e : env) (fs fs' : gmap string file) (slot : Z)
    (data record : dict) :
  match save_game SAVE_DIR (resaving e) fs slot data with
  | Ok (_, data', fs2) => Ok (Some data', fs2)
  | Raise ex => if caught_by_load ex then Ok (None, fs) else Raise ex
  end = Ok (Some record, fs') ->
  record = stamped e slot data.
Proof.
  destruct (save_game SAVE_DIR (resaving e) fs slot data) as [[[ok data'] fs2]|ex]
    eqn:Hsave.
  - apply save_game_record in Hsave. intros H. injection H as <- _. exact Hsave.
  - destruct (caught_by_load ex); discriminate.
Qed.

Lemma resave_continues (e : env) (fs fs' : gmap string file) (slot : Z) (data : dict) :
  match save_game SAVE_DIR (resaving e) fs slot data with
  | Ok (_, data', fs2) => Ok (Some data', fs2)
  | Raise ex => if caught_by_load ex then Ok (None, fs) else Raise ex
  end = Ok (None, fs') ->
  fs' = fs.
Proof.
  destruct (save_game SAVE_DIR (resaving e) fs slot data) as [[[ok data'] fs2]|ex];
    [discriminate|].
  destruct (caught_by_load ex); congruence.
Qed.

(** Whatever [load_from] returns is a document of the file it read, put
    through [_validate_save_data], and through the stamping of [save_game]
    when it came from the backup. *)
Lemma load_from_validated (e : env) (fs fs' : gmap string file) (slot : Z)
    (path label : string) (record : dict) :
  load_from SAVE_DIR e fs slot path label = Ok (Some record, fs') ->
  exists source,
    fs !! path = Some (Parsed (JDict source))
    /\ (record = _validate_save_data source slot
        \/ record = stamped e slot (_validate_save_data source slot)).
Proof.
  unfold load_from. destruct (fs !! path) as [[|doc|ex]|]; try discriminate.
  2:{ destruct (caught_by_load ex); discriminate. }
  destruct doc; try discriminate.
  remember (_validate_save_data d slot) as data eqn:Hdata.
  destruct (String.eqb label "backup").
  - intros H. apply resave_returns in H. exists d. split; [reflexivity|].
    right. rewrite <- Hdata. exact H.
  - intros H. exists d. split; [reflexivity|]. left. rewrite <- Hdata. congruence.
Qed.

(** A pass that ends in [continue] has not touched the files. *)
Lemma load_from_continue (e : env) (fs fs' : gmap string file) (slot : Z)
    (path label : string) :
  load_from SAVE_DIR e fs slot path label = Ok (None, fs') -> fs' = fs.
Proof.
  unfold load_from. destruct (fs !! path) as [[|doc|ex]|]; try congruence.
  2:{ destruct (caught_by_load ex); congruence. }
  destruct doc; try congruence.
  remember (_validate_save_data d slot) as data eqn:Hdata.
  destruct (String.eqb label "backup"); [|discriminate].
  apply resave_continues.
Qed.

(** Validation touches the template's keys only. *)
Lemma fill_defaults_outside (key : string) (template d : dict) :
  ~ In key (map fst template) ->
  dict_get key (fold_left fill_default template d) = dict_get key d.
Proof.
  revert d. induction template as [|[k w] t IH]; intros d Hnot; simpl in *; [reflexivity|].
  rewrite IH by tauto. unfold fill_default. cbn [fst snd].
  destruct (dict_mem k d); [reflexivity|]. apply dict_get_set_ne. tauto.
Qed.

Lemma ensure_scripts_outside (key : string) (d : dict) :
  key <> "mastered_characters" ->
  dict_get key (ensure_scripts d) = dict_get key d.
Proof.
  intros Hne. unfold ensure_scripts.
  destruct (dict_get "mastered_characters" d) as [[]|];
    apply dict_get_set_ne; congruence.
Qed.

Lemma coerce_lists_outside (key : string) (keys : list string) (d : dict) :
  ~ In key keys ->
  dict_get key (fold_left coerce_list keys d) = dict_get key d.
Proof.
  revert d. induction keys as [|k ks IH]; intros d Hnot; simpl in *; [reflexivity|].
  rewrite IH by tauto. unfold coerce_list.
  destruct (dict_get k d) as [[]|]; try reflexivity; apply dict_get_set_ne; tauto.
Qed.

Lemma coerce_play_time_outside (key : string) (d : dict) :
  key <> "total_play_time" ->
  dict_get key (coerce_play_time d) = dict_get key d.
Proof.
  intros Hne. unfold coerce_play_time.
  destruct (from_option _ _ _); [reflexivity|]. apply dict_get_set_ne. congruence.
Qed.

Lemma coerce_monument_outside (key : string) (d : dict) :
  key <> "current_monument" ->
  dict_get key (coerce_monument d) = dict_get key d.
Proof.
  intros Hne. unfold coerce_monument.
  destruct (from_option _ _ _); [reflexivity|]. apply dict_get_set_ne. congruence.
Qed.

Lemma validated_outside (data : dict) (slot : Z) (key : string) :
  ~ In key template_fields ->
  dict_get key (_validate_save_data data slot) = dict_get key data.
Proof.
  intros Hnot. unfold _validate_save_data.
  assert (Hkeys : forall k, In k template_fields -> key <> k).
  { intros k Hk ->. exact (Hnot Hk). }
  rewrite dict_get_set_ne by (apply not_eq_sym, Hkeys; simpl; tauto).
  rewrite coerce_monument_outside by (apply Hkeys; simpl; tauto).
  rewrite coerce_play_time_outside by (apply Hkeys; simpl; tauto).
  rewrite coerce_lists_outside
    by (intros Hin; simpl in Hin;
        repeat (destruct Hin as [Hin|Hin];
                [symmetry in Hin; revert Hin; apply Hkeys; simpl; tauto|]);
        exact Hin).
  rewrite ensure_scripts_outside by (apply Hkeys; simpl; tauto).
  apply fill_defaults_outside. exact Hnot.
Qed.

Lemma stamped_outside (e : env) (slot : Z) (data : dict) (key : string) :
  ~ In key template_fields ->
  dict_get key (stamped e slot data) = dict_get key data.
Proof.
  intros Hnot. unfold stamped.
  rewrite !dict_get_set_ne; [reflexivity | |];
    intros <-; apply Hnot; simpl; tauto.
Qed.

(** C2 (as amended).  Whenever [load_game] returns a record, the record
    comes from a document of the slot's primary or backup file, and every
    field of the default template (slot, player_name,
    character_appearance, current_monument, completed_lessons,
    completed_minigames, mastered_characters, vocabulary_learned,
    grammar_learned, total_play_time, last_played, difficulty) is present
    in it; a field the document lacks holds the template's default
    ([last_played] apart, which the re-save of a backup stamps).  A key
    that is not in the template is in the record exactly as it is in the
    document; the template has no [player_xp] or [player_level], so each
    of the two is present in the record only if, and whenever, the file
    had it. *)
Theorem loaded_record_fields (e : env) (fs fs' : gmap string file) (slot : Z)
    (record : dict) :
  load_game SAVE_DIR e fs slot = Ok (Some record, fs') ->
  exists source path,
    (path = filepath slot \/ path = backup slot)
    /\ fs !! path = Some (Parsed (JDict source))
    /\ (forall key, In key template_fields ->
          dict_mem key record = true
          /\ (dict_mem key source = false -> key <> "last_played" ->
              dict_get key record = dict_get key (_default_save_data slot)))
    /\ (forall key, ~ In key template_fields ->
          dict_get key record = dict_get key source)
    /\ (forall key, In key ["player_xp"; "player_level"] ->
          (dict_mem key record = true <-> dict_mem key source = true)).
Proof.
  unfold load_game. destruct (_validate_slot slot); cbn [bind]; [|discriminate].
  intros Hload.
  assert (Hfrom : exists path label,
            (path = filepath slot \/ path = backup slot)
            /\ load_from SAVE_DIR e fs slot path label = Ok (Some record, fs')).
  { cbn [load_loop] in Hload.
    destruct (load_from SAVE_DIR e fs slot (filepath slot) "primary")
      as [[[r1|] fs1]|] eqn:E1; cbn [bind] in Hload; [| |discriminate].
    - injection Hload as <- <-. eauto.
    - apply load_from_continue in E1. subst fs1.
      destruct (load_from SAVE_DIR e fs slot (backup slot) "backup")
        as [[[r2|] fs2]|] eqn:E2; cbn [bind] in Hload; try discriminate.
      injection Hload as <- <-. eauto. }
  destruct Hfrom as (path & label & Hpath & Hfrom).
  destruct (load_from_validated e fs fs' slot path label record Hfrom)
    as (source & Hsrc & Hrec).
  exists source, path. split; [exact Hpath|]. split; [exact Hsrc|].
  assert (Houtside : forall key, ~ In key template_fields ->
            dict_get key record = dict_get key source).
  { intros key Hnot. destruct Hrec as [-> | ->].
    - apply validated_outside, Hnot.
    - rewrite stamped_outside by exact Hnot. apply validated_outside, Hnot. }
  split; [|split; [exact Houtside|]].
  - intros key Hkey. destruct Hrec as [-> | ->].
    + split; [apply validated_has_template_fields, Hkey|].
      intros Hno _. apply validated_default; assumption.
    + split; [apply stamped_keeps, validated_has_template_fields, Hkey|].
      intros Hno Hlp. unfold stamped. rewrite dict_get_set_ne by congruence.
      destruct (String.eq_dec key "slot") as [->|Hslot].
      * rewrite dict_get_set_eq. reflexivity.
      * rewrite dict_get_set_ne by congruence. apply validated_default; assumption.
  - intros key Hkey.
    assert (Hnot : ~ In key template_fields).
    { destruct Hkey as [<-|[<-|[]]]; simpl; intuition discriminate. }
    rewrite !dict_mem_get, (Houtside key Hnot). reflexivity.
Qed.

(** C7 (as amended).  With a valid slot, a primary file that is present
    but rejected and a backup that parses into a dict, [load_game] returns
    the backup's content after default-filling and stamping, and the
    primary exists afterwards; the primary holds that content whenever the
    write of the re-save succeeds, and when it fails [load_game] still
    returns the record and the primary stays as it was. *)
Theorem corrupt_primary_recovery (e : env) (fs : gmap string file) (slot : Z)
    (primary : file) (content : dict) :
  1 <= slot <= MAX_SAVE_SLOTS ->
  fs !! filepath slot = Some primary ->
  rejected primary ->
  fs !! backup slot = Some (Parsed (JDict content)) ->
  let record := stamped e slot (_validate_save_data content slot) in
  exists fs',
    load_game SAVE_DIR e fs slot = Ok (Some record, fs')
    /\ does_save_exist SAVE_DIR fs' slot = Ok true
    /\ (writes_succeed e = true ->
        fs' !! filepath slot = Some (Parsed (JDict record)))
    /\ (writes_succeed e = false -> fs' !! filepath slot = Some primary).
Proof.
  intros Hslot Hprimary Hrej Hbackup record.
  pose proof (directory_of_backup e fs slot _ Hbackup) as Hdir.
  destruct (resaving_outcome e fs slot (_validate_save_data content slot) Hslot Hdir)
    as (fs' & Hsave & Hlook).
  exists fs'. split; [|split; [|split]].
  - unfold load_game. rewrite (valid_slot slot Hslot). cbn [bind load_loop].
    rewrite (load_from_rejected e fs slot _ _ primary Hprimary Hrej). cbn [bind].
    unfold load_from. rewrite Hbackup. cbn [String.eqb Ascii.eqb Bool.eqb].
    rewrite Hsave. reflexivity.
  - unfold does_save_exist. rewrite (valid_slot slot Hslot). cbn [bind].
    rewrite Hlook, Hprimary. destruct (writes_succeed e); reflexivity.
  - intros Hw. rewrite Hlook, Hw. reflexivity.
  - intros Hw. rewrite Hlook, Hw. exact Hprimary.
Qed.


End Store.

(** The hypothesis of [loaded_record_fields] at slot 1 holding an empty
    JSON object. *)
Lemma loaded_record_fields_witness :
  exists record fs',
    SaveSystem.load_game "saves" Terms.working_env
      (Terms.empty_document_files "saves") 1 = Ok (Some record, fs')
    /\ exists source path,
         (path = SaveSystem._slot_filepath "saves" 1
          \/ path = SaveSystem._backup_filepath "saves" 1)
         /\ Terms.empty_document_files "saves" !! path
            = Some (SaveSystem.Parsed (Json.JDict source))
         /\ (forall key, In key Terms.template_fields ->
               Json.dict_mem key record = true
               /\ (Json.dict_mem key source = false -> key <> "last_played" ->
                   Json.dict_get key record
                   = Json.dict_get key (SaveSystem._default_save_data 1)))
         /\ (forall key, ~ In key Terms.template_fields ->
               Json.dict_get key record = Json.dict_get key source)
         /\ (forall key, In key ["player_xp"; "player_level"] ->
               (Json.dict_mem key record = true <-> Json.dict_mem key source = true)).
Proof.
  eexists. eexists. split; [vm_compute; reflexivity|].
  eapply (loaded_record_fields "saves" Terms.working_env
            (Terms.empty_document_files "saves") _ 1).
  vm_compute. reflexivity.
Defined.

(** C2 as stated fails for the last two documented fields: a file holding
    an empty JSON object loads into a record without [player_xp] and
    without [player_level]. *)
Lemma loaded_record_lacks_xp_fields :
  exists record fs',
    SaveSystem.load_game "saves" Terms.working_env
      (Terms.empty_document_files "saves") 1 = Ok (Some record, fs')
    /\ In "player_xp" Terms.documented_fields
    /\ In "player_level" Terms.documented_fields
    /\ Json.dict_mem "player_xp" record = false
    /\ Json.dict_mem "player_level" record = false.
Proof.
  eexists. eexists. split; [vm_compute; reflexivity|].
  repeat split; simpl; tauto.
Defined.

(** The hypotheses of [corrupt_primary_recovery] at slot 1 with an
    unparseable primary and an empty object as backup. *)
Lemma corrupt_primary_recovery_witness :
  let fs := Terms.corrupt_primary_files "saves" in
  let record :=
    Terms.stamped Terms.working_env 1 (SaveSystem._validate_save_data [] 1) in
  exists fs',
    SaveSystem.load_game "saves" Terms.working_env fs 1 = Ok (Some record, fs')
    /\ SaveSystem.does_save_exist "saves" fs' 1 = Ok true
    /\ (Terms.writes_succeed Terms.working_env = true ->
        fs' !! SaveSystem._slot_filepath "saves" 1
        = Some (SaveSystem.Parsed (Json.JDict record)))
    /\ (Terms.writes_succeed Terms.working_env = false ->
        fs' !! SaveSystem._slot_filepath "saves" 1 = Some SaveSystem.Unparseable).
Proof.
  apply (corrupt_primary_recovery "saves" Terms.working_env
           (Terms.corrupt_primary_files "saves") 1 SaveSystem.Unparseable []).
  - unfold Config.MAX_SAVE_SLOTS. lia.
  - vm_compute. reflexivity.
  - left. reflexivity.
  - vm_compute. reflexivity.
Defined.

(** C7 as stated fails when the re-save cannot write: the record is
    returned, but the primary is still the unparseable file, not the
    record. *)
Lemma recovery_without_write :
  exists record fs',
    SaveSystem.load_game "saves" Terms.failing_env
      (Terms.corrupt_primary_files "saves") 1 = Ok (Some record, fs')
    /\ fs' !! SaveSystem._slot_filepath "saves" 1 = Some SaveSystem.Unparseable
    /\ fs' !! SaveSystem._slot_filepath "saves" 1
       <> Some (SaveSystem.Parsed (Json.JDict record)).
Proof.
  eexists. eexists. split; [vm_compute; reflexivity|].
  split; [vm_compute; reflexivity|]. vm_compute. discriminate.
Defined.



(** A record too deep for [json.dump] is stamped all the same, and the
    [RecursionError] leaves [save_game] with the temporary file in
    place. *)
Example save_game_overflowing :
  let data := [("player_name", Json.JStr "Aki")] in
  SaveSystem.save_game_run "saves" Terms.overflowing_env ∅ 1 data
  = (Raise RecursionError, Terms.stamped Terms.overflowing_env 1 data,
     {[ SaveSystem._slot_filepath "saves" 1 +:+ ".tmp" := SaveSystem.Unparseable ]}).
Proof. vm_compute. reflexivity. Qed.

(** * Further properties *)

(** ** Levels as a function of XP *)

Lemma find_seqZ_some_inv (p : Z -> bool) (n : nat) : forall lo len a : Z,
  Z.to_nat len = n ->
  List.find p (seqZ lo len) = Some a ->
  lo <= a < lo + len /\ p a = true /\ (forall i, lo <= i < a -> p i = false).
Proof.
  induction n as [|n IH]; intros lo len a Hn Hfind.
  - rewrite seqZ_nil in Hfind by lia. discriminate.
  - rewrite seqZ_cons in Hfind by lia. simpl in Hfind.
    destruct (p lo) eqn:Hp.
    + injection Hfind as <-. repeat split; try lia; auto.
    + apply IH in Hfind as (Ha & Hpa & Hbelow); [|lia].
      repeat split; try lia; auto. intros i Hi.
      destruct (Z.eq_dec i lo) as [->|Hne]; [exact Hp | apply Hbelow; lia].
Qed.

Lemma find_seqZ_none_inv (p : Z -> bool) (lo len : Z) :
  List.find p (seqZ lo len) = None ->
  forall i, lo <= i < lo + len -> p i = false.
Proof.
  intros Hfind i Hi. apply (find_none _ _ Hfind).
  apply list_elem_of_In, elem_of_seqZ. exact Hi.
Qed.

Section LevelQueries.
Import Progression Terms Config.
Variable F : float_model.

Local Abbreviation X := (xp_required_for_level F).

Lemma level_bracket (total_xp : Z) :
  let lv := level_from_xp F total_xp in
  1 <= lv <= MAX_PLAYER_LEVEL
  /\ xp_required_for_level F lv <= Z.max 0 total_xp
  /\ (lv < MAX_PLAYER_LEVEL -> Z.max 0 total_xp < xp_required_for_level F (lv + 1)).
Proof.
  unfold level_from_xp, range, MAX_PLAYER_LEVEL. cbn zeta.
  set (x := Z.max 0 total_xp).
  destruct (List.find _ (seqZ 1 (100 + 1 - 1))) as [lv|] eqn:E.
  - apply (find_seqZ_some_inv _ _ _ _ _ eq_refl) in E as (Hlv & Hp & Hbelow).
    split; [lia|]. split.
    + destruct (Z.eq_dec lv 1) as [->|Hne]; [rewrite xp_required_one; lia|].
      specialize (Hbelow (lv - 1) ltac:(lia)).
      rewrite Z.gtb_ltb in Hbelow. apply Z.ltb_ge in Hbelow.
      replace (lv - 1 + 1) with lv in Hbelow by lia. exact Hbelow.
    + intros _. rewrite Z.gtb_ltb in Hp. apply Z.ltb_lt in Hp. exact Hp.
  - split; [lia|]. split; [|lia].
    pose proof (find_seqZ_none_inv _ _ _ E 99 ltac:(lia)) as H99.
    cbv beta in H99. change (99 + 1) with 100 in H99.
    rewrite Z.gtb_ltb in H99. apply Z.ltb_ge in H99. exact H99.
Qed.

(** X1.  Whatever the XP total (a negative one counts as 0),
    [level_from_xp] returns a level of 1..100 whose threshold the total
    has reached, and below the maximum level the total is short of the
    next threshold.  This holds for any float arithmetic. *)
Theorem level_from_xp_bracket (total_xp : Z) :
  let lv := level_from_xp F total_xp in
  1 <= lv <= MAX_PLAYER_LEVEL
  /\ xp_required_for_level F lv <= Z.max 0 total_xp
  /\ (lv < MAX_PLAYER_LEVEL -> Z.max 0 total_xp < xp_required_for_level F (lv + 1)).
Proof. exact (level_bracket total_xp). Qed.

Hypothesis Hrnd : rounds_closely F.
Hypothesis Hpow : pow_closely F.

Lemma level_largest (total_xp n : Z) :
  1 <= n <= MAX_PLAYER_LEVEL ->
  (xp_required_for_level F n <= Z.max 0 total_xp <-> n <= level_from_xp F total_xp).
Proof using Hrnd Hpow.
  intros Hn. destruct (level_bracket total_xp) as (Hlv & Hlo & Hhi).
  cbn zeta in *. split.
  - intros Hx. destruct (Z.le_gt_cases n (level_from_xp F total_xp)) as [|Hgt]; [assumption|].
    exfalso. specialize (Hhi ltac:(lia)).
    assert (X (level_from_xp F total_xp + 1) <= X n)
      by (apply (xp_required_le F Hrnd Hpow); lia).
    lia.
  - intros Hle. apply Z.le_trans with (X (level_from_xp F total_xp)); [|exact Hlo].
    apply (xp_required_le F Hrnd Hpow); lia.
Qed.

(** X2.  [level_from_xp] is the largest level whose threshold the total
    has reached: a level [n] of 1..100 is at most the returned level
    exactly when [xp_required_for_level n] does not exceed the total. *)
Theorem level_from_xp_largest (total_xp n : Z) :
  1 <= n <= MAX_PLAYER_LEVEL ->
  (xp_required_for_level F n <= Z.max 0 total_xp <-> n <= level_from_xp F total_xp).
Proof using Hrnd Hpow. exact (level_largest total_xp n). Qed.

(** X3.  More XP never lowers the level. *)
Theorem level_from_xp_monotone (a b : Z) :
  a <= b -> level_from_xp F a <= level_from_xp F b.
Proof using Hrnd Hpow.
  intros Hab. destruct (level_bracket a) as (Hlv & Hlo & _). cbn zeta in *.
  apply (level_largest b); [exact Hlv | lia].
Qed.

(** X4.  For a non-negative total, [xp_progress_in_level] splits it into
    the threshold of the current level plus a progress that is never
    negative; the XP needed for the next level is positive, and below the
    maximum level the progress is short of it, so the progress bar stays
    inside its range. *)
Theorem xp_progress_in_range (total_xp : Z) :
  0 <= total_xp ->
  let progress := xp_progress_in_level F total_xp in
  let lv := level_from_xp F total_xp in
  progress.1 + xp_required_for_level F lv = total_xp
  /\ 0 <= progress.1
  /\ 0 < progress.2
  /\ (lv < MAX_PLAYER_LEVEL -> progress.1 < progress.2).
Proof using Hrnd Hpow.
  intros H0. destruct (level_bracket total_xp) as (Hlv & Hlo & Hhi).
  cbn zeta in *. rewrite Z.max_r in Hlo, Hhi by exact H0.
  unfold xp_progress_in_level, xp_for_next_level. simpl fst. simpl snd.
  revert Hlv Hlo Hhi. generalize (level_from_xp F total_xp). intros lv Hlv Hlo Hhi.
  unfold MAX_PLAYER_LEVEL in *.
  destruct (Z.eq_dec lv 100) as [->|Hne].
  - replace (Z.max 1 (Z.min 100 (100 - 1))) with 99 by lia.
    pose proof (xp_required_next F Hrnd Hpow 99 ltac:(unfold MAX_PLAYER_LEVEL; lia)).
    change (99 + 1) with 100 in *. lia.
  - replace (Z.max 1 (Z.min lv (100 - 1))) with lv by lia.
    specialize (Hhi ltac:(lia)).
    pose proof (xp_required_next F Hrnd Hpow lv ltac:(unfold MAX_PLAYER_LEVEL; lia)).
    lia.
Qed.

End LevelQueries.

(** The hypotheses of [level_from_xp_largest] in exact arithmetic, at 250
    XP and level 3. *)
Lemma level_from_xp_largest_witness :
  Progression.xp_required_for_level exact_arith 3 <= Z.max 0 250
  <-> 3 <= Progression.level_from_xp exact_arith 250.
Proof.
  apply (level_from_xp_largest exact_arith exact_rounds_closely exact_pow_closely 250 3).
  unfold Config.MAX_PLAYER_LEVEL. lia.
Defined.

(** The hypotheses of [level_from_xp_monotone] in exact arithmetic. *)
Lemma level_from_xp_monotone_witness :
  Progression.level_from_xp exact_arith 99 <= Progression.level_from_xp exact_arith 100.
Proof.
  apply (level_from_xp_monotone exact_arith exact_rounds_closely exact_pow_closely 99 100).
  lia.
Defined.

(** The hypotheses of [xp_progress_in_range] in exact arithmetic, at 250
    XP. *)
Lemma xp_progress_in_range_witness :
  let progress := Progression.xp_progress_in_level exact_arith 250 in
  let lv := Progression.level_from_xp exact_arith 250 in
  progress.1 + Progression.xp_required_for_level exact_arith lv = 250
  /\ 0 <= progress.1
  /\ 0 < progress.2
  /\ (lv < Config.MAX_PLAYER_LEVEL -> progress.1 < progress.2).
Proof.
  apply (xp_progress_in_range exact_arith exact_rounds_closely exact_pow_closely 250).
  lia.
Defined.

(** 250 XP is level 3, 35 XP into it, with 133 XP to level 4. *)
Example xp_progress_at_250 :
  Progression.xp_progress_in_level exact_arith 250 = (35, 133).
Proof. vm_compute. reflexivity. Qed.

(** ** What [save_game] does to the files *)

Lemma string_app_assoc (a b c : string) : (a +:+ b) +:+ c = a +:+ (b +:+ c).
Proof.
  induction a as [|x a IH]; [reflexivity|].
  change (String x ((a +:+ b) +:+ c) = String x (a +:+ (b +:+ c))).
  rewrite IH. reflexivity.
Qed.

Section SaveFiles.
Import Json Config SaveSystem Terms.
Variable SAVE_DIR : string.

Local Abbreviation filepath := (_slot_filepath SAVE_DIR).
Local Abbreviation backup := (_backup_filepath SAVE_DIR).
Local Abbreviation tmp_path := (fun slot => _slot_filepath SAVE_DIR slot +:+ ".tmp").

Lemma tmp_not_backup (slot : Z) : filepath slot +:+ ".tmp" <> backup slot.
Proof.
  unfold _backup_filepath, _slot_filepath, path_join, _slot_filename.
  rewrite !string_app_assoc. intros E. repeat apply String.app_inj in E.
  discriminate E.
Qed.

(** The files after the [try] block, seen from a path other than the
    temporary file and the primary. *)
Lemma write_and_replace_frame (e : env) (fs : gmap string file)
    (path other : string) (data : dict) :
  other <> path -> other <> path +:+ ".tmp" ->
  (write_and_replace e fs (path +:+ ".tmp") path data).1 !! other = fs !! other.
Proof.
  intros H1 H2. unfold write_and_replace.
  destruct (open_ok e), (dump_overflows e), (dump_ok e), (replace_ok e); simpl;
    rewrite ?lookup_insert_ne, ?lookup_delete_ne, ?lookup_insert_ne by congruence;
    reflexivity.
Qed.

Lemma write_and_replace_tmp (e : env) (fs : gmap string file)
    (path : string) (data : dict) :
  dump_escapes e = false -> writes_succeed e = true ->
  (write_and_replace e fs (path +:+ ".tmp") path data).1 !! (path +:+ ".tmp") = None.
Proof.
  unfold dump_escapes, writes_succeed, write_and_replace. intros He H.
  destruct (open_ok e), (dump_overflows e), (dump_ok e), (replace_ok e);
    try discriminate H; try discriminate He. simpl.
  rewrite lookup_insert_ne by (apply not_eq_sym, tmp_path_fresh).
  apply lookup_delete_eq.
Qed.

(** An overflowing [json.dump] leaves the file that [open] created. *)
Lemma write_and_replace_overflow (e : env) (fs : gmap string file)
    (path : string) (data : dict) :
  dump_escapes e = true ->
  write_and_replace e fs (path +:+ ".tmp") path data
  = (<[path +:+ ".tmp" := Unparseable]> fs, Raise RecursionError).
Proof.
  unfold dump_escapes, write_and_replace.
  destruct (open_ok e), (dump_overflows e); try discriminate. reflexivity.
Qed.

(** The files [save_game] leaves behind when it returns, in one formula:
    the files after the backup copy and the [try] block, less the
    temporary file when the write failed and the clean-up could remove
    it. *)
Lemma save_game_files (e : env) (fs : gmap string file) (slot : Z) (data : dict) :
  1 <= slot <= MAX_SAVE_SLOTS ->
  _ensure_save_directory SAVE_DIR e fs = Ok tt ->
  dump_escapes e = false ->
  let copied :=
    match fs !! filepath slot with
    | Some f => if copy_ok e then <[backup slot := f]> fs else fs
    | None => fs
    end in
  let written :=
    (write_and_replace e copied (tmp_path slot) (filepath slot) (stamped e slot data)).1 in
  let fs' :=
    if writes_succeed e then written
    else match written !! tmp_path slot with
         | Some _ => if remove_ok e then delete (tmp_path slot) written else written
         | None => written
         end in
  save_game SAVE_DIR e fs slot data = Ok (writes_succeed e, stamped e slot data, fs').
Proof.
  intros Hslot Hdir Hesc. cbn zeta. unfold save_game.
  rewrite (save_game_run_files SAVE_DIR e fs slot data Hslot Hdir). cbn zeta.
  destruct (write_and_replace_primary e
              (match fs !! filepath slot with
               | Some f => if copy_ok e then <[backup slot := f]> fs else fs
               | None => fs
               end) (filepath slot) (stamped e slot data)) as [Hok _].
  destruct (write_and_replace e _ (filepath slot +:+ ".tmp") (filepath slot)
              (stamped e slot data)) as [fs2 outcome].
  simpl in Hok |- *. rewrite Hesc in Hok. subst outcome.
  destruct (writes_succeed e); reflexivity.
Qed.

(** X5.  [save_game] touches three paths only: the slot's primary, its
    backup and its temporary file.  Every other file, so every file of
    another slot, is as before, whether the save succeeds or not. *)
Theorem save_game_touches_own_files (e : env) (fs fs' : gmap string file)
    (slot : Z) (data data' : dict) (ok : bool) (other : string) :
  1 <= slot <= MAX_SAVE_SLOTS ->
  save_game SAVE_DIR e fs slot data = Ok (ok, data', fs') ->
  other <> _slot_filepath SAVE_DIR slot ->
  other <> _backup_filepath SAVE_DIR slot ->
  other <> _slot_filepath SAVE_DIR slot +:+ ".tmp" ->
  fs' !! other = fs !! other.
Proof.
  intros Hslot Hsave H1 H2 H3.
  destruct (save_game_returned SAVE_DIR e fs fs' slot data data' ok Hslot Hsave)
    as [Hdir Hesc].
  rewrite (save_game_files e fs slot data Hslot Hdir Hesc) in Hsave. cbn zeta in Hsave.
  injection Hsave as _ _ <-.
  assert (Hwritten :
    (write_and_replace e
       (match fs !! filepath slot with
        | Some f => if copy_ok e then <[backup slot := f]> fs else fs
        | None => fs
        end) (filepath slot +:+ ".tmp") (filepath slot) (stamped e slot data)).1
      !! other = fs !! other).
  { rewrite write_and_replace_frame by assumption.
    destruct (fs !! filepath slot); [|reflexivity].
    destruct (copy_ok e); [|reflexivity].
    apply lookup_insert_ne. congruence. }
  destruct (writes_succeed e); [exact Hwritten|].
  destruct (_ !! (filepath slot +:+ ".tmp")); [|exact Hwritten].
  destruct (remove_ok e); [|exact Hwritten].
  rewrite lookup_delete_ne by congruence. exact Hwritten.
Qed.

(** X6.  When a primary file exists and the copy succeeds, the backup
    holds the former primary after [save_game], whether the write that
    follows succeeds or fails. *)
Theorem save_game_backs_up (e : env) (fs fs' : gmap string file)
    (slot : Z) (data data' : dict) (ok : bool) (previous : file) :
  1 <= slot <= MAX_SAVE_SLOTS ->
  fs !! _slot_filepath SAVE_DIR slot = Some previous ->
  copy_ok e = true ->
  save_game SAVE_DIR e fs slot data = Ok (ok, data', fs') ->
  fs' !! _backup_filepath SAVE_DIR slot = Some previous.
Proof.
  intros Hslot Hprev Hcopy Hsave.
  destruct (save_game_returned SAVE_DIR e fs fs' slot data data' ok Hslot Hsave)
    as [Hdir Hesc].
  rewrite (save_game_files e fs slot data Hslot Hdir Hesc) in Hsave. cbn zeta in Hsave.
  injection Hsave as _ _ <-. rewrite Hprev, Hcopy.
  assert (Hwritten :
    (write_and_replace e (<[backup slot := previous]> fs)
       (filepath slot +:+ ".tmp") (filepath slot) (stamped e slot data)).1
      !! backup slot = Some previous).
  { rewrite write_and_replace_frame;
      [apply lookup_insert_eq | apply backup_not_primary
      | apply not_eq_sym, tmp_not_backup]. }
  destruct (writes_succeed e); [exact Hwritten|].
  destruct (_ !! (filepath slot +:+ ".tmp")); [|exact Hwritten].
  destruct (remove_ok e); [|exact Hwritten].
  rewrite lookup_delete_ne by apply tmp_not_backup. exact Hwritten.
Qed.

(** The temporary file after a call that returns. *)
Lemma returned_without_tmp (e : env) (fs fs' : gmap string file)
    (slot : Z) (data data' : dict) (ok : bool) :
  1 <= slot <= MAX_SAVE_SLOTS ->
  writes_succeed e = true \/ remove_ok e = true ->
  save_game SAVE_DIR e fs slot data = Ok (ok, data', fs') ->
  fs' !! (_slot_filepath SAVE_DIR slot +:+ ".tmp") = None.
Proof.
  intros Hslot Hcase Hsave.
  destruct (save_game_returned SAVE_DIR e fs fs' slot data data' ok Hslot Hsave)
    as [Hdir Hesc].
  rewrite (save_game_files e fs slot data Hslot Hdir Hesc) in Hsave. cbn zeta in Hsave.
  injection Hsave as _ _ <-.
  destruct (writes_succeed e) eqn:Hw.
  - apply write_and_replace_tmp; [exact Hesc | exact Hw].
  - destruct Hcase as [?|Hrm]; [discriminate|]. rewrite Hrm.
    match goal with
    | |- context [write_and_replace ?a ?b ?c ?p ?x] =>
        generalize (write_and_replace a b c p x).1
    end.
    intros written.
    destruct (written !! (filepath slot +:+ ".tmp")) eqn:E;
      [apply lookup_delete_eq | exact E].
Qed.

(** X7.  A call of [save_game] that returns leaves no temporary file when
    its write succeeded, and none after a failed write when the clean-up
    can remove the file.  A call that [json.dump] leaves with
    [RecursionError] has skipped the clean-up: the temporary file that
    [open] created stays, whatever [os.remove] could do; that happens
    whenever the directory step passes, [open] succeeds and [json.dump]
    overflows.  A call that ends with [OSError] has touched no file. *)
Theorem save_game_leaves_no_tmp (e : env) (fs : gmap string file) (slot : Z)
    (data : dict) :
  1 <= slot <= MAX_SAVE_SLOTS ->
  (forall ok data' fs',
      save_game SAVE_DIR e fs slot data = Ok (ok, data', fs') ->
      writes_succeed e = true \/ remove_ok e = true ->
      fs' !! (_slot_filepath SAVE_DIR slot +:+ ".tmp") = None)
  /\ (forall data' fs',
        save_game_run SAVE_DIR e fs slot data = (Raise RecursionError, data', fs') ->
        fs' !! (_slot_filepath SAVE_DIR slot +:+ ".tmp") = Some Unparseable)
  /\ (_ensure_save_directory SAVE_DIR e fs = Ok tt -> dump_escapes e = true ->
      exists data' fs',
        save_game_run SAVE_DIR e fs slot data = (Raise RecursionError, data', fs'))
  /\ (forall data' fs',
        save_game_run SAVE_DIR e fs slot data = (Raise OSError, data', fs') ->
        fs' = fs).
Proof.
  intros Hslot.
  assert (Hrun : _ensure_save_directory SAVE_DIR e fs = Ok tt ->
            exists copied,
              save_game_run SAVE_DIR e fs slot data
              = (if dump_escapes e
                 then (Raise RecursionError, stamped e slot data,
                       <[filepath slot +:+ ".tmp" := Unparseable]> copied)
                 else save_game_run SAVE_DIR e fs slot data)
              /\ (dump_escapes e = false ->
                  exists ok fs', save_game_run SAVE_DIR e fs slot data
                                 = (Ok ok, stamped e slot data, fs'))).
  { intros Hdir. eexists. split.
    - destruct (dump_escapes e) eqn:Hesc; [|reflexivity].
      rewrite (save_game_run_files SAVE_DIR e fs slot data Hslot Hdir). cbn zeta.
      rewrite (write_and_replace_overflow e _ (filepath slot) _ Hesc). reflexivity.
    - intros Hesc.
      rewrite (save_game_run_files SAVE_DIR e fs slot data Hslot Hdir). cbn zeta.
      destruct (write_and_replace_primary e
                  (match fs !! filepath slot with
                   | Some f => if copy_ok e then <[backup slot := f]> fs else fs
                   | None => fs
                   end) (filepath slot) (stamped e slot data)) as [Hok _].
      cbn zeta in Hok. rewrite Hesc in Hok. rewrite Hok. eauto. }
  split; [|split; [|split]].
  - intros ok data' fs' Hsave Hcase.
    exact (returned_without_tmp e fs fs' slot data data' ok Hslot Hcase Hsave).
  - intros data' fs'. destruct (ensure_cases SAVE_DIR e fs) as [Hdir|Hdir].
    + destruct (Hrun Hdir) as (copied & Heq & Hret). destruct (dump_escapes e).
      * rewrite Heq. intros H. injection H as _ <-. apply lookup_insert_eq.
      * destruct (Hret eq_refl) as (ok & fs2 & ->). discriminate.
    + unfold save_game_run. rewrite (valid_slot slot Hslot), Hdir. discriminate.
  - intros Hdir Hesc. destruct (Hrun Hdir) as (copied & Heq & _).
    rewrite Hesc in Heq. eauto.
  - intros data' fs'. destruct (ensure_cases SAVE_DIR e fs) as [Hdir|Hdir].
    + destruct (Hrun Hdir) as (copied & Heq & Hret). destruct (dump_escapes e).
      * rewrite Heq. discriminate.
      * destruct (Hret eq_refl) as (ok & fs2 & ->). discriminate.
    + unfold save_game_run. rewrite (valid_slot slot Hslot), Hdir. congruence.
Qed.

End SaveFiles.

(** ** What validation establishes *)

Section ValidationMore.
Import Json Config SaveSystem Terms.

Lemma dict_set_same (key : string) (v : json) (d : dict) :
  dict_get key d = Some v -> dict_set key v d = d.
Proof.
  induction d as [|[k w] d IH]; simpl; [discriminate|].
  destruct (String.eqb k key) eqn:E.
  - intros H. injection H as ->. reflexivity.
  - intros H. rewrite IH by exact H. reflexivity.
Qed.

Lemma fill_script_own (mc : dict) (s : string) :
  exists sd, dict_get s (fill_script mc s) = Some (JDict sd).
Proof.
  unfold fill_script. destruct (dict_get s mc) as [v|] eqn:E.
  - destruct v; try (rewrite dict_get_set_eq; eauto). eauto.
  - rewrite dict_get_set_eq. eauto.
Qed.

Lemma fill_script_keep (mc : dict) (s key : string) :
  (exists sd, dict_get key mc = Some (JDict sd)) ->
  exists sd, dict_get key (fill_script mc s) = Some (JDict sd).
Proof.
  intros H. destruct (String.eq_dec s key) as [->|Hne]; [apply fill_script_own|].
  unfold fill_script. destruct (dict_get s mc) as [[]|];
    rewrite ?dict_get_set_ne by exact Hne; exact H.
Qed.

Lemma fill_script_fixed (mc : dict) (s : string) :
  (exists sd, dict_get s mc = Some (JDict sd)) -> fill_script mc s = mc.
Proof. intros [sd H]. unfold fill_script. rewrite H. reflexivity. Qed.

Lemma ensure_scripts_typed (d : dict) :
  exists mc, dict_get "mastered_characters" (ensure_scripts d) = Some (JDict mc)
    /\ forall script, In script ["hiragana"; "katakana"; "kanji"] ->
         exists sd, dict_get script mc = Some (JDict sd).
Proof.
  unfold ensure_scripts.
  assert (Hdefault : exists mc,
            dict_get "mastered_characters"
              (dict_set "mastered_characters" default_mastered_characters d)
            = Some (JDict mc)
            /\ forall script, In script ["hiragana"; "katakana"; "kanji"] ->
                 exists sd, dict_get script mc = Some (JDict sd)).
  { rewrite dict_get_set_eq. eexists. split; [reflexivity|].
    intros script [<-|[<-|[<-|[]]]]; simpl; eauto. }
  destruct (dict_get "mastered_characters" d) as [v|]; [|exact Hdefault].
  destruct v; try exact Hdefault.
  rewrite dict_get_set_eq. eexists. split; [reflexivity|]. simpl.
  intros script [<-|[<-|[<-|[]]]].
  - apply fill_script_keep, fill_script_keep, fill_script_own.
  - apply fill_script_keep, fill_script_own.
  - apply fill_script_own.
Qed.

Lemma coerce_list_own (d : dict) (k : string) :
  exists l, dict_get k (coerce_list d k) = Some (JList l).
Proof.
  unfold coerce_list. destruct (dict_get k d) as [v|] eqn:E.
  - destruct v; try (rewrite dict_get_set_eq; eauto). eauto.
  - rewrite dict_get_set_eq. eauto.
Qed.

Lemma coerce_list_keep (d : dict) (k key : string) :
  (exists l, dict_get key d = Some (JList l)) ->
  exists l, dict_get key (coerce_list d k) = Some (JList l).
Proof.
  intros H. destruct (String.eq_dec k key) as [->|Hne]; [apply coerce_list_own|].
  unfold coerce_list. destruct (dict_get k d) as [[]|];
    rewrite ?dict_get_set_ne by exact Hne; exact H.
Qed.

Lemma coerce_lists_typed (keys : list string) (d : dict) (key : string) :
  In key keys \/ (exists l, dict_get key d = Some (JList l)) ->
  exists l, dict_get key (fold_left coerce_list keys d) = Some (JList l).
Proof.
  revert d. induction keys as [|k ks IH]; intros d H; simpl.
  - destruct H as [[]|H]; exact H.
  - apply IH. destruct H as [[->|Hin]|H].
    + right. apply coerce_list_own.
    + left. exact Hin.
    + right. apply coerce_list_keep, H.
Qed.

Lemma coerce_play_time_typed (d : dict) :
  exists v, dict_get "total_play_time" (coerce_play_time d) = Some v
            /\ is_number v = true.
Proof.
  unfold coerce_play_time. destruct (dict_get "total_play_time" d) as [v|] eqn:E; simpl.
  - destruct (is_number v) eqn:Hv; [eauto|]. rewrite dict_get_set_eq. eauto.
  - rewrite dict_get_set_eq. eauto.
Qed.

Lemma coerce_monument_typed (d : dict) :
  exists v, dict_get "current_monument" (coerce_monument d) = Some v
            /\ is_int v = true.
Proof.
  unfold coerce_monument. destruct (dict_get "current_monument" d) as [v|] eqn:E; simpl.
  - destruct (is_int v) eqn:Hv; [eauto|]. rewrite dict_get_set_eq. eauto.
  - rewrite dict_get_set_eq. eauto.
Qed.

Lemma validated_is_well_formed (data : dict) (slot : Z) :
  well_formed slot (_validate_save_data data slot).
Proof.
  split; [intros key Hkey; apply validated_has_template_fields, Hkey|].
  unfold _validate_save_data.
  generalize (fold_left fill_default (_default_save_data slot) data). intros filled.
  split; [|split; [|split; [|split]]].
  - destruct (ensure_scripts_typed filled) as (mc & Hmc & Hscripts).
    exists mc. split; [|exact Hscripts].
    rewrite dict_get_set_ne by discriminate.
    apply coerce_monument_get; [|discriminate].
    apply coerce_play_time_get; [|discriminate].
    apply coerce_lists_get; [exact Hmc|].
    simpl. intuition discriminate.
  - intros key Hkey.
    destruct (coerce_lists_typed
                ["completed_lessons"; "completed_minigames";
                 "vocabulary_learned"; "grammar_learned"]
                (ensure_scripts filled) key (or_introl Hkey)) as [l Hl].
    exists l. simpl in Hkey.
    rewrite dict_get_set_ne by intuition congruence.
    apply coerce_monument_get; [|intuition congruence].
    apply coerce_play_time_get; [exact Hl | intuition congruence].
  - destruct (coerce_play_time_typed
                (fold_left coerce_list
                   ["completed_lessons"; "completed_minigames";
                    "vocabulary_learned"; "grammar_learned"]
                   (ensure_scripts filled))) as (v & Hv & Hnum).
    exists v. split; [|exact Hnum].
    rewrite dict_get_set_ne by discriminate.
    apply coerce_monument_get; [exact Hv | discriminate].
  - destruct (coerce_monument_typed
                (coerce_play_time
                   (fold_left coerce_list
                      ["completed_lessons"; "completed_minigames";
                       "vocabulary_learned"; "grammar_learned"]
                      (ensure_scripts filled)))) as (v & Hv & Hint).
    exists v. split; [|exact Hint].
    rewrite dict_get_set_ne by discriminate. exact Hv.
  - apply dict_get_set_eq.
Qed.

(** X8.  Whatever the document, the validated record is well formed: all
    template fields present, [mastered_characters] a dict holding a dict
    for each of the three scripts, the four progress fields lists,
    [total_play_time] a number, [current_monument] an integer, and [slot]
    the requested slot. *)
Theorem validated_well_formed (data : dict) (slot : Z) :
  well_formed slot (_validate_save_data data slot).
Proof. exact (validated_is_well_formed data slot). Qed.

Lemma fill_defaults_fixed (template d : dict) :
  (forall key, In key (map fst template) -> dict_mem key d = true) ->
  fold_left fill_default template d = d.
Proof.
  induction template as [|kv t IH]; intros H; simpl; [reflexivity|].
  unfold fill_default at 2. rewrite (H (fst kv)) by (left; reflexivity).
  apply IH. intros key Hin. apply H. right. exact Hin.
Qed.

(** A well-formed record passes through validation unchanged. *)
Lemma validate_well_formed (data : dict) (slot : Z) :
  well_formed slot data -> _validate_save_data data slot = data.
Proof.
  intros (Hfields & (mc & Hmc & Hscripts) & Hlists & (pt & Hpt & Hnum)
          & (cm & Hcm & Hint) & Hslot).
  unfold _validate_save_data.
  rewrite fill_defaults_fixed by exact Hfields.
  assert (E1 : ensure_scripts data = data).
  { unfold ensure_scripts. rewrite Hmc. simpl.
    rewrite (fill_script_fixed mc "hiragana") by (apply Hscripts; simpl; tauto).
    rewrite (fill_script_fixed mc "katakana") by (apply Hscripts; simpl; tauto).
    rewrite (fill_script_fixed mc "kanji") by (apply Hscripts; simpl; tauto).
    apply dict_set_same, Hmc. }
  rewrite E1.
  assert (E2 : fold_left coerce_list
                 ["completed_lessons"; "completed_minigames";
                  "vocabulary_learned"; "grammar_learned"] data = data).
  { simpl. unfold coerce_list.
    destruct (Hlists "completed_lessons") as [l1 ->]; [simpl; tauto|].
    destruct (Hlists "completed_minigames") as [l2 ->]; [simpl; tauto|].
    destruct (Hlists "vocabulary_learned") as [l3 ->]; [simpl; tauto|].
    destruct (Hlists "grammar_learned") as [l4 ->]; [simpl; tauto|].
    reflexivity. }
  rewrite E2. unfold coerce_play_time. rewrite Hpt. simpl. rewrite Hnum.
  unfold coerce_monument. rewrite Hcm. simpl. rewrite Hint.
  apply dict_set_same, Hslot.
Qed.

(** X9.  Validation is idempotent: validating a validated record changes
    nothing. *)
Theorem validate_idempotent (data : dict) (slot : Z) :
  _validate_save_data (_validate_save_data data slot) slot
  = _validate_save_data data slot.
Proof. apply validate_well_formed, validated_is_well_formed. Qed.

(** X10.  Validation keeps what is usable: a field that is present keeps
    its value, unless it is [slot] or [mastered_characters], or one of the
    coerced fields holding a value of the wrong type (a progress field
    that is no list, a [total_play_time] that is no number, a
    [current_monument] that is no integer).  Keys the template does not
    know are among the fields kept. *)
Theorem validate_keeps_fields (data : dict) (slot : Z) (key : string) (v : json) :
  dict_get key data = Some v ->
  key <> "slot" ->
  key <> "mastered_characters" ->
  (In key ["completed_lessons"; "completed_minigames";
           "vocabulary_learned"; "grammar_learned"] -> is_list v = true) ->
  (key = "total_play_time" -> is_number v = true) ->
  (key = "current_monument" -> is_int v = true) ->
  dict_get key (_validate_save_data data slot) = Some v.
Proof.
  intros Hv Hslot Hmc Hlist Hnum Hint. unfold _validate_save_data.
  rewrite dict_get_set_ne by congruence.
  apply coerce_monument_get; [|exact Hint].
  apply coerce_play_time_get; [|exact Hnum].
  apply coerce_lists_get; [|exact Hlist].
  apply ensure_scripts_get; [|congruence].
  apply fill_defaults_hold, Hv.
Qed.

End ValidationMore.

(** The hypotheses of [validate_keeps_fields] at a document that holds a
    key of a later version and a list of lessons. *)
Lemma validate_keeps_fields_witness :
  let data := [("achievements", Json.JList [Json.JStr "first_steps"]);
               ("completed_lessons", Json.JList [Json.JStr "hiragana_lesson_1"])] in
  Json.dict_get "achievements" (SaveSystem._validate_save_data data 2)
  = Some (Json.JList [Json.JStr "first_steps"]).
Proof.
  apply (validate_keeps_fields
           [("achievements", Json.JList [Json.JStr "first_steps"]);
            ("completed_lessons", Json.JList [Json.JStr "hiragana_lesson_1"])]
           2 "achievements");
    [reflexivity | discriminate | discriminate
    | simpl; intuition discriminate | discriminate | discriminate].
Defined.

(** ** Loading, and saving then loading *)

Section LoadMore.
Import Json Config SaveSystem Terms.
Variable SAVE_DIR : string.

Local Abbreviation filepath := (_slot_filepath SAVE_DIR).
Local Abbreviation backup := (_backup_filepath SAVE_DIR).

(** A file is passed over, holds a dict document, or cannot be read. *)
Lemma file_cases (f : option file) :
  passed_over f
  \/ (exists d, f = Some (Parsed (JDict d)))
  \/ (exists ex, read_escapes f ex).
Proof.
  unfold passed_over, read_escapes. destruct f as [[|doc|ex]|]; auto.
  - destruct doc; eauto 8.
  - destruct (caught_by_load ex) eqn:E; eauto 8.
Qed.

Lemma passed_over_no_dict (f : option file) (d : dict) :
  passed_over f -> f <> Some (Parsed (JDict d)).
Proof.
  intros [->|[->|[(doc & -> & Hd)|(ex & -> & _)]]]; try discriminate.
  intros H. injection H as ->. discriminate Hd.
Qed.

Lemma passed_over_no_escape (f : option file) (ex : exn) :
  passed_over f -> ~ read_escapes f ex.
Proof.
  intros [->|[->|[(doc & -> & Hd)|(ex' & -> & Hc)]]] [Hf He]; try discriminate.
  injection Hf as ->. congruence.
Qed.

(** A file that is passed over ends its pass in [continue]. *)
Lemma load_from_skip (e : env) (fs : gmap string file) (slot : Z)
    (path label : string) :
  passed_over (fs !! path) ->
  load_from SAVE_DIR e fs slot path label = Ok (None, fs).
Proof.
  unfold load_from.
  intros [->|[->|[(doc & -> & Hd)|(ex & -> & Hc)]]]; try reflexivity.
  - destruct doc; try reflexivity. discriminate Hd.
  - rewrite Hc. reflexivity.
Qed.

(** A read that raises what [load_game] does not catch ends the call. *)
Lemma load_from_escape (e : env) (fs : gmap string file) (slot : Z)
    (path label : string) (ex : exn) :
  read_escapes (fs !! path) ex ->
  load_from SAVE_DIR e fs slot path label = Raise ex.
Proof. unfold load_from. intros [-> Hc]. rewrite Hc. reflexivity. Qed.

(** A backup that holds a dict document is returned, validated and
    stamped. *)
Lemma load_from_backup (e : env) (fs : gmap string file) (slot : Z) (d : dict) :
  1 <= slot <= MAX_SAVE_SLOTS ->
  fs !! backup slot = Some (Parsed (JDict d)) ->
  exists fs', load_from SAVE_DIR e fs slot (backup slot) "backup"
              = Ok (Some (stamped e slot (_validate_save_data d slot)), fs').
Proof.
  intros Hslot Hb. unfold load_from. rewrite Hb. cbn [String.eqb Ascii.eqb Bool.eqb].
  pose proof (directory_of_backup SAVE_DIR e fs slot _ Hb) as Hdir.
  remember (_validate_save_data d slot) as data eqn:Hdata.
  destruct (resaving_outcome SAVE_DIR e fs slot data Hslot Hdir) as (fs' & -> & _).
  exists fs'. reflexivity.
Qed.

Lemma load_primary_document (e : env) (fs : gmap string file) (slot : Z)
    (document : dict) :
  1 <= slot <= MAX_SAVE_SLOTS ->
  fs !! _slot_filepath SAVE_DIR slot = Some (Parsed (JDict document)) ->
  load_game SAVE_DIR e fs slot = Ok (Some (_validate_save_data document slot), fs).
Proof.
  intros Hslot Hp. unfold load_game. rewrite (valid_slot slot Hslot).
  cbn [bind load_loop]. unfold load_from at 1. rewrite Hp.
  cbn [String.eqb Ascii.eqb Bool.eqb bind]. reflexivity.
Qed.

Lemma load_primary_escape (e : env) (fs : gmap string file) (slot : Z) (ex : exn) :
  1 <= slot <= MAX_SAVE_SLOTS ->
  read_escapes (fs !! _slot_filepath SAVE_DIR slot) ex ->
  load_game SAVE_DIR e fs slot = Raise ex.
Proof.
  intros Hslot Hp. unfold load_game. rewrite (valid_slot slot Hslot).
  cbn [bind load_loop]. rewrite (load_from_escape e fs slot _ _ ex Hp). reflexivity.
Qed.

(** With the primary passed over, the backup decides. *)
Lemma load_backup_cases (e : env) (fs : gmap string file) (slot : Z) :
  1 <= slot <= MAX_SAVE_SLOTS ->
  passed_over (fs !! filepath slot) ->
  (passed_over (fs !! backup slot) -> load_game SAVE_DIR e fs slot = Ok (None, fs))
  /\ (forall d, fs !! backup slot = Some (Parsed (JDict d)) ->
        exists fs', load_game SAVE_DIR e fs slot
                    = Ok (Some (stamped e slot (_validate_save_data d slot)), fs'))
  /\ (forall ex, read_escapes (fs !! backup slot) ex ->
        load_game SAVE_DIR e fs slot = Raise ex).
Proof.
  intros Hslot Hp. unfold load_game. rewrite (valid_slot slot Hslot).
  cbn [bind load_loop]. rewrite (load_from_skip e fs slot _ _ Hp). cbn [bind].
  split; [|split].
  - intros Hb. rewrite (load_from_skip e fs slot _ _ Hb). reflexivity.
  - intros d Hb. destruct (load_from_backup e fs slot d Hslot Hb) as [fs' ->].
    exists fs'. reflexivity.
  - intros ex Hb. rewrite (load_from_escape e fs slot _ _ ex Hb). reflexivity.
Qed.

(** The three ways a call on a valid slot can end, with the state of the
    files that leads to each. *)
Lemma load_game_cases (e : env) (fs : gmap string file) (slot : Z) :
  1 <= slot <= MAX_SAVE_SLOTS ->
  (passed_over (fs !! filepath slot) /\ passed_over (fs !! backup slot)
   /\ load_game SAVE_DIR e fs slot = Ok (None, fs))
  \/ (exists record fs', load_game SAVE_DIR e fs slot = Ok (Some record, fs')
      /\ (forall ex, ~ read_escapes (fs !! filepath slot) ex)
      /\ (passed_over (fs !! filepath slot) ->
          ~ passed_over (fs !! backup slot)
          /\ forall ex, ~ read_escapes (fs !! backup slot) ex))
  \/ (exists ex, load_game SAVE_DIR e fs slot = Raise ex
      /\ (read_escapes (fs !! filepath slot) ex
          \/ (passed_over (fs !! filepath slot)
              /\ read_escapes (fs !! backup slot) ex))).
Proof.
  intros Hslot.
  destruct (file_cases (fs !! filepath slot)) as [Hp|[[d Hp]|[ex Hp]]].
  - destruct (load_backup_cases e fs slot Hslot Hp) as (Hnone & Hdict & Hesc).
    destruct (file_cases (fs !! backup slot)) as [Hb|[[d Hb]|[ex Hb]]].
    + left. auto.
    + right. left. destruct (Hdict d Hb) as [fs' Hload]. eexists. exists fs'.
      split; [exact Hload|]. split.
      * intros ex. apply passed_over_no_escape, Hp.
      * intros _. split.
        -- intros Hpo. exact (passed_over_no_dict _ d Hpo Hb).
        -- intros ex [Hf _]. congruence.
    + right. right. exists ex. split; [apply Hesc, Hb | right; auto].
  - right. left. eexists. exists fs.
    split; [exact (load_primary_document e fs slot d Hslot Hp)|]. split.
    + intros ex [Hf _]. congruence.
    + intros Hpo. exfalso. exact (passed_over_no_dict _ d Hpo Hp).
  - right. right. exists ex.
    split; [exact (load_primary_escape e fs slot ex Hslot Hp) | left; exact Hp].
Qed.

(** X11.  When the read of the primary file gives a dict document,
    [load_game] returns it after validation; the backup is not consulted
    and no file is written.  When the read of the primary raises an
    exception that [load_game] does not catch (the [OSError] of a refused
    [open], the [RecursionError] of a document nested too deeply),
    [load_game] raises it, whatever the backup holds. *)
Theorem load_game_reads_primary (e : env) (fs : gmap string file) (slot : Z) :
  1 <= slot <= MAX_SAVE_SLOTS ->
  (forall document,
      fs !! _slot_filepath SAVE_DIR slot = Some (Parsed (JDict document)) ->
      load_game SAVE_DIR e fs slot = Ok (Some (_validate_save_data document slot), fs))
  /\ (forall ex,
        read_escapes (fs !! _slot_filepath SAVE_DIR slot) ex ->
        load_game SAVE_DIR e fs slot = Raise ex).
Proof.
  intros Hslot. split.
  - intros document. exact (load_primary_document e fs slot document Hslot).
  - intros ex. exact (load_primary_escape e fs slot ex Hslot).
Qed.

(** X12.  On a valid slot [load_game] returns [None] exactly when it
    passes over both the primary and the backup (each is missing, ends its
    read in an exception that is caught, or holds a document that is no
    dict), and then it changes no file.  It raises exactly when a read
    raises an exception that is not caught, in the primary or, the
    primary passed over, in the backup, and it raises that exception. *)
Theorem load_game_none (e : env) (fs : gmap string file) (slot : Z) :
  1 <= slot <= MAX_SAVE_SLOTS ->
  ((passed_over (fs !! _slot_filepath SAVE_DIR slot)
    /\ passed_over (fs !! _backup_filepath SAVE_DIR slot))
   <-> (exists fs', load_game SAVE_DIR e fs slot = Ok (None, fs')))
  /\ (forall fs', load_game SAVE_DIR e fs slot = Ok (None, fs') -> fs' = fs)
  /\ (forall ex,
        load_game SAVE_DIR e fs slot = Raise ex
        <-> (read_escapes (fs !! _slot_filepath SAVE_DIR slot) ex
             \/ (passed_over (fs !! _slot_filepath SAVE_DIR slot)
                 /\ read_escapes (fs !! _backup_filepath SAVE_DIR slot) ex))).
Proof.
  intros Hslot.
  pose proof (load_game_cases e fs slot Hslot) as Hcases.
  split; [|split].
  - split.
    + intros [Hp Hb]. exists fs.
      apply (proj1 (load_backup_cases e fs slot Hslot Hp)), Hb.
    + intros [fs' Hload].
      destruct Hcases as [(Hp & Hb & _)|[(r & fs2 & H & _)|(ex & H & _)]];
        [auto | congruence | congruence].
  - intros fs' Hload.
    destruct Hcases as [(_ & _ & H)|[(r & fs2 & H & _)|(ex & H & _)]]; congruence.
  - intros ex. split.
    + intros Hload.
      destruct Hcases as [(_ & _ & H)|[(r & fs2 & H & _)|(ex' & H & Hwhy)]];
        [congruence | congruence |].
      assert (ex' = ex) as -> by congruence. exact Hwhy.
    + intros [Hp|[Hp Hb]].
      * exact (load_primary_escape e fs slot ex Hslot Hp).
      * apply (proj2 (proj2 (load_backup_cases e fs slot Hslot Hp))), Hb.
Qed.

Lemma stamped_well_formed (e : env) (s slot : Z) (data : dict) :
  well_formed s data -> well_formed slot (stamped e slot data).
Proof.
  intros (Hfields & (mc & Hmc & Hscripts) & Hlists & (pt & Hpt & Hnum)
          & (cm & Hcm & Hint) & _).
  unfold stamped. repeat split.
  - intros key Hkey. auto using dict_mem_set_keep.
  - exists mc. split; [|exact Hscripts].
    rewrite !dict_get_set_ne by discriminate. exact Hmc.
  - intros key Hkey. destruct (Hlists key Hkey) as [l Hl]. exists l.
    simpl in Hkey. rewrite !dict_get_set_ne by intuition congruence. exact Hl.
  - exists pt. rewrite !dict_get_set_ne by discriminate. auto.
  - exists cm. rewrite !dict_get_set_ne by discriminate. auto.
  - rewrite dict_get_set_ne by discriminate. apply dict_get_set_eq.
Qed.


(** X14.  Every operation that takes a slot rejects a slot outside
    1..MAX_SAVE_SLOTS with [ValueError], before it reads or writes
    anything. *)
Theorem invalid_slot_rejected (e : env) (fs : gmap string file) (slot : Z)
    (data : dict) (removable : string -> bool)
    (player_name difficulty : string) (character_appearance : json) :
  slot < 1 \/ MAX_SAVE_SLOTS < slot ->
  save_game SAVE_DIR e fs slot data = Raise ValueError
  /\ load_game SAVE_DIR e fs slot = Raise ValueError
  /\ delete_save SAVE_DIR removable fs slot = Raise ValueError
  /\ does_save_exist SAVE_DIR fs slot = Raise ValueError
  /\ create_new_save SAVE_DIR e fs slot player_name character_appearance difficulty
     = Raise ValueError
  /\ get_save_summary SAVE_DIR e fs slot = Raise ValueError.
Proof.
  intros Hslot.
  assert (Hv : _validate_slot slot = Raise ValueError).
  { unfold _validate_slot.
    destruct (Z.ltb_spec slot 1); [reflexivity|].
    destruct (Z.gtb_spec slot MAX_SAVE_SLOTS); [reflexivity | lia]. }
  unfold load_game, delete_save, does_save_exist, create_new_save,
    get_save_summary, load_game, save_game, save_game_run.
  rewrite Hv. repeat split; reflexivity.
Qed.

End LoadMore.

(** ** Deleting, creating and listing saves *)

Section SlotOperations.
Import Json Config SaveSystem Terms.
Variable SAVE_DIR : string.

Local Abbreviation filepath := (_slot_filepath SAVE_DIR).
Local Abbreviation backup := (_backup_filepath SAVE_DIR).

(** X15.  When both removals can succeed, [delete_save] leaves neither the
    primary nor the backup of the slot, reports [True] exactly when one of
    them existed, and touches no other file; afterwards
    [does_save_exist] is [False] and [load_game] returns [None]. *)
Theorem delete_save_removes (removable : string -> bool)
    (fs : gmap string file) (slot : Z) :
  1 <= slot <= MAX_SAVE_SLOTS ->
  removable (_slot_filepath SAVE_DIR slot) = true ->
  removable (_backup_filepath SAVE_DIR slot) = true ->
  exists removed_any fs',
    delete_save SAVE_DIR removable fs slot = Ok (removed_any, fs')
    /\ (removed_any = true <->
        is_Some (fs !! _slot_filepath SAVE_DIR slot)
        \/ is_Some (fs !! _backup_filepath SAVE_DIR slot))
    /\ fs' !! _slot_filepath SAVE_DIR slot = None
    /\ fs' !! _backup_filepath SAVE_DIR slot = None
    /\ (forall other, other <> _slot_filepath SAVE_DIR slot ->
          other <> _backup_filepath SAVE_DIR slot -> fs' !! other = fs !! other)
    /\ does_save_exist SAVE_DIR fs' slot = Ok false
    /\ (forall e, load_game SAVE_DIR e fs' slot = Ok (None, fs')).
Proof.
  intros Hslot Hrp Hrb.
  pose proof (backup_not_primary SAVE_DIR slot) as Hne.
  assert (Hfiles : exists removed_any fs',
    delete_save SAVE_DIR removable fs slot = Ok (removed_any, fs')
    /\ (removed_any = true <->
        is_Some (fs !! filepath slot) \/ is_Some (fs !! backup slot))
    /\ fs' !! filepath slot = None
    /\ fs' !! backup slot = None
    /\ (forall other, other <> filepath slot -> other <> backup slot ->
          fs' !! other = fs !! other)).
  { unfold delete_save. rewrite (valid_slot slot Hslot). cbn [bind fold_left].
    unfold remove_if_file. cbn [fst snd].
    destruct (fs !! filepath slot) as [f|] eqn:Ep; cbn [fst snd].
    - rewrite Hrp. cbn [fst snd]. rewrite lookup_delete_ne by congruence.
      destruct (fs !! backup slot) as [b|] eqn:Eb.
      + rewrite Hrb. eexists. eexists. split; [reflexivity|].
        split; [split; eauto|]. split.
        { rewrite lookup_delete_ne by congruence. apply lookup_delete_eq. }
        split; [apply lookup_delete_eq|].
        intros other H1 H2. rewrite !lookup_delete_ne by congruence. reflexivity.
      + eexists. eexists. split; [reflexivity|].
        split; [split; eauto|]. split; [apply lookup_delete_eq|].
        split; [rewrite lookup_delete_ne by congruence; exact Eb|].
        intros other H1 H2. rewrite lookup_delete_ne by congruence. reflexivity.
    - destruct (fs !! backup slot) as [b|] eqn:Eb.
      + rewrite Hrb. eexists. eexists. split; [reflexivity|].
        split; [split; eauto|]. split.
        { rewrite lookup_delete_ne by congruence. exact Ep. }
        split; [apply lookup_delete_eq|].
        intros other H1 H2. rewrite lookup_delete_ne by congruence. reflexivity.
      + eexists. eexists. split; [reflexivity|].
        split; [split; [discriminate | intros [[? H]|[? H]]; discriminate H]|].
        auto. }
  destruct Hfiles as (removed_any & fs' & Hdel & Hany & Hp & Hb & Hother).
  exists removed_any, fs'. repeat split; try tauto; auto.
  - unfold does_save_exist. rewrite (valid_slot slot Hslot). cbn [bind].
    rewrite Hp. reflexivity.
  - intros e. unfold load_game. rewrite (valid_slot slot Hslot).
    cbn [bind load_loop].
    rewrite (load_from_skip SAVE_DIR e fs' slot (filepath slot) "primary")
      by (left; exact Hp).
    cbn [bind].
    rewrite (load_from_skip SAVE_DIR e fs' slot (backup slot) "backup")
      by (left; exact Hb).
    reflexivity.
Qed.



(** The fields of a record that [load_game] returns. *)
Lemma load_game_record_fields (e : env) (fs fs' : gmap string file) (slot : Z)
    (record : dict) (key : string) :
  load_game SAVE_DIR e fs slot = Ok (Some record, fs') ->
  In key template_fields -> dict_mem key record = true.
Proof.
  unfold load_game. destruct (_validate_slot slot); cbn [bind]; [|discriminate].
  intros Hload Hkey. cbn [load_loop] in Hload.
  assert (Hfrom : exists fs0 path label,
            load_from SAVE_DIR e fs0 slot path label = Ok (Some record, fs')).
  { destruct (load_from SAVE_DIR e fs slot (filepath slot) "primary")
      as [[[r1|] fs1]|] eqn:E1; cbn [bind] in Hload; [| |discriminate].
    - injection Hload as <- <-. eauto.
    - destruct (load_from SAVE_DIR e fs1 slot (backup slot) "backup")
        as [[[r2|] fs2]|] eqn:E2; cbn [bind] in Hload; try discriminate.
      injection Hload as <- <-. eauto. }
  destruct Hfrom as (fs0 & path & label & Hfrom).
  destruct (load_from_validated SAVE_DIR e fs0 fs' slot path label record Hfrom)
    as (source & _ & [-> | ->]).
  - apply validated_has_template_fields, Hkey.
  - apply stamped_keeps, validated_has_template_fields, Hkey.
Qed.

(** The loop of [get_all_saves] stores an entry for each slot it visits,
    keeps the entries it found, and stores only records of [load_game]. *)
Lemma load_all_entries (es : Z -> env) (slots : list Z) :
  forall (st : gmap Z (option dict) * gmap string file) (slot : Z),
    let r := fold_left (load_into SAVE_DIR es) slots st in
    (is_Some (r.1 !! slot) <-> In slot slots \/ is_Some (st.1 !! slot))
    /\ ((forall record key, st.1 !! slot = Some (Some record) ->
           In key template_fields -> dict_mem key record = true) ->
        forall record key, r.1 !! slot = Some (Some record) ->
          In key template_fields -> dict_mem key record = true).
Proof.
  induction slots as [|s slots IH]; intros st slot; cbn zeta; simpl.
  - split; [tauto | auto].
  - destruct (IH (load_into SAVE_DIR es st s) slot) as [Hdom Hrec]. cbn zeta in *.
    assert (Hstep : is_Some ((load_into SAVE_DIR es st s).1 !! slot)
                    <-> s = slot \/ is_Some (st.1 !! slot)).
    { unfold load_into.
      destruct (load_game SAVE_DIR (es s) st.2 s) as [[r fs1]|ex]; cbn [fst];
        (destruct (Z.eq_dec s slot) as [->|Hne];
         [rewrite lookup_insert_eq; split; eauto
         |rewrite lookup_insert_ne by exact Hne; split; [tauto|intros [?|?]; congruence]]). }
    split; [rewrite Hdom, Hstep; tauto|].
    intros Hst. apply Hrec. intros record key.
    unfold load_into.
    destruct (load_game SAVE_DIR (es s) st.2 s) as [[r fs1]|ex] eqn:E; cbn [fst];
      (destruct (Z.eq_dec s slot) as [->|Hne];
       [rewrite lookup_insert_eq | rewrite lookup_insert_ne by exact Hne; apply Hst]).
    + intros H. injection H as ->. eapply load_game_record_fields, E.
    + discriminate.
Qed.

(** X17.  [get_all_saves] answers for the slots 1..MAX_SAVE_SLOTS and for
    no other, whatever the files hold; every record in the answer has all
    fields of the default template. *)
Theorem get_all_saves_covers_slots (es : Z -> env) (fs : gmap string file)
    (slot : Z) :
  let saves := (get_all_saves SAVE_DIR es fs).1 in
  (is_Some (saves !! slot) <-> 1 <= slot <= MAX_SAVE_SLOTS)
  /\ (forall record key, saves !! slot = Some (Some record) ->
        In key template_fields -> dict_mem key record = true).
Proof.
  cbn zeta. unfold get_all_saves.
  destruct (load_all_entries es (range 1 (MAX_SAVE_SLOTS + 1)) (∅, fs) slot)
    as [Hdom Hrec]. cbn zeta in *. split.
  - rewrite Hdom. cbn [fst]. rewrite lookup_empty. unfold range.
    rewrite <- list_elem_of_In, elem_of_seqZ. unfold MAX_SAVE_SLOTS.
    split; [intros [?|[? H]]; [lia | discriminate H] | intros ?; left; lia].
  - apply Hrec. cbn [fst]. intros record key H. rewrite lookup_empty in H.
    discriminate H.
Qed.

End SlotOperations.

(** The hypotheses of [save_game_touches_own_files] at a first save of
    slot 1 beside a file of slot 2. *)
Lemma save_game_touches_own_files_witness :
  let fs : gmap string SaveSystem.file :=
    {[ SaveSystem._slot_filepath "saves" 2 := SaveSystem.Unparseable ]} in
  exists ok data' fs',
    SaveSystem.save_game "saves" Terms.working_env fs 1 [] = Ok (ok, data', fs')
    /\ fs' !! SaveSystem._slot_filepath "saves" 2
       = fs !! SaveSystem._slot_filepath "saves" 2.
Proof.
  cbn zeta. eexists. eexists. eexists. split; [vm_compute; reflexivity|].
  eapply (save_game_touches_own_files "saves" Terms.working_env
            {[ SaveSystem._slot_filepath "saves" 2 := SaveSystem.Unparseable ]} _ 1 []).
  - unfold Config.MAX_SAVE_SLOTS. lia.
  - vm_compute. reflexivity.
  - intros H. vm_compute in H. discriminate H.
  - intros H. vm_compute in H. discriminate H.
  - intros H. vm_compute in H. discriminate H.
Defined.

(** The hypotheses of [save_game_backs_up] at a slot whose primary is
    unparseable, on a system where the write then fails. *)
Lemma save_game_backs_up_witness :
  let fs : gmap string SaveSystem.file :=
    {[ SaveSystem._slot_filepath "saves" 1 := SaveSystem.Unparseable ]} in
  exists ok data' fs',
    SaveSystem.save_game "saves" Terms.failing_env fs 1 [] = Ok (ok, data', fs')
    /\ fs' !! SaveSystem._backup_filepath "saves" 1 = Some SaveSystem.Unparseable.
Proof.
  cbn zeta. eexists. eexists. eexists. split; [vm_compute; reflexivity|].
  eapply (save_game_backs_up "saves" Terms.failing_env
            {[ SaveSystem._slot_filepath "saves" 1 := SaveSystem.Unparseable ]} _ 1 []).
  - unfold Config.MAX_SAVE_SLOTS. lia.
  - vm_compute. reflexivity.
  - reflexivity.
  - vm_compute. reflexivity.
Defined.

(** The hypothesis of [save_game_leaves_no_tmp] at a first save during
    which [json.dump] fails: the temporary file was created and the
    clean-up has removed it. *)
Lemma save_game_leaves_no_tmp_witness :
  let tmp := SaveSystem._slot_filepath "saves" 1 +:+ ".tmp" in
  (forall ok data' fs',
      SaveSystem.save_game "saves" Terms.dump_failing_env ∅ 1 [] = Ok (ok, data', fs') ->
      Terms.writes_succeed Terms.dump_failing_env = true
      \/ SaveSystem.remove_ok Terms.dump_failing_env = true ->
      fs' !! tmp = None)
  /\ (forall data' fs',
        SaveSystem.save_game_run "saves" Terms.dump_failing_env ∅ 1 []
        = (Raise RecursionError, data', fs') ->
        fs' !! tmp = Some SaveSystem.Unparseable)
  /\ (SaveSystem._ensure_save_directory "saves" Terms.dump_failing_env ∅ = Ok tt ->
      Terms.dump_escapes Terms.dump_failing_env = true ->
      exists data' fs',
        SaveSystem.save_game_run "saves" Terms.dump_failing_env ∅ 1 []
        = (Raise RecursionError, data', fs'))
  /\ (forall data' fs',
        SaveSystem.save_game_run "saves" Terms.dump_failing_env ∅ 1 []
        = (Raise OSError, data', fs') ->
        fs' = ∅).
Proof.
  intros tmp.
  apply (save_game_leaves_no_tmp "saves" Terms.dump_failing_env ∅ 1 []).
  unfold Config.MAX_SAVE_SLOTS. lia.
Defined.

(** A failed [json.dump] that is caught, on that system: [False], and no
    temporary file. *)
Example save_game_dump_fails :
  exists data',
    SaveSystem.save_game "saves" Terms.dump_failing_env ∅ 1 [] = Ok (false, data', ∅).
Proof. eexists. vm_compute. reflexivity. Qed.

(** The hypothesis of [load_game_reads_primary] at slot 1. *)
Lemma load_game_reads_primary_witness :
  (forall document,
      Terms.empty_document_files "saves" !! SaveSystem._slot_filepath "saves" 1
      = Some (SaveSystem.Parsed (Json.JDict document)) ->
      SaveSystem.load_game "saves" Terms.failing_env (Terms.empty_document_files "saves") 1
      = Ok (Some (SaveSystem._validate_save_data document 1),
            Terms.empty_document_files "saves"))
  /\ (forall ex,
        Terms.read_escapes
          (Terms.empty_document_files "saves" !! SaveSystem._slot_filepath "saves" 1) ex ->
        SaveSystem.load_game "saves" Terms.failing_env
          (Terms.empty_document_files "saves") 1 = Raise ex).
Proof.
  apply (load_game_reads_primary "saves" Terms.failing_env
           (Terms.empty_document_files "saves") 1).
  unfold Config.MAX_SAVE_SLOTS. lia.
Defined.

(** A primary holding an empty JSON object loads; a primary that [open]
    refuses makes [load_game] raise, although the backup is sound. *)
Example load_game_primary_outcomes :
  SaveSystem.load_game "saves" Terms.failing_env (Terms.empty_document_files "saves") 1
  = Ok (Some (SaveSystem._validate_save_data [] 1), Terms.empty_document_files "saves")
  /\ SaveSystem.load_game "saves" Terms.working_env
       (Terms.unreadable_primary_files "saves") 1 = Raise OSError.
Proof. split; vm_compute; reflexivity. Qed.

(** The hypothesis of [load_game_none] at slot 1 with an unparseable
    primary and no backup. *)
Lemma load_game_none_witness :
  let fs : gmap string SaveSystem.file :=
    {[ SaveSystem._slot_filepath "saves" 1 := SaveSystem.Unparseable ]} in
  ((Terms.passed_over (fs !! SaveSystem._slot_filepath "saves" 1)
    /\ Terms.passed_over (fs !! SaveSystem._backup_filepath "saves" 1))
   <-> (exists fs', SaveSystem.load_game "saves" Terms.working_env fs 1 = Ok (None, fs')))
  /\ (forall fs', SaveSystem.load_game "saves" Terms.working_env fs 1 = Ok (None, fs') ->
        fs' = fs)
  /\ (forall ex,
        SaveSystem.load_game "saves" Terms.working_env fs 1 = Raise ex
        <-> (Terms.read_escapes (fs !! SaveSystem._slot_filepath "saves" 1) ex
             \/ (Terms.passed_over (fs !! SaveSystem._slot_filepath "saves" 1)
                 /\ Terms.read_escapes (fs !! SaveSystem._backup_filepath "saves" 1) ex))).
Proof.
  intros fs.
  apply (load_game_none "saves" Terms.working_env fs 1).
  unfold Config.MAX_SAVE_SLOTS. lia.
Defined.


(** The hypothesis of [invalid_slot_rejected] at slot 7. *)
Lemma invalid_slot_rejected_witness :
  SaveSystem.save_game "saves" Terms.working_env ∅ 7 [] = Raise ValueError
  /\ SaveSystem.load_game "saves" Terms.working_env ∅ 7 = Raise ValueError
  /\ SaveSystem.delete_save "saves" Terms.always_removable ∅ 7 = Raise ValueError
  /\ SaveSystem.does_save_exist "saves" ∅ 7 = Raise ValueError
  /\ SaveSystem.create_new_save "saves" Terms.working_env ∅ 7 "Aki" Json.JNull "normal"
     = Raise ValueError
  /\ SaveSystem.get_save_summary "saves" Terms.working_env ∅ 7 = Raise ValueError.
Proof.
  apply (invalid_slot_rejected "saves" Terms.working_env ∅ 7 []
           Terms.always_removable "Aki" "normal" Json.JNull).
  right. unfold Config.MAX_SAVE_SLOTS. lia.
Defined.

(** The hypotheses of [delete_save_removes] at slot 1 with an unparseable
    primary and a backup. *)
Lemma delete_save_removes_witness :
  let fs := Terms.corrupt_primary_files "saves" in
  exists removed_any fs',
    SaveSystem.delete_save "saves" Terms.always_removable fs 1 = Ok (removed_any, fs')
    /\ (removed_any = true <->
        is_Some (fs !! SaveSystem._slot_filepath "saves" 1)
        \/ is_Some (fs !! SaveSystem._backup_filepath "saves" 1))
    /\ fs' !! SaveSystem._slot_filepath "saves" 1 = None
    /\ fs' !! SaveSystem._backup_filepath "saves" 1 = None
    /\ (forall other, other <> SaveSystem._slot_filepath "saves" 1 ->
          other <> SaveSystem._backup_filepath "saves" 1 -> fs' !! other = fs !! other)
    /\ SaveSystem.does_save_exist "saves" fs' 1 = Ok false
    /\ (forall e, SaveSystem.load_game "saves" e fs' 1 = Ok (None, fs')).
Proof.
  apply (delete_save_removes "saves" Terms.always_removable
           (Terms.corrupt_primary_files "saves") 1);
    [unfold Config.MAX_SAVE_SLOTS; lia | reflexivity | reflexivity].
Defined.


(** Where the directory cannot be made, and where the appearance is
    nested too deeply for [json.dump], [create_new_save] raises. *)
Example create_new_save_raises :
  SaveSystem.create_new_save "saves" Terms.no_directory_env ∅ 4 "Aki" Json.JNull "hard"
  = Raise OSError
  /\ SaveSystem.create_new_save "saves" Terms.overflowing_env ∅ 4 "Aki" Json.JNull "hard"
     = Raise RecursionError.
Proof. split; vm_compute; reflexivity. Qed.

(** ** Recording progress and the monuments it unlocks *)

Section Progress.
Import Json Config GameManager.

Lemma contains_strings (ids : list string) (x : string) :
  contains (JList (map JStr ids)) x = Ok (bool_decide (x ∈ ids)).
Proof.
  unfold contains. f_equal. induction ids as [|y ids IH]; simpl; [reflexivity|].
  rewrite IH. destruct (String.eqb_spec y x) as [->|Hne]; simpl.
  - symmetry. apply bool_decide_eq_true. left.
  - apply bool_decide_ext. rewrite elem_of_cons. split; [tauto | intros [?|?]; [congruence | assumption]].
Qed.

(** Re-recording what was just recorded changes nothing. *)
Lemma append_if_absent_again (_save_data after : option dict) (key x : string) :
  append_if_absent _save_data key x = Ok after ->
  append_if_absent after key x = Ok after.
Proof.
  destruct _save_data as [d|]; [|intros H; injection H as <-; reflexivity].
  unfold append_if_absent at 1. cbv zeta.
  set (d1 := match dict_get key d with Some _ => d | None => dict_set key (JList []) d end).
  assert (Hd1 : dict_get key d1 <> None).
  { subst d1. destruct (dict_get key d) eqn:E; [congruence|].
    rewrite dict_get_set_eq. discriminate. }
  destruct (dict_get key d1) as [xs|] eqn:Exs; [|congruence].
  cbn [from_option id].
  destruct (contains xs x) as [present|ex] eqn:Ec; cbn [bind]; [|discriminate].
  assert (Hagain : forall d2 ys, dict_get key d2 = Some ys -> contains ys x = Ok true ->
            append_if_absent (Some d2) key x = Ok (Some d2)).
  { intros d2 ys H2 Hc. unfold append_if_absent. rewrite H2. cbn [from_option id].
    rewrite H2. cbn [from_option id]. rewrite Hc. reflexivity. }
  destruct present.
  - intros H. injection H as <-. apply (Hagain d1 xs Exs Ec).
  - destruct xs; try discriminate. intros H. injection H as <-.
    apply (Hagain _ (JList (l ++ [JStr x]))); [apply dict_get_set_eq|].
    unfold contains. rewrite existsb_app. simpl. rewrite String.eqb_refl, Bool.orb_true_r.
    reflexivity.
Qed.

(** X18.  [complete_lesson], [complete_minigame], [learn_vocabulary] and
    [learn_grammar] are idempotent: when a call succeeds, repeating it on
    the resulting save data succeeds and changes nothing. *)
Theorem progress_records_idempotent (_save_data after : option dict) (x : string) :
  (complete_lesson _save_data x = Ok after -> complete_lesson after x = Ok after)
  /\ (complete_minigame _save_data x = Ok after -> complete_minigame after x = Ok after)
  /\ (learn_vocabulary _save_data x = Ok after -> learn_vocabulary after x = Ok after)
  /\ (learn_grammar _save_data x = Ok after -> learn_grammar after x = Ok after).
Proof.
  unfold complete_lesson, complete_minigame, learn_vocabulary, learn_grammar.
  repeat split; apply append_if_absent_again.
Qed.

(** What one call does to a list of identifiers. *)
Lemma append_if_absent_strings (save_data : dict) (key x : string)
    (ids : list string) :
  dict_get key save_data = Some (JList (map JStr ids)) ->
  append_if_absent (Some save_data) key x
  = Ok (Some (if bool_decide (x ∈ ids) then save_data
              else dict_set key (JList (map JStr (ids ++ [x])%list)) save_data)).
Proof.
  intros H. unfold append_if_absent. rewrite H. cbn [from_option id].
  rewrite H. cbn [from_option id]. rewrite contains_strings. cbn [bind].
  destruct (bool_decide (x ∈ ids)); [reflexivity|].
  rewrite map_app. reflexivity.
Qed.

Lemma append_if_absent_missing (save_data : dict) (key x : string) :
  dict_get key save_data = None ->
  append_if_absent (Some save_data) key x
  = Ok (Some (dict_set key (JList [JStr x]) (dict_set key (JList []) save_data))).
Proof.
  intros H. unfold append_if_absent. rewrite H. rewrite dict_get_set_eq. reflexivity.
Qed.

(** X19.  On a record whose [completed_lessons] is a duplicate-free list
    of identifiers, [complete_lesson] leaves a duplicate-free list that
    holds the lesson exactly once and every identifier it held before, in
    the same order; the other fields keep their values.  With no save
    loaded it does nothing. *)
Theorem complete_lesson_once (save_data : dict) (lesson_id : string)
    (ids : list string) :
  dict_get "completed_lessons" save_data = Some (JList (map JStr ids)) ->
  NoDup ids ->
  complete_lesson None lesson_id = Ok None
  /\ exists after ids',
       complete_lesson (Some save_data) lesson_id = Ok (Some after)
       /\ dict_get "completed_lessons" after = Some (JList (map JStr ids'))
       /\ NoDup ids'
       /\ count_occ String.eq_dec ids' lesson_id = 1%nat
       /\ (ids' = ids \/ ids' = (ids ++ [lesson_id])%list)
       /\ (forall key, key <> "completed_lessons" ->
             dict_get key after = dict_get key save_data).
Proof.
  intros Hget Hnd. split; [reflexivity|].
  unfold complete_lesson. rewrite (append_if_absent_strings _ _ _ ids Hget).
  destruct (bool_decide (lesson_id ∈ ids)) eqn:E.
  - apply bool_decide_eq_true in E. exists save_data, ids.
    repeat split; auto.
    apply list_elem_of_In in E.
    apply (proj1 (List.NoDup_count_occ' String.eq_dec ids)); [|exact E].
    apply NoDup_ListNoDup. exact Hnd.
  - apply bool_decide_eq_false in E. exists (dict_set "completed_lessons"
      (JList (map JStr (ids ++ [lesson_id])%list)) save_data), (ids ++ [lesson_id])%list.
    repeat split; auto.
    + apply dict_get_set_eq.
    + apply NoDup_app. repeat split; [exact Hnd | | apply NoDup_singleton].
      intros y Hy Hy'. apply list_elem_of_singleton in Hy'. subst y.
      apply E, Hy.
    + rewrite count_occ_app. simpl.
      rewrite (proj1 (count_occ_not_In String.eq_dec ids lesson_id))
        by (rewrite <- list_elem_of_In; exact E).
      destruct (String.eq_dec lesson_id lesson_id); [reflexivity | congruence].
    + intros key Hkey. apply dict_get_set_ne. congruence.
Qed.

(** The identifiers after [complete_minigame]: those before, and the new
    one. *)
Lemma complete_minigame_strings (save_data : dict) (minigame_id : string)
    (ids : list string) :
  dict_get "completed_minigames" save_data = Some (JList (map JStr ids)) ->
  exists after ids',
    complete_minigame (Some save_data) minigame_id = Ok (Some after)
    /\ dict_get "completed_minigames" after = Some (JList (map JStr ids'))
    /\ In minigame_id ids'
    /\ (forall id, In id ids -> In id ids').
Proof.
  intros Hget. unfold complete_minigame.
  rewrite (append_if_absent_strings _ _ _ ids Hget).
  destruct (bool_decide (minigame_id ∈ ids)) eqn:E.
  - apply bool_decide_eq_true, list_elem_of_In in E.
    exists save_data, ids. auto.
  - exists (dict_set "completed_minigames"
              (JList (map JStr (ids ++ [minigame_id])%list)) save_data),
           (ids ++ [minigame_id])%list.
    split; [reflexivity|]. split; [apply dict_get_set_eq|].
    split; [apply in_or_app; right; left; reflexivity|].
    intros id Hid. apply in_or_app. left. exact Hid.
Qed.

(** X20.  On a record whose [completed_minigames] is a list of
    identifiers, [complete_minigame] succeeds; afterwards every monument
    whose prerequisite category followed by ["_"] starts the identifier is
    unlocked, and every monument that was unlocked before still is. *)
Theorem complete_minigame_unlocks (save_data : dict) (minigame_id : string)
    (ids : list string) :
  dict_get "completed_minigames" save_data = Some (JList (map JStr ids)) ->
  exists after,
    complete_minigame (Some save_data) minigame_id = Ok (Some after)
    /\ (forall i m required,
          0 < i < TOTAL_MONUMENTS ->
          MONUMENTS !! i = Some m ->
          unlock_requires m = Some required ->
          String.prefix (required +:+ "_") minigame_id = true ->
          is_monument_unlocked (Some after) i = Ok true)
    /\ (forall i,
          is_monument_unlocked (Some save_data) i = Ok true ->
          is_monument_unlocked (Some after) i = Ok true).
Proof.
  intros Hget.
  destruct (complete_minigame_strings save_data minigame_id ids Hget)
    as (after & ids' & Hdone & Hget' & Hnew & Hkeep).
  exists after. split; [exact Hdone|]. split.
  - intros i m required Hi Hm Hreq Hprefix.
    rewrite (is_monument_unlocked_loaded i after ids' m required Hi Hm Hreq Hget').
    f_equal. apply existsb_exists. eauto.
  - intros i Hbefore.
    destruct (Z.eq_dec i 0) as [->|H0]; [reflexivity|].
    destruct (Z_lt_le_dec 0 i) as [Hpos|Hneg];
      [|unfold is_monument_unlocked in Hbefore;
        destruct (Z.ltb_spec i 0); [discriminate Hbefore | lia]].
    destruct (Z_lt_le_dec i TOTAL_MONUMENTS) as [Hlt|Hge];
      [|unfold is_monument_unlocked in Hbefore;
        destruct (Z.ltb_spec i 0); [lia|];
        destruct (Z.geb_spec i TOTAL_MONUMENTS); [discriminate Hbefore | lia]].
    destruct (prerequisite_defined i (conj Hpos Hlt)) as (m & required & Hm & Hreq).
    rewrite (is_monument_unlocked_loaded i save_data ids m required
               (conj Hpos Hlt) Hm Hreq Hget) in Hbefore.
    rewrite (is_monument_unlocked_loaded i after ids' m required
               (conj Hpos Hlt) Hm Hreq Hget').
    f_equal. injection Hbefore as Hbefore.
    apply existsb_exists in Hbefore as (id & Hid & Hp).
    apply existsb_exists. eauto.
Qed.

Lemma unlocked_among_filter (_save_data : option dict) (p : Z -> bool)
    (mids : list Z) :
  (forall mid, is_monument_unlocked _save_data mid = Ok (p mid)) ->
  unlocked_among _save_data mids = Ok (List.filter p mids).
Proof.
  intros Hp. induction mids as [|mid rest IH]; simpl; [reflexivity|].
  rewrite Hp, IH. reflexivity.
Qed.

(** The last index of an initial range that passes a test, when index 0
    passes it. *)
Lemma last_filter_seqZ (p : Z -> bool) (n : nat) :
  p 0 = true ->
  let h := List.last (List.filter p (seqZ 0 (Z.of_nat (S n)))) 0 in
  0 <= h < Z.of_nat (S n) /\ p h = true
  /\ (forall i, h < i < Z.of_nat (S n) -> p i = false).
Proof.
  intros H0. induction n as [|n IH]; cbn zeta.
  - change (seqZ 0 (Z.of_nat 1)) with [0]. simpl. rewrite H0. simpl.
    repeat split; try lia; auto; intros i Hi; lia.
  - rewrite seqZ_S, List.filter_app. cbn zeta in IH. rewrite Z.add_0_l.
    change (List.filter p [Z.of_nat (S n)])
      with (if p (Z.of_nat (S n)) then [Z.of_nat (S n)] else []).
    destruct (p (Z.of_nat (S n))) eqn:E.
    + rewrite List.last_last. repeat split; try lia; auto; intros i Hi; lia.
    + rewrite app_nil_r. destruct IH as (Hh & Hp & Habove).
      repeat split; try lia; auto. intros i Hi.
      destruct (Z.eq_dec i (Z.of_nat (S n))) as [->|Hne]; [exact E|].
      apply Habove. lia.
Qed.

(** On a record whose [completed_minigames] is a list of identifiers the
    unlock query answers for every id. *)
Lemma is_monument_unlocked_answers (save_data : dict) (ids : list string) (i : Z) :
  dict_get "completed_minigames" save_data = Some (JList (map JStr ids)) ->
  exists b, is_monument_unlocked (Some save_data) i = Ok b.
Proof.
  intros Hget.
  destruct (Z.eq_dec i 0) as [->|H0]; [eexists; reflexivity|].
  destruct (Z_lt_le_dec 0 i) as [Hpos|Hneg];
    [|unfold is_monument_unlocked; destruct (Z.ltb_spec i 0); [eauto | lia]].
  destruct (Z_lt_le_dec i TOTAL_MONUMENTS) as [Hlt|Hge];
    [|unfold is_monument_unlocked; destruct (Z.ltb_spec i 0); [lia|];
      destruct (Z.geb_spec i TOTAL_MONUMENTS); [eauto | lia]].
  destruct (prerequisite_defined i (conj Hpos Hlt)) as (m & required & Hm & Hreq).
  rewrite (is_monument_unlocked_loaded i save_data ids m required
             (conj Hpos Hlt) Hm Hreq Hget). eauto.
Qed.

(** X21.  With no save loaded only monument 0 is unlocked.  On a record
    whose [completed_minigames] is a list of identifiers,
    [get_unlocked_monuments] lists exactly the unlocked monuments, monument
    0 among them, and [get_highest_unlocked_monument] is an unlocked
    monument above which none is unlocked. *)
Theorem highest_unlocked_monument (save_data : dict) (ids : list string) :
  dict_get "completed_minigames" save_data = Some (JList (map JStr ids)) ->
  get_unlocked_monuments None = Ok [0]
  /\ get_highest_unlocked_monument None = Ok 0
  /\ exists unlocked highest,
       get_unlocked_monuments (Some save_data) = Ok unlocked
       /\ get_highest_unlocked_monument (Some save_data) = Ok highest
       /\ (forall i, In i unlocked <-> is_monument_unlocked (Some save_data) i = Ok true)
       /\ In 0 unlocked
       /\ is_monument_unlocked (Some save_data) highest = Ok true
       /\ (forall i, is_monument_unlocked (Some save_data) i = Ok true -> i <= highest).
Proof.
  intros Hget. split; [vm_compute; reflexivity|]. split; [vm_compute; reflexivity|].
  set (p := fun i => match is_monument_unlocked (Some save_data) i with
                     | Ok b => b
                     | Raise _ => false
                     end).
  assert (Hp : forall i, is_monument_unlocked (Some save_data) i = Ok (p i)).
  { intros i. subst p. cbv beta.
    destruct (is_monument_unlocked_answers save_data ids i Hget) as [b ->].
    reflexivity. }
  assert (Hrange : forall i, p i = true -> 0 <= i < 13).
  { intros i Hi. specialize (Hp i). rewrite Hi in Hp.
    unfold is_monument_unlocked in Hp. rewrite TOTAL_MONUMENTS_value in Hp.
    destruct (Z.ltb_spec i 0); [discriminate Hp|].
    destruct (Z.geb_spec i 13); [discriminate Hp | lia]. }
  assert (H0 : p 0 = true) by reflexivity.
  exists (List.filter p (seqZ 0 13)), (List.last (List.filter p (seqZ 0 13)) 0).
  assert (Hlist : get_unlocked_monuments (Some save_data)
                  = Ok (List.filter p (seqZ 0 13))).
  { unfold get_unlocked_monuments, range. rewrite TOTAL_MONUMENTS_value.
    apply unlocked_among_filter, Hp. }
  destruct (last_filter_seqZ p 12 H0) as (Hh & Hph & Habove).
  change (Z.of_nat 13) with 13 in *.
  split; [exact Hlist|].
  split; [unfold get_highest_unlocked_monument; rewrite Hlist; reflexivity|].
  split.
  { intros i. rewrite Hp, List.filter_In, <- list_elem_of_In, elem_of_seqZ.
    split.
    - intros [_ ->]. reflexivity.
    - intros Hi. injection Hi as Hi. split; [|exact Hi].
      specialize (Hrange i Hi). lia. }
  split.
  { apply List.filter_In. split; [|exact H0].
    apply list_elem_of_In, elem_of_seqZ. lia. }
  split; [rewrite Hp, Hph; reflexivity|].
  intros i Hi. rewrite Hp in Hi. injection Hi as Hi.
  destruct (Z_le_gt_dec i (List.last (List.filter p (seqZ 0 13)) 0)) as [|Hgt];
    [assumption|].
  specialize (Hrange i Hi). rewrite Habove in Hi by lia. discriminate.
Qed.

End Progress.

(** The hypothesis of the first part of [progress_records_idempotent] at a
    record without a list of lessons. *)
Lemma progress_records_idempotent_witness :
  let after := Some [("completed_lessons", Json.JList [Json.JStr "hiragana_lesson_1"])] in
  GameManager.complete_lesson after "hiragana_lesson_1" = Ok after.
Proof.
  apply (proj1 (progress_records_idempotent (Some []) _ "hiragana_lesson_1")).
  reflexivity.
Defined.

(** The hypotheses of [complete_lesson_once] at a record with one lesson
    done. *)
Lemma complete_lesson_once_witness :
  let save_data :=
    [("completed_lessons", Json.JList (map Json.JStr ["hiragana_lesson_1"]))] in
  GameManager.complete_lesson None "hiragana_lesson_2" = Ok None
  /\ exists after ids',
       GameManager.complete_lesson (Some save_data) "hiragana_lesson_2" = Ok (Some after)
       /\ Json.dict_get "completed_lessons" after = Some (Json.JList (map Json.JStr ids'))
       /\ NoDup ids'
       /\ count_occ String.eq_dec ids' "hiragana_lesson_2" = 1%nat
       /\ (ids' = ["hiragana_lesson_1"]
           \/ ids' = (["hiragana_lesson_1"] ++ ["hiragana_lesson_2"])%list)
       /\ (forall key, key <> "completed_lessons" ->
             Json.dict_get key after = Json.dict_get key save_data).
Proof.
  apply (complete_lesson_once
           [("completed_lessons", Json.JList (map Json.JStr ["hiragana_lesson_1"]))]
           "hiragana_lesson_2" ["hiragana_lesson_1"]).
  - reflexivity.
  - apply NoDup_singleton.
Defined.

(** The hypothesis of [complete_minigame_unlocks] at a record with no
    minigame done. *)
Lemma complete_minigame_unlocks_witness :
  let save_data := [("completed_minigames", Json.JList (map Json.JStr []))] in
  exists after,
    GameManager.complete_minigame (Some save_data) "katakana_minigame_1" = Ok (Some after)
    /\ (forall i m required,
          0 < i < Config.TOTAL_MONUMENTS ->
          Config.MONUMENTS !! i = Some m ->
          Config.unlock_requires m = Some required ->
          String.prefix (required +:+ "_") "katakana_minigame_1" = true ->
          GameManager.is_monument_unlocked (Some after) i = Ok true)
    /\ (forall i,
          GameManager.is_monument_unlocked (Some save_data) i = Ok true ->
          GameManager.is_monument_unlocked (Some after) i = Ok true).
Proof.
  apply (complete_minigame_unlocks
           [("completed_minigames", Json.JList (map Json.JStr []))]
           "katakana_minigame_1" []).
  reflexivity.
Defined.

(** The hypothesis of [highest_unlocked_monument] at a record that
    completed a katakana minigame only: monument 2 is the highest. *)
Lemma highest_unlocked_monument_witness :
  let save_data :=
    [("completed_minigames", Json.JList (map Json.JStr ["katakana_minigame_1"]))] in
  GameManager.get_unlocked_monuments None = Ok [0]
  /\ GameManager.get_highest_unlocked_monument None = Ok 0
  /\ exists unlocked highest,
       GameManager.get_unlocked_monuments (Some save_data) = Ok unlocked
       /\ GameManager.get_highest_unlocked_monument (Some save_data) = Ok highest
       /\ (forall i, In i unlocked
                     <-> GameManager.is_monument_unlocked (Some save_data) i = Ok true)
       /\ In 0 unlocked
       /\ GameManager.is_monument_unlocked (Some save_data) highest = Ok true
       /\ (forall i, GameManager.is_monument_unlocked (Some save_data) i = Ok true ->
             i <= highest).
Proof.
  apply (highest_unlocked_monument
           [("completed_minigames", Json.JList (map Json.JStr ["katakana_minigame_1"]))]
           ["katakana_minigame_1"]).
  reflexivity.
Defined.

(** Unlocking is not chained: with one katakana minigame done, monument 2
    is unlocked while monument 1 is not. *)
Example unlocked_with_a_gap :
  GameManager.get_unlocked_monuments
    (Some [("completed_minigames", Json.JList [Json.JStr "katakana_minigame_1"])])
  = Ok [0; 2].
Proof. vm_compute. reflexivity. Qed.

(** ** Items in the save record *)

Section Items.
Import Json Config Progression Terms.

Lemma dict_set_set (key : string) (v w : json) (d : dict) :
  dict_set key v (dict_set key w d) = dict_set key v d.
Proof.
  induction d as [|[k u] d IH]; simpl.
  - rewrite String.eqb_refl. reflexivity.
  - destruct (String.eqb k key) eqn:E; simpl; rewrite E; [reflexivity|].
    rewrite IH. reflexivity.
Qed.

Lemma to_dict_read (it : SRSItem) :
  from_dict (item_id it) (to_dict it) = Ok (Some it).
Proof. destruct it as [c s n tc ta lr nr]. destruct s; reflexivity. Qed.

(** X22.  An item written with [to_dict] and read with [from_dict] under
    its own id is the item itself: stage, streak, totals and both time
    stamps survive the save record. *)
Theorem srs_item_round_trip (it : SRSItem) :
  from_dict (item_id it) (to_dict it) = Ok (Some it).
Proof. exact (to_dict_read it). Qed.

(** The two [setdefault] calls that open [get_srs_item] and
    [save_srs_item] read [mastered_characters] and the script's entry with
    an empty dict as default, and store what they read. *)
Lemma get_srs_item_shape (d : dict) (script c : string) :
  get_srs_item d script c =
  match from_option id (JDict []) (dict_get "mastered_characters" d) with
  | JDict mc =>
      let sdv := from_option id (JDict []) (dict_get script mc) in
      let d1 := dict_set "mastered_characters" (JDict (dict_set script sdv mc)) d in
      let* entry := stored_entry sdv c in
      match entry with
      | Some info => let* item := from_dict c info in Ok (item, d1)
      | None => Ok (Some (new_item c), d1)
      end
  | _ => Raise AttributeError
  end.
Proof.
  unfold get_srs_item, setdefault_dict.
  destruct (dict_get "mastered_characters" d) as [v|] eqn:Hmc;
    cbn [from_option id bind fst snd].
  - destruct v as [| | | | | |mc]; try reflexivity.
    destruct (dict_get script mc) as [w|] eqn:Hs; cbn [from_option id bind fst snd].
    + rewrite (dict_set_same script w mc Hs). reflexivity.
    + reflexivity.
  - cbn [dict_get from_option id bind fst snd dict_set].
    rewrite dict_set_set. reflexivity.
Qed.

Lemma save_srs_item_shape (d : dict) (script : string) (it : SRSItem) :
  save_srs_item d script it =
  match from_option id (JDict []) (dict_get "mastered_characters" d) with
  | JDict mc =>
      match from_option id (JDict []) (dict_get script mc) with
      | JDict sd =>
          Ok (dict_set "mastered_characters"
                (JDict (dict_set script
                          (JDict (dict_set (item_id it) (JDict (to_dict it)) sd)) mc)) d)
      | _ => Raise TypeError
      end
  | _ => Raise AttributeError
  end.
Proof.
  unfold save_srs_item, setdefault_dict.
  destruct (dict_get "mastered_characters" d) as [v|] eqn:Hmc;
    cbn [from_option id bind fst snd].
  - destruct v as [| | | | | |mc]; try reflexivity.
    destruct (dict_get script mc) as [w|] eqn:Hs; cbn [from_option id bind fst snd].
    + destruct w; reflexivity.
    + rewrite dict_set_set. reflexivity.
  - cbn [dict_get from_option id bind fst snd dict_set].
    rewrite String.eqb_refl. rewrite dict_set_set. reflexivity.
Qed.


Lemma item_read_shape (d : dict) (script c : string) :
  item_read d script c =
  match from_option id (JDict []) (dict_get "mastered_characters" d) with
  | JDict mc =>
      let* entry := stored_entry (from_option id (JDict []) (dict_get script mc)) c in
      match entry with
      | Some info => from_dict c info
      | None => Ok (Some (new_item c))
      end
  | _ => Raise AttributeError
  end.
Proof.
  unfold item_read. rewrite get_srs_item_shape.
  destruct (from_option id (JDict []) (dict_get "mastered_characters" d));
    try reflexivity.
  cbv zeta.
  destruct (stored_entry _ c) as [[info|]|e]; cbn [bind fst]; try reflexivity.
  destruct (from_dict c info); reflexivity.
Qed.

Lemma save_srs_item_result (d d' : dict) (script : string) (it : SRSItem) :
  save_srs_item d script it = Ok d' ->
  exists mc sd,
    from_option id (JDict []) (dict_get "mastered_characters" d) = JDict mc
    /\ from_option id (JDict []) (dict_get script mc) = JDict sd
    /\ d' = dict_set "mastered_characters"
              (JDict (dict_set script
                        (JDict (dict_set (item_id it) (JDict (to_dict it)) sd)) mc)) d.
Proof.
  rewrite save_srs_item_shape.
  destruct (from_option id (JDict []) (dict_get "mastered_characters" d))
    as [| | | | | |mc]; try discriminate.
  destruct (from_option id (JDict []) (dict_get script mc))
    as [| | | | | |sd] eqn:Hsd; try discriminate.
  intros H. injection H as <-. exists mc, sd. auto.
Qed.

Lemma saved_item_get (d d' : dict) (script : string) (it : SRSItem) :
  save_srs_item d script it = Ok d' ->
  get_srs_item d' script (item_id it) = Ok (Some it, d').
Proof.
  intros H. destruct (save_srs_item_result d d' script it H) as (mc & sd & _ & _ & ->).
  rewrite get_srs_item_shape. rewrite dict_get_set_eq. cbn [from_option id].
  rewrite dict_get_set_eq. cbn [from_option id]. cbv zeta.
  cbn [stored_entry]. rewrite dict_get_set_eq. cbn [bind].
  rewrite to_dict_read. cbn [bind].
  rewrite !dict_set_set. reflexivity.
Qed.

Lemma saved_item_frame (d d' : dict) (script : string) (it : SRSItem)
    (script' c : string) :
  save_srs_item d script it = Ok d' ->
  (script', c) <> (script, item_id it) ->
  item_read d' script' c = item_read d script' c.
Proof.
  intros H Hne.
  destruct (save_srs_item_result d d' script it H) as (mc & sd & Hmc & Hsd & ->).
  rewrite !item_read_shape. rewrite dict_get_set_eq, Hmc. cbn [from_option id].
  destruct (String.eq_dec script script') as [<-|Hs].
  - rewrite dict_get_set_eq, Hsd. cbn [from_option id stored_entry].
    rewrite dict_get_set_ne by congruence. reflexivity.
  - rewrite dict_get_set_ne by exact Hs. reflexivity.
Qed.

Lemma saved_item_keys (d d' : dict) (script : string) (it : SRSItem) (key : string) :
  save_srs_item d script it = Ok d' ->
  key <> "mastered_characters" ->
  dict_get key d' = dict_get key d.
Proof.
  intros H Hne. destruct (save_srs_item_result d d' script it H) as (mc & sd & _ & _ & ->).
  apply dict_get_set_ne. congruence.
Qed.

(** X23.  After [save_srs_item] has stored an item, [get_srs_item] for the
    item's script and id returns that item and leaves the record as it
    is; every other item of every script reads as before, and no field of
    the record other than [mastered_characters] has changed. *)
Theorem saved_item_read_back (d d' : dict) (script : string) (it : SRSItem) :
  save_srs_item d script it = Ok d' ->
  get_srs_item d' script (item_id it) = Ok (Some it, d')
  /\ (forall script' c, (script', c) <> (script, item_id it) ->
        item_read d' script' c = item_read d script' c)
  /\ (forall key, key <> "mastered_characters" -> dict_get key d' = dict_get key d).
Proof.
  intros H. split; [|split].
  - exact (saved_item_get d d' script it H).
  - intros script' c. exact (saved_item_frame d d' script it script' c H).
  - intros key. exact (saved_item_keys d d' script it key H).
Qed.

(** On a well-formed record the scripts' dicts are in place. *)
Lemma well_formed_script (slot : Z) (d : dict) (script : string) :
  well_formed slot d -> In script scripts ->
  exists mc sd, dict_get "mastered_characters" d = Some (JDict mc)
                /\ dict_get script mc = Some (JDict sd).
Proof.
  intros (_ & (mc & Hmc & Hscripts) & _) Hin.
  destruct (Hscripts script Hin) as [sd Hsd]. eauto.
Qed.

Lemma well_formed_get (slot : Z) (d d1 : dict) (script c : string)
    (got : option SRSItem) :
  well_formed slot d -> In script scripts ->
  get_srs_item d script c = Ok (got, d1) -> d1 = d.
Proof.
  intros Hwf Hin. destruct (well_formed_script slot d script Hwf Hin)
    as (mc & sd & Hmc & Hsd).
  rewrite get_srs_item_shape, Hmc. cbn [from_option id]. rewrite Hsd.
  cbn [from_option id]. cbv zeta.
  rewrite (dict_set_same script (JDict sd) mc Hsd).
  rewrite (dict_set_same "mastered_characters" (JDict mc) d Hmc).
  destruct (stored_entry (JDict sd) c) as [[info|]|e]; cbn [bind]; try discriminate.
  - destruct (from_dict c info); cbn [bind]; [|discriminate]. congruence.
  - congruence.
Qed.

Lemma well_formed_save (slot : Z) (d : dict) (script : string) (it : SRSItem) :
  well_formed slot d -> In script scripts ->
  exists d', save_srs_item d script it = Ok d' /\ well_formed slot d'.
Proof.
  intros Hwf Hin. destruct (well_formed_script slot d script Hwf Hin)
    as (mc & sd & Hmc & Hsd).
  rewrite save_srs_item_shape, Hmc. cbn [from_option id]. rewrite Hsd.
  cbn [from_option id]. eexists. split; [reflexivity|].
  destruct Hwf as (Hfields & (mc0 & Hmc0 & Hscripts) & Hlists & (pt & Hpt & Hnum)
                   & (cm & Hcm & Hint) & Hslot).
  repeat split.
  - intros key Hkey. auto using dict_mem_set_keep.
  - eexists. split; [apply dict_get_set_eq|].
    intros s Hs. destruct (String.eq_dec script s) as [<-|Hne].
    + rewrite dict_get_set_eq. eauto.
    + rewrite dict_get_set_ne by exact Hne.
      rewrite Hmc in Hmc0. injection Hmc0 as <-. apply Hscripts, Hs.
  - intros key Hkey. destruct (Hlists key Hkey) as [l Hl]. exists l.
    simpl in Hkey. rewrite dict_get_set_ne by intuition congruence. exact Hl.
  - exists pt. rewrite dict_get_set_ne by discriminate. auto.
  - exists cm. rewrite dict_get_set_ne by discriminate. auto.
  - rewrite dict_get_set_ne by discriminate. exact Hslot.
Qed.

(** X24.  A well-formed record, as [load_game] and [create_new_save]
    return it, takes an item for each of the three scripts:
    [save_srs_item] does not raise and the record stays well formed, and
    [get_srs_item] on it never changes the record. *)
Theorem loaded_record_takes_items (slot : Z) (d : dict) (script : string) :
  well_formed slot d -> In script scripts ->
  (forall it, exists d', save_srs_item d script it = Ok d' /\ well_formed slot d')
  /\ (forall c got d1, get_srs_item d script c = Ok (got, d1) -> d1 = d).
Proof.
  intros Hwf Hin. split.
  - intros it. exact (well_formed_save slot d script it Hwf Hin).
  - intros c got d1. exact (well_formed_get slot d d1 script c got Hwf Hin).
Qed.

End Items.

Section Tracked.
Import Json Config Progression Terms.
Variable F : float_model.

Lemma record_answer_returns (it : SRSItem) (now m : Q) (correct : bool) (k : Z) :
  exists it', record_answer F now it correct k m = Ok it' /\ item_id it' = item_id it.
Proof.
  unfold record_answer. destruct correct; simpl.
  - destruct (consecutive_correct it + 1 >=? k); destruct (stage it); simpl;
      eexists; split; reflexivity.
  - destruct (stage it); simpl; eexists; split; reflexivity.
Qed.

Lemma from_dict_id (c : string) (info : dict) (it : SRSItem) :
  from_dict c info = Ok (Some it) -> item_id it = c.
Proof.
  unfold from_dict. destruct (_stage_from_name _); cbn [bind]; [|discriminate].
  destruct (stored_int info "consecutive" 0), (stored_int info "total_correct" 0),
    (stored_int info "total_attempts" 0), (stored_float info "last_reviewed" 0),
    (stored_float info "next_review" 0); try discriminate.
  intros H. injection H as <-. reflexivity.
Qed.

Lemma item_read_id (d : dict) (script c : string) (it : SRSItem) :
  item_read d script c = Ok (Some it) -> item_id it = c.
Proof.
  rewrite item_read_shape.
  destruct (from_option id (JDict []) (dict_get "mastered_characters" d));
    try discriminate.
  destruct (stored_entry _ c) as [[info|]|e]; cbn [bind]; try discriminate.
  - apply from_dict_id.
  - intros H. injection H as <-. reflexivity.
Qed.

(** X25.  An answer given through the tracker is the answer on the stored
    item: on a well-formed record, [record_character_answer] for a
    character of one of the three scripts returns the stage that
    [record_answer] gives the item read from the record, under the
    threshold and interval multiplier of the tracker's difficulty, and
    stores that item, so the next read returns it; the other items, the
    settings and the record's form stay as they are. *)
Theorem tracked_answer_persists (now : Q) (self : ProgressionTracker) (slot : Z)
    (script c : string) (correct : bool) (it : SRSItem) :
  well_formed slot (_data self) -> In script scripts ->
  item_read (_data self) script c = Ok (Some it) ->
  exists it' self',
    record_answer F now it correct
      (consecutive_correct_to_master (_diff_settings self))
      (rnd F (srs_interval_mult (_diff_settings self))) = Ok it'
    /\ record_character_answer F now self script c correct
       = Ok (Some (stage it', self'))
    /\ item_read (_data self') script c = Ok (Some it')
    /\ (forall script' c', (script', c') <> (script, c) ->
          item_read (_data self') script' c' = item_read (_data self) script' c')
    /\ _diff_settings self' = _diff_settings self
    /\ well_formed slot (_data self').
Proof.
  intros Hwf Hin Hread.
  pose proof (item_read_id _ _ _ _ Hread) as Hid.
  unfold item_read in Hread.
  destruct (get_srs_item (_data self) script c) as [[got d1]|e] eqn:Hget;
    cbn [bind fst] in Hread; [|discriminate].
  injection Hread as ->.
  pose proof (well_formed_get slot _ _ _ _ _ Hwf Hin Hget) as ->.
  destruct (record_answer_returns it now
              (rnd F (srs_interval_mult (_diff_settings self))) correct
              (consecutive_correct_to_master (_diff_settings self)))
    as (it' & Hans & Hid').
  destruct (well_formed_save slot (_data self) script it' Hwf Hin) as (d' & Hsave & Hwf').
  exists it', (set_data d' self). split; [exact Hans|]. split; [|split; [|split]].
  - unfold record_character_answer. rewrite Hget. cbn [bind fst snd].
    rewrite Hans. cbn [bind]. rewrite Hsave. reflexivity.
  - unfold item_read. cbn [_data set_data].
    assert (Hc : c = item_id it') by congruence. rewrite Hc.
    rewrite (saved_item_get _ _ _ _ Hsave). reflexivity.
  - intros script' c' Hne. cbn [_data set_data].
    apply (saved_item_frame _ _ _ _ _ _ Hsave). congruence.
  - split; [reflexivity | exact Hwf'].
Qed.

End Tracked.

Section Counting.
Import Json Config Progression Terms.

Lemma count_mastered_set (c : string) (v : json) (sd : dict) :
  count_mastered (dict_values (dict_set c v sd)) =
  count_mastered (dict_values sd)
  - (if from_option is_mastered_info false (dict_get c sd) then 1 else 0)
  + (if is_mastered_info v then 1 else 0).
Proof.
  unfold count_mastered, dict_values.
  induction sd as [|[k w] sd IH]; cbn [dict_set dict_get map List.filter snd].
  - cbn [from_option]. destruct (is_mastered_info v); reflexivity.
  - destruct (String.eqb k c); cbn [map List.filter snd from_option].
    + destruct (is_mastered_info v), (is_mastered_info w); cbn [length]; lia.
    + destruct (is_mastered_info w); cbn [length]; lia.
Qed.

Lemma mastered_info_of_item (it : SRSItem) :
  (if is_mastered_info (JDict (to_dict it)) then 1 else 0) = counts_as_mastered it.
Proof. destruct it as [c s n tc ta lr nr]. destruct s; reflexivity. Qed.

Lemma stage_from_name_mastered (v : option json) (s : MasteryStage) :
  _stage_from_name (from_option id (JStr "new") v) = Ok s ->
  (match v with Some (JStr name) => String.eqb name "mastered" | _ => false end)
  = match s with MASTERED => true | _ => false end.
Proof.
  destruct v as [[| | | |name| |]|]; cbn [from_option id _stage_from_name];
    try discriminate; try (intros H; injection H as <-; reflexivity).
  intros H. injection H as <-.
  destruct (String.eqb_spec name "new") as [->|_]; [reflexivity|].
  destruct (String.eqb_spec name "learning") as [->|_]; [reflexivity|].
  destruct (String.eqb_spec name "review") as [->|_]; [reflexivity|].
  destruct (String.eqb name "mastered"); reflexivity.
Qed.

Lemma from_dict_stage (c : string) (info : dict) (it : SRSItem) :
  from_dict c info = Ok (Some it) ->
  (if is_mastered_info (JDict info) then 1 else 0) = counts_as_mastered it.
Proof.
  unfold from_dict.
  destruct (_stage_from_name _) as [s|] eqn:Hs; cbn [bind]; [|discriminate].
  destruct (stored_int info "consecutive" 0), (stored_int info "total_correct" 0),
    (stored_int info "total_attempts" 0), (stored_float info "last_reviewed" 0),
    (stored_float info "next_review" 0); try discriminate.
  intros H. injection H as <-. unfold counts_as_mastered. cbn [stage is_mastered_info].
  rewrite (stage_from_name_mastered _ _ Hs). destruct s; reflexivity.
Qed.

(** X26.  The mastered count that the completion percentage uses follows
    the items stored: saving an item changes the script's count by the
    item's own contribution (one when its stage is [MASTERED]) less that
    of the item read from the record before, and leaves the counts of the
    other scripts alone. *)
Theorem saved_item_counted (d d' : dict) (script : string) (it old : SRSItem) :
  save_srs_item d script it = Ok d' ->
  item_read d script (item_id it) = Ok (Some old) ->
  exists n,
    count_script_mastered d script = Ok n
    /\ count_script_mastered d' script
       = Ok (n - counts_as_mastered old + counts_as_mastered it)
    /\ (forall script', script' <> script ->
          count_script_mastered d' script' = count_script_mastered d script').
Proof.
  intros Hsave Hread.
  destruct (save_srs_item_result d d' script it Hsave) as (mc & sd & Hmc & Hsd & ->).
  rewrite item_read_shape, Hmc, Hsd in Hread. cbn [stored_entry] in Hread.
  exists (count_mastered (dict_values sd)).
  unfold count_script_mastered. rewrite dict_get_set_eq, Hmc.
  cbn [from_option id get_default]. rewrite dict_get_set_eq, !Hsd.
  cbn [from_option id bind values].
  split; [reflexivity|]. split.
  - rewrite count_mastered_set, mastered_info_of_item. do 3 f_equal.
    destruct (dict_get (item_id it) sd) as [[| | | | | |info]|];
      cbn [bind from_option] in Hread |- *;
      try (injection Hread as <-; reflexivity).
    apply (from_dict_stage _ _ _ Hread).
  - intros script' Hne. rewrite dict_get_set_ne by congruence. reflexivity.
Qed.

End Counting.

(** ** Completion follows progress *)

Section CompletionGrowth.
Import Json Config Progression GameManager Terms.
Variable F : float_model.
Hypothesis Hrnd : rounds_monotonically F.
Hypothesis Hround : round1_monotone F.

Lemma py_min_mono (a x y : Q) : (x <= y)%Q -> (py_min a x <= py_min a y)%Q.
Proof.
  unfold py_min. intros H. destruct (Qlt_le_dec x a), (Qlt_le_dec y a); lra.
Qed.

Lemma fraction_done_mono (count count' expected : Z) :
  0 < expected -> count <= count' ->
  (fraction_done F count expected <= fraction_done F count' expected)%Q.
Proof using Hrnd.
  intros He Hc. unfold fraction_done.
  destruct (Z.eqb_spec expected 0) as [->|_]; [lia|].
  apply py_min_mono, (rnd_mono F Hrnd). unfold Qdiv.
  apply Qmult_le_compat_r; [rewrite <- Zle_Qle; exact Hc|].
  apply Qinv_le_0_compat. replace 0%Q with (inject_Z 0) by reflexivity.
  rewrite <- Zle_Qle. lia.
Qed.

Lemma weighted_score_mono (l l' m m' s : Q) :
  (l <= l')%Q -> (m <= m')%Q ->
  (weighted_score F l m s <= weighted_score F l' m' s)%Q.
Proof using Hrnd.
  intros Hl Hm. unfold weighted_score.
  assert (H30 : (0 <= rnd F (30 # 100))%Q) by (apply (rnd_nonneg F Hrnd); lra).
  apply (rnd_mono F Hrnd). apply Qplus_le_compat; [|lra].
  apply (rnd_mono F Hrnd). apply Qplus_le_compat;
    apply (rnd_mono F Hrnd), Qmult_le_compat_r; assumption.
Qed.

Lemma count_startswith_filter (prefix : string) (ids : list string) :
  count_startswith prefix (map JStr ids)
  = Ok (Z.of_nat (length (List.filter (String.prefix prefix) ids))).
Proof.
  induction ids as [|a ids IH]; [reflexivity|].
  cbn [map count_startswith startswith bind List.filter]. rewrite IH. cbn [bind].
  destruct (String.prefix prefix a); cbn [length]; f_equal; lia.
Qed.

(** One more identifier in a progress list lowers no count. *)
Lemma count_completed_grows (d : dict) (key x : string) (ids : list string)
    (k prefix : string) (n : Z) :
  dict_get key d = Some (JList (map JStr ids)) ->
  count_completed d k prefix = Ok n ->
  exists n',
    count_completed (dict_set key (JList (map JStr (ids ++ [x])%list)) d) k prefix = Ok n'
    /\ n <= n'.
Proof.
  intros Hget. unfold count_completed.
  destruct (String.eq_dec key k) as [<-|Hne].
  - rewrite dict_get_set_eq, Hget. cbn [from_option id iter bind].
    rewrite !count_startswith_filter. intros H. injection H as <-.
    eexists. split; [reflexivity|].
    rewrite List.filter_app, List.length_app. lia.
  - rewrite dict_get_set_ne by exact Hne. intros ->. exists n. split; [reflexivity|lia].
Qed.

Lemma mastery_pct_frame (d : dict) (key : string) (v : json) (category : string) :
  key <> "mastered_characters" ->
  mastery_pct_for F (dict_set key v d) category = mastery_pct_for F d category.
Proof.
  intros Hne. unfold mastery_pct_for, mastered_count_for, count_script_mastered.
  rewrite dict_get_set_ne by exact Hne. reflexivity.
Qed.

Lemma completion_after_append (d : dict) (key x : string) (ids : list string)
    (monument_id : Z) (v : Q) :
  key <> "mastered_characters" ->
  dict_get key d = Some (JList (map JStr ids)) ->
  monument_completion_percentage F d monument_id = Ok v ->
  exists v',
    monument_completion_percentage F
      (dict_set key (JList (map JStr (ids ++ [x])%list)) d) monument_id = Ok v'
    /\ (v <= v')%Q.
Proof using Hrnd Hround.
  intros Hne Hget. unfold monument_completion_percentage.
  destruct (MONUMENTS !! monument_id) as [m|].
  2:{ intros H. injection H as <-. exists 0%Q. split; [reflexivity|lra]. }
  destruct (count_completed d "completed_lessons" _) as [lc|e] eqn:Hl;
    cbn [bind]; [|discriminate].
  destruct (count_completed d "completed_minigames" _) as [mc|e] eqn:Hm;
    cbn [bind]; [|discriminate].
  destruct (count_completed_grows d key x ids _ _ lc Hget Hl) as (lc' & -> & Hlc).
  destruct (count_completed_grows d key x ids _ _ mc Hget Hm) as (mc' & -> & Hmc).
  cbn [bind]. rewrite mastery_pct_frame by exact Hne.
  destruct (mastery_pct_for F d (category m)) as [mp|e]; cbn [bind]; [|discriminate].
  intros H. injection H as <-. eexists. split; [reflexivity|].
  apply Hround, (rnd_mono F Hrnd). apply Qmult_le_compat_r; [|lra].
  apply weighted_score_mono; apply fraction_done_mono; lia.
Qed.

Lemma completion_after_progress (d after : dict) (key x : string) (ids : list string)
    (monument_id : Z) (v : Q) :
  key <> "mastered_characters" ->
  dict_get key d = Some (JList (map JStr ids)) ->
  append_if_absent (Some d) key x = Ok (Some after) ->
  monument_completion_percentage F d monument_id = Ok v ->
  exists v',
    monument_completion_percentage F after monument_id = Ok v' /\ (v <= v')%Q.
Proof using Hrnd Hround.
  intros Hne Hget. rewrite (append_if_absent_strings d key x ids Hget).
  intros H Hv. injection H as <-.
  destruct (bool_decide (x ∈ ids)).
  - exists v. split; [exact Hv|lra].
  - exact (completion_after_append d key x ids monument_id v Hne Hget Hv).
Qed.

(** X27.  Progress never lowers a completion percentage: on a record
    whose lesson (minigame) list is a list of identifiers, whenever
    [monument_completion_percentage] returns a value for a monument, it
    returns one at least as large after [complete_lesson]
    ([complete_minigame]), whatever lesson or minigame was completed.  The
    float arithmetic may be any monotone rounding. *)
Theorem completion_never_drops (d : dict) (x : string) (monument_id : Z) (v : Q) :
  monument_completion_percentage F d monument_id = Ok v ->
  (forall ids, dict_get "completed_lessons" d = Some (JList (map JStr ids)) ->
     exists after v',
       complete_lesson (Some d) x = Ok (Some after)
       /\ monument_completion_percentage F after monument_id = Ok v' /\ (v <= v')%Q)
  /\ (forall ids, dict_get "completed_minigames" d = Some (JList (map JStr ids)) ->
        exists after v',
          complete_minigame (Some d) x = Ok (Some after)
          /\ monument_completion_percentage F after monument_id = Ok v' /\ (v <= v')%Q).
Proof using Hrnd Hround.
  intros Hv. split; intros ids Hget.
  - pose proof (append_if_absent_strings d "completed_lessons" x ids Hget) as Ha.
    destruct (completion_after_progress d _ "completed_lessons" x ids monument_id v
                ltac:(discriminate) Hget Ha Hv) as (v' & Hv' & Hle).
    unfold complete_lesson. eauto.
  - pose proof (append_if_absent_strings d "completed_minigames" x ids Hget) as Ha.
    destruct (completion_after_progress d _ "completed_minigames" x ids monument_id v
                ltac:(discriminate) Hget Ha Hv) as (v' & Hv' & Hle).
    unfold complete_minigame. eauto.
Qed.

End CompletionGrowth.

(** The hypothesis of [saved_item_read_back] at the first item stored in
    an empty record. *)
Lemma saved_item_read_back_witness :
  let it := Progression.new_item "a" in
  let d' := [("mastered_characters",
              Json.JDict [("hiragana",
                           Json.JDict [("a", Json.JDict (Progression.to_dict it))])])] in
  Progression.get_srs_item d' "hiragana" "a" = Ok (Some it, d')
  /\ (forall script' c, (script', c) <> ("hiragana", "a") ->
        Terms.item_read d' script' c = Terms.item_read [] script' c)
  /\ (forall key, key <> "mastered_characters" ->
        Json.dict_get key d' = Json.dict_get key []).
Proof.
  intros it d'.
  apply (saved_item_read_back [] d' "hiragana" (Progression.new_item "a")).
  reflexivity.
Defined.

(** The hypotheses of [loaded_record_takes_items] at the record that
    validation makes of an empty document. *)
Lemma loaded_record_takes_items_witness :
  let d := SaveSystem._validate_save_data [] 1 in
  (forall it, exists d',
      Progression.save_srs_item d "kanji" it = Ok d' /\ Terms.well_formed 1 d')
  /\ (forall c got d1, Progression.get_srs_item d "kanji" c = Ok (got, d1) -> d1 = d).
Proof.
  intros d.
  apply (loaded_record_takes_items 1 (SaveSystem._validate_save_data [] 1) "kanji").
  - apply validated_is_well_formed.
  - unfold Terms.scripts. simpl. auto.
Defined.

(** The tracker of the record that validation makes of an empty document:
    normal difficulty. *)
Example tracker_of_default_record :
  Progression.tracker_init (SaveSystem._validate_save_data [] 1)
  = Ok {| Progression._data := SaveSystem._validate_save_data [] 1;
          Progression._difficulty := Json.JStr "normal";
          Progression._diff_settings :=
            {| Config.srs_interval_mult := 1; Config.xp_multiplier := 1;
               Config.consecutive_correct_to_master := 5 |} |}.
Proof. reflexivity. Qed.

(** Validation lets any [difficulty] through; one that cannot be hashed
    stops the tracker's constructor. *)
Example tracker_of_unhashable_difficulty :
  Progression.tracker_init
    (SaveSystem._validate_save_data [("difficulty", Json.JList [])] 1)
  = Raise TypeError.
Proof. reflexivity. Qed.

(** The hypotheses of [tracked_answer_persists] at the first answer for a
    character on that tracker, in exact arithmetic. *)
Lemma tracked_answer_persists_witness :
  let self := {| Progression._data := SaveSystem._validate_save_data [] 1;
                 Progression._difficulty := Json.JStr "normal";
                 Progression._diff_settings :=
                   {| Config.srs_interval_mult := 1; Config.xp_multiplier := 1;
                      Config.consecutive_correct_to_master := 5 |} |} in
  exists it' self',
    Progression.record_answer exact_arith 1000 (Progression.new_item "a") true 5
      (rnd exact_arith 1) = Ok it'
    /\ Progression.record_character_answer exact_arith 1000 self "hiragana" "a" true
       = Ok (Some (Progression.stage it', self'))
    /\ Terms.item_read (Progression._data self') "hiragana" "a" = Ok (Some it')
    /\ (forall script' c', (script', c') <> ("hiragana", "a") ->
          Terms.item_read (Progression._data self') script' c'
          = Terms.item_read (Progression._data self) script' c')
    /\ Progression._diff_settings self' = Progression._diff_settings self
    /\ Terms.well_formed 1 (Progression._data self').
Proof.
  intros self.
  apply (tracked_answer_persists exact_arith 1000 self 1 "hiragana" "a" true
           (Progression.new_item "a")).
  - apply validated_is_well_formed.
  - unfold Terms.scripts. simpl. auto.
  - reflexivity.
Defined.

(** The hypotheses of [saved_item_counted] at a mastered item stored in an
    empty record. *)
Lemma saved_item_counted_witness :
  let it := {| Progression.item_id := "a"; Progression.stage := Progression.MASTERED;
               Progression.consecutive_correct := 0; Progression.total_correct := 15;
               Progression.total_attempts := 15; Progression.last_reviewed := 1000;
               Progression.next_review := 605800 |} in
  let d' := [("mastered_characters",
              Json.JDict [("hiragana",
                           Json.JDict [("a", Json.JDict (Progression.to_dict it))])])] in
  exists n,
    Progression.count_script_mastered [] "hiragana" = Ok n
    /\ Progression.count_script_mastered d' "hiragana"
       = Ok (n - Terms.counts_as_mastered (Progression.new_item "a")
             + Terms.counts_as_mastered it)
    /\ (forall script', script' <> "hiragana" ->
          Progression.count_script_mastered d' script'
          = Progression.count_script_mastered [] script').
Proof.
  intros it d'.
  apply (saved_item_counted [] d' "hiragana" it (Progression.new_item "a"));
    reflexivity.
Defined.

(** The hypotheses of [completion_never_drops] in exact arithmetic, at a
    record with one hiragana lesson done: 6.0 percent of the Hiragana
    Temple. *)
Lemma completion_never_drops_witness :
  let d := [("completed_lessons", Json.JList (map Json.JStr ["hiragana_lesson_1"]));
            ("completed_minigames", Json.JList (map Json.JStr []))] in
  (forall ids,
     Json.dict_get "completed_lessons" d = Some (Json.JList (map Json.JStr ids)) ->
     exists after v',
       GameManager.complete_lesson (Some d) "hiragana_lesson_2" = Ok (Some after)
       /\ Progression.monument_completion_percentage exact_arith after 0 = Ok v'
       /\ (60 # 10 <= v')%Q)
  /\ (forall ids,
        Json.dict_get "completed_minigames" d = Some (Json.JList (map Json.JStr ids)) ->
        exists after v',
          GameManager.complete_minigame (Some d) "hiragana_lesson_2" = Ok (Some after)
          /\ Progression.monument_completion_percentage exact_arith after 0 = Ok v'
          /\ (60 # 10 <= v')%Q).
Proof.
  intros d.
  apply (completion_never_drops exact_arith exact_rounds_monotonically
           exact_round1_monotone d "hiragana_lesson_2" 0 (60 # 10)).
  vm_compute. reflexivity.
Defined.

(** A second hiragana lesson brings the Hiragana Temple from 6.0 to 12.0
    percent. *)
Example second_lesson_counts :
  let d := [("completed_lessons", Json.JList [Json.JStr "hiragana_lesson_1"]);
            ("completed_minigames", Json.JList [])] in
  (let* after := GameManager.complete_lesson (Some d) "hiragana_lesson_2" in
   match after with
   | Some after => Progression.monument_completion_percentage exact_arith after 0
   | None => Raise KeyError
   end) = Ok (120 # 10).
Proof. vm_compute. reflexivity. Qed.

(** ** Awarding XP *)

Section Awards.
Import Json Config Progression Terms.
Variable F : float_model.
Hypothesis Hrnd : rounds_closely F.
Hypothesis Hpow : pow_closely F.
Hypothesis Hmono : rounds_monotonically F.

Lemma rewards_nonneg (reward_key : string) :
  0 <= from_option id 0 (XP_REWARDS !! reward_key).
Proof.
  destruct (XP_REWARDS !! reward_key) as [v|] eqn:E; cbn [from_option id]; [|lia].
  apply elem_of_map_to_list in E.
  assert (Hall : Forall (fun kv => 0 <= kv.2) (map_to_list XP_REWARDS)).
  { vm_compute. repeat constructor; discriminate. }
  rewrite Forall_forall in Hall. apply (Hall _ E).
Qed.

Lemma multipliers_nonneg (difficulty : json) (settings : difficulty_settings) :
  settings_for difficulty = Ok settings -> (0 <= xp_multiplier settings)%Q.
Proof.
  assert (Hall : Forall (fun kv => (0 <= xp_multiplier kv.2)%Q)
                   (map_to_list DIFFICULTY_SETTINGS)).
  { vm_compute. repeat constructor; discriminate. }
  rewrite Forall_forall in Hall.
  unfold settings_for.
  destruct (DIFFICULTY_SETTINGS !! DEFAULT_DIFFICULTY) as [dflt|] eqn:Ed; [|discriminate].
  assert (Hd : (0 <= xp_multiplier dflt)%Q).
  { apply elem_of_map_to_list in Ed. apply (Hall _ Ed). }
  destruct difficulty as [| | | |s| |]; try discriminate;
    try (intros H; injection H as <-; exact Hd).
  intros H. injection H as <-.
  destruct (DIFFICULTY_SETTINGS !! s) as [v|] eqn:E; cbn [from_option id]; [|exact Hd].
  apply elem_of_map_to_list in E. apply (Hall _ E).
Qed.

Lemma calculate_xp_reward_nonneg (reward_key : string) (difficulty : json) (g : Z) :
  calculate_xp_reward F reward_key difficulty = Ok g -> 0 <= g.
Proof using Hmono.
  unfold calculate_xp_reward.
  destruct (settings_for difficulty) as [settings|e] eqn:Es; cbn [bind]; [|discriminate].
  intros H. injection H as <-.
  pose proof (rewards_nonneg reward_key) as Hb.
  pose proof (multipliers_nonneg _ _ Es) as Hm.
  assert (H0 : (0 <= rnd F (inject_Z (from_option id 0%Z (XP_REWARDS !! reward_key))
                             * rnd F (xp_multiplier settings)))%Q).
  { apply (rnd_nonneg F Hmono). apply Qmult_le_0_compat.
    - replace 0%Q with (inject_Z 0) by reflexivity. rewrite <- Zle_Qle. exact Hb.
    - apply (rnd_nonneg F Hmono), Hm. }
  apply Qceiling_resp_le in H0. exact H0.
Qed.


(** X28.  On a tracker built from a record whose [player_xp] and
    [player_level] are absent or integers, [award_xp] returns; the XP
    gained is not negative, and zero for an unknown reward key; the new
    total is the old one plus the gain; the level returned and stored is
    [level_from_xp] of the total stored; [leveled_up] tells whether that
    level exceeds the level found; when the level found was the level of
    the old total, the new level is not below it; no other field
    changes. *)
Theorem award_xp_keeps_level (d : dict) (self : ProgressionTracker)
    (reward_key : string) (xp lv : Z) :
  tracker_init d = Ok self ->
  from_option id (JInt 0) (dict_get "player_xp" d) = JInt xp ->
  from_option id (JInt 1) (dict_get "player_level" d) = JInt lv ->
  exists award self',
    award_xp F self reward_key = Ok (Some (award, self'))
    /\ 0 <= award_xp_gained award
    /\ (XP_REWARDS !! reward_key = None -> award_xp_gained award = 0)
    /\ award_new_total_xp award = xp + award_xp_gained award
    /\ award_level award = level_from_xp F (award_new_total_xp award)
    /\ dict_get "player_xp" (_data self') = Some (JInt (award_new_total_xp award))
    /\ dict_get "player_level" (_data self') = Some (JInt (award_level award))
    /\ award_leveled_up award = (award_level award >? lv)
    /\ (lv = level_from_xp F xp -> lv <= award_level award)
    /\ (forall key, key <> "player_xp" -> key <> "player_level" ->
          dict_get key (_data self') = dict_get key d).
Proof using Hrnd Hpow Hmono.
  intros Hinit Hxp Hlv. unfold tracker_init in Hinit.
  destruct (settings_for _) as [settings|e] eqn:Es; cbn [bind] in Hinit; [|discriminate].
  injection Hinit as <-.
  unfold award_xp. cbn [_data _difficulty].
  destruct (calculate_xp_reward F reward_key _) as [g|e] eqn:Eg.
  2:{ unfold calculate_xp_reward in Eg. rewrite Es in Eg. discriminate. }
  pose proof (calculate_xp_reward_nonneg _ _ _ Eg) as Hg.
  cbn [bind]. rewrite Hxp, Hlv. cbn [plus_int bind int_gt].
  eexists. eexists. split; [reflexivity|]. cbn [award_xp_gained award_new_total_xp
    award_level award_leveled_up _data set_data].
  split; [exact Hg|]. split.
  { intros Hnone. unfold calculate_xp_reward in Eg. rewrite Es, Hnone in Eg.
    cbn [bind from_option id] in Eg. injection Eg as <-.
    assert (Hz : (rnd F (inject_Z 0 * rnd F (xp_multiplier settings)) == 0)%Q).
    { apply (rnd_of_zero F Hmono). apply Qmult_0_l. }
    rewrite Hz. reflexivity. }
  split; [reflexivity|]. split; [reflexivity|]. split.
  { rewrite dict_get_set_ne by discriminate. apply dict_get_set_eq. }
  split; [apply dict_get_set_eq|]. split; [reflexivity|]. split.
  - intros ->. destruct (level_bracket F xp) as (Hb & Hlo & _). cbn zeta in *.
    apply (level_largest F Hrnd Hpow (xp + g)); [exact Hb | lia].
  - intros key H1 H2. rewrite !dict_get_set_ne by congruence. reflexivity.
Qed.

End Awards.

(** ** The summary of a slot *)

Section Summary.
Import Json Config SaveSystem Terms.
Variable SAVE_DIR : string.

(** A record that [load_game] returns is well formed. *)
Lemma load_game_well_formed (e : env) (fs fs' : gmap string file) (slot : Z)
    (record : dict) :
  load_game SAVE_DIR e fs slot = Ok (Some record, fs') ->
  well_formed slot record.
Proof.
  unfold load_game. destruct (_validate_slot slot); cbn [bind]; [|discriminate].
  intros Hload. cbn [load_loop] in Hload.
  assert (Hfrom : exists fs0 path label,
            load_from SAVE_DIR e fs0 slot path label = Ok (Some record, fs')).
  { destruct (load_from SAVE_DIR e fs slot (_slot_filepath SAVE_DIR slot) "primary")
      as [[[r1|] fs1]|] eqn:E1; cbn [bind] in Hload; [| |discriminate].
    - injection Hload as <- <-. eauto.
    - destruct (load_from SAVE_DIR e fs1 slot (_backup_filepath SAVE_DIR slot) "backup")
        as [[[r2|] fs2]|] eqn:E2; cbn [bind] in Hload; try discriminate.
      injection Hload as <- <-. eauto. }
  destruct Hfrom as (fs0 & path & label & Hfrom).
  destruct (load_from_validated SAVE_DIR e fs0 fs' slot path label record Hfrom)
    as (source & _ & [-> | ->]).
  - apply validated_is_well_formed.
  - apply (stamped_well_formed e slot), validated_is_well_formed.
Qed.

Lemma summary_lookup (key : string) (a b c d5 e5 f : json) :
  let summary := [("slot", a); ("player_name", b); ("current_monument", c);
                  ("total_play_time", d5); ("last_played", e5); ("difficulty", f)] in
  (In key summary_fields ->
     dict_get key summary
     = Some (if String.eqb key "slot" then a
             else if String.eqb key "player_name" then b
             else if String.eqb key "current_monument" then c
             else if String.eqb key "total_play_time" then d5
             else if String.eqb key "last_played" then e5 else f))
  /\ (~ In key summary_fields -> dict_get key summary = None).
Proof.
  cbn zeta. split.
  - intros [<-|[<-|[<-|[<-|[<-|[<-|[]]]]]]]; reflexivity.
  - intros Hnot. unfold summary_fields in Hnot. cbn [dict_get].
    repeat match goal with
           | |- context [String.eqb ?k key] =>
               destruct (String.eqb_spec k key) as [<-|_];
               [exfalso; apply Hnot; simpl; tauto|]
           end.
    reflexivity.
Qed.

(** X29.  On a valid slot [get_save_summary] ends as [load_game] does.
    Where [load_game] raises, which it does exactly for a read that
    raises an exception it does not catch, [get_save_summary] raises the
    same exception; where [load_game] returns [None], so does the
    summary; and a record that [load_game] returns is well formed,
    whichever file it came from, so that the summary is a dict of exactly
    six fields, [slot] being the slot asked for and each field holding the
    value the loaded record has for it: no error of its own, and no
    fallback value is ever shown. *)
Theorem loaded_record_summary (e : env) (fs : gmap string file) (slot : Z) :
  1 <= slot <= MAX_SAVE_SLOTS ->
  match load_game SAVE_DIR e fs slot with
  | Raise ex =>
      get_save_summary SAVE_DIR e fs slot = Raise ex
      /\ (read_escapes (fs !! _slot_filepath SAVE_DIR slot) ex
          \/ (passed_over (fs !! _slot_filepath SAVE_DIR slot)
              /\ read_escapes (fs !! _backup_filepath SAVE_DIR slot) ex))
  | Ok (None, fs') => get_save_summary SAVE_DIR e fs slot = Ok (None, fs')
  | Ok (Some record, fs') =>
      well_formed slot record
      /\ exists summary,
           get_save_summary SAVE_DIR e fs slot = Ok (Some summary, fs')
           /\ dict_get "slot" summary = Some (JInt slot)
           /\ (forall key, In key summary_fields ->
                 exists v, dict_get key record = Some v
                           /\ dict_get key summary = Some v)
           /\ (forall key, ~ In key summary_fields -> dict_get key summary = None)
  end.
Proof.
  intros Hslot.
  pose proof (load_game_cases SAVE_DIR e fs slot Hslot) as Hcases.
  unfold get_save_summary.
  destruct (load_game SAVE_DIR e fs slot) as [[[record|] fs']|ex] eqn:Hload;
    cbn [bind fst snd]; [| reflexivity |].
  2:{ split; [reflexivity|].
      destruct Hcases as [(_ & _ & H)|[(r & fs2 & H & _)|(ex' & H & Hwhy)]];
        [congruence | congruence |].
      assert (ex' = ex) as -> by congruence. exact Hwhy. }
  pose proof (load_game_well_formed e fs fs' slot record Hload) as Hwf.
  split; [exact Hwf|].
  destruct Hwf as (Hfields & _ & _ & _ & _ & Hs). rewrite Hs.
  assert (Hpresent : forall key, In key summary_fields ->
            exists v, dict_get key record = Some v).
  { intros key Hkey.
    assert (Hmem : dict_mem key record = true).
    { apply Hfields. unfold summary_fields in Hkey. unfold template_fields.
      simpl in Hkey |- *. tauto. }
    apply dict_mem_get in Hmem.
    destruct (dict_get key record) as [v|]; [eauto | congruence]. }
  eexists. split; [reflexivity|]. split; [reflexivity|]. split.
  - intros key Hkey. destruct (Hpresent key Hkey) as [v Hv]. exists v.
    split; [exact Hv|].
    rewrite (proj1 (summary_lookup key _ _ _ _ _ _) Hkey).
    destruct Hkey as [<-|[<-|[<-|[<-|[<-|[<-|[]]]]]]];
      cbn [String.eqb Ascii.eqb Bool.eqb]; try rewrite Hv; try reflexivity.
    congruence.
  - intros key Hkey. apply (proj2 (summary_lookup key _ _ _ _ _ _) Hkey).
Qed.

End Summary.

(** The hypotheses of [award_xp_keeps_level] in exact arithmetic, at the
    first lesson completed on the record that validation makes of an
    empty document. *)
Lemma award_xp_keeps_level_witness :
  let d := SaveSystem._validate_save_data [] 1 in
  let self := {| Progression._data := d;
                 Progression._difficulty := Json.JStr "normal";
                 Progression._diff_settings :=
                   {| Config.srs_interval_mult := 1; Config.xp_multiplier := 1;
                      Config.consecutive_correct_to_master := 5 |} |} in
  exists award self',
    Progression.award_xp exact_arith self "lesson_complete" = Ok (Some (award, self'))
    /\ 0 <= Progression.award_xp_gained award
    /\ (Config.XP_REWARDS !! "lesson_complete" = None ->
        Progression.award_xp_gained award = 0)
    /\ Progression.award_new_total_xp award = 0 + Progression.award_xp_gained award
    /\ Progression.award_level award
       = Progression.level_from_xp exact_arith (Progression.award_new_total_xp award)
    /\ Json.dict_get "player_xp" (Progression._data self')
       = Some (Json.JInt (Progression.award_new_total_xp award))
    /\ Json.dict_get "player_level" (Progression._data self')
       = Some (Json.JInt (Progression.award_level award))
    /\ Progression.award_leveled_up award = (Progression.award_level award >? 1)
    /\ (1 = Progression.level_from_xp exact_arith 0 ->
        1 <= Progression.award_level award)
    /\ (forall key, key <> "player_xp" -> key <> "player_level" ->
          Json.dict_get key (Progression._data self') = Json.dict_get key d).
Proof.
  intros d self.
  apply (award_xp_keeps_level exact_arith exact_rounds_closely exact_pow_closely
           exact_rounds_monotonically d self "lesson_complete" 0 1); reflexivity.
Defined.

(** On a new record at normal difficulty, a completed monument brings 500
    XP and level 5. *)
Example monument_complete_award :
  (let* self := Progression.tracker_init (SaveSystem._validate_save_data [] 1) in
   let* r := Progression.award_xp exact_arith self "monument_complete" in
   Ok (option_map (fun p => (Progression.award_xp_gained p.1,
                             Progression.award_level p.1,
                             Progression.award_leveled_up p.1)) r))
  = Ok (Some (500, 5, true)).
Proof. vm_compute. reflexivity. Qed.

(** The hypothesis of [loaded_record_summary] at slot 1 holding an empty
    document. *)
Lemma loaded_record_summary_witness :
  let fs := Terms.empty_document_files "saves" in
  let record := SaveSystem._validate_save_data [] 1 in
  Terms.well_formed 1 record
  /\ exists summary,
       SaveSystem.get_save_summary "saves" Terms.working_env fs 1 = Ok (Some summary, fs)
       /\ Json.dict_get "slot" summary = Some (Json.JInt 1)
       /\ (forall key, In key Terms.summary_fields ->
             exists v, Json.dict_get key record = Some v
                       /\ Json.dict_get key summary = Some v)
       /\ (forall key, ~ In key Terms.summary_fields ->
             Json.dict_get key summary = None).
Proof.
  intros fs record.
  pose proof (loaded_record_summary "saves" Terms.working_env fs 1
                ltac:(unfold Config.MAX_SAVE_SLOTS; lia)) as H.
  assert (Hload : SaveSystem.load_game "saves" Terms.working_env fs 1
                  = Ok (Some record, fs)) by (vm_compute; reflexivity).
  rewrite Hload in H. exact H.
Defined.

(** With a primary that [open] refuses, the summary raises as the load
    does. *)
Example summary_of_unreadable_slot :
  SaveSystem.get_save_summary "saves" Terms.working_env
    (Terms.unreadable_primary_files "saves") 1 = Raise OSError.
Proof. vm_compute. reflexivity. Qed.
